(** * Astrofinn: orbital kinematics, lighting, camera controller and content lookup

    A shallow embedding of the simulation code of the Astrofinn visualisation
    (the Earth3D component with its HeliocentricSystem, MoonMesh and PlanetMesh
    frame callbacks and its fragment shaders), of the ShadowLab and
    KaamosViewer computations and of the static quiz service, followed by the
    properties established about them.  Of the libraries the components lean
    on, the vectors, the spherical coordinates and the [update] of the
    OrbitControls of three.js are written out as far as the code uses them.

    Numbers.  JavaScript and GLSL numbers are IEEE doubles and floats; they are
    modelled here by the real numbers of the Standard Library, [Math.cos],
    [Math.sin], [Math.tan], [Math.sqrt] and [Math.min] by [cos], [sin], [tan],
    [sqrt] and [Rmin].  Every statement below is therefore a statement about the
    exact arithmetic the code approximates: rounding, NaN and infinities are
    outside the model. *)

From Stdlib Require Import Reals Lra Lia.
From Stdlib Require Import String Ascii List Bool Sorted.
Import ListNotations.

Open Scope R_scope.

(* ================================================================== *)
(** * three.js vectors *)
(* ================================================================== *)

(** The part of [THREE.Vector3] the frame callbacks use.  Methods that mutate
    their receiver in the library return the new value here. *)
Module Vector3.

Record t : Type := mk { x : R; y : R; z : R }.

Definition zero : t := mk 0 0 0.

Definition add (a b : t) : t := mk (x a + x b) (y a + y b) (z a + z b).
Definition sub (a b : t) : t := mk (x a - x b) (y a - y b) (z a - z b).

Definition multiplyScalar (a : t) (s : R) : t := mk (x a * s) (y a * s) (z a * s).
Definition divideScalar (a : t) (s : R) : t := multiplyScalar a (1 / s).

Definition dot (a b : t) : R := x a * x b + y a * y b + z a * z b.

Definition length (a : t) : R := sqrt (x a * x a + y a * y a + z a * z a).

(** [normalize] divides by [this.length() || 1]: a zero length is replaced
    by 1. *)
Definition normalize (a : t) : t :=
  divideScalar a (if Req_dec_T (length a) 0 then 1 else length a).

Definition setLength (a : t) (l : R) : t := multiplyScalar (normalize a) l.

Definition distanceToSquared (a b : t) : R :=
  let dx := x a - x b in
  let dy := y a - y b in
  let dz := z a - z b in
  dx * dx + dy * dy + dz * dz.

Definition distanceTo (a b : t) : R := sqrt (distanceToSquared a b).

(** [a.lerp(v, alpha)]: each component moves by [(v - a) * alpha]. *)
Definition lerp (a v : t) (alpha : R) : t :=
  mk (x a + (x v - x a) * alpha)
     (y a + (y v - y a) * alpha)
     (z a + (z v - z a) * alpha).

End Vector3.

Definition Vec3 : Type := Vector3.t.

(* ================================================================== *)
(** * GLSL built-ins used by the fragment shaders *)
(* ================================================================== *)

Module Glsl.

(** [clamp(x, minVal, maxVal) = min(max(x, minVal), maxVal)]. *)
Definition clamp (x minVal maxVal : R) : R := Rmin (Rmax x minVal) maxVal.

(** [smoothstep(edge0, edge1, x)]: Hermite interpolation of the clamped
    ratio. *)
Definition smoothstep (edge0 edge1 x : R) : R :=
  let t := clamp ((x - edge0) / (edge1 - edge0)) 0 1 in
  t * t * (3 - 2 * t).

End Glsl.

(* ================================================================== *)
(** * Simulation constants *)
(* ================================================================== *)

Definition EARTH_RADIUS : R := 2.
Definition MOON_RADIUS : R := 1.0.
Definition MOON_DISTANCE : R := 25.

Definition SEMI_MAJOR_AXIS : R := 250.
Definition SEMI_MINOR_AXIS : R := 215.
Definition FOCAL_OFFSET : R := 80.

Definition BASE_ROTATION_SPEED : R := 0.15.
Definition BASE_ORBIT_SPEED : R := 0.04.

Definition EARTH_ROTATION_SPEED : R := BASE_ROTATION_SPEED.
Definition EARTH_YEAR_SPEED : R := BASE_ORBIT_SPEED.
Definition MOON_ORBIT_SPEED : R := EARTH_YEAR_SPEED * 13.03571428571429.

(** The cap both frame callbacks pass to [Math.min(delta, 0.05)]. *)
Definition MAX_STEP : R := 0.05.

(** The bound of the drift check [dist > 300]. *)
Definition DRIFT_BOUND : R := 300.

(** The delay of the [setTimeout] that ends a camera transition, in
    milliseconds. *)
Definition TRANSITION_DELAY_MS : nat := 100.

Inductive ViewMode : Type :=
| EARTH_FREE
| EARTH_DAY
| EARTH_NIGHT
| SYSTEM_TOP
| SYSTEM_AUTO
| SOLAR_SYSTEM.

Definition ViewMode_eqb (a b : ViewMode) : bool :=
  match a, b with
  | EARTH_FREE, EARTH_FREE
  | EARTH_DAY, EARTH_DAY
  | EARTH_NIGHT, EARTH_NIGHT
  | SYSTEM_TOP, SYSTEM_TOP
  | SYSTEM_AUTO, SYSTEM_AUTO
  | SOLAR_SYSTEM, SOLAR_SYSTEM => true
  | _, _ => false
  end.

(** What one rendered frame hands to every [useFrame] callback: the value
    [state.clock.getElapsedTime()] has in that frame, taken as one value for
    all the callbacks of the frame, and the raw [delta]. *)
Record Frame : Type := mkFrame { elapsedTime : R; delta : R }.

(* ================================================================== *)
(** * Fragment shaders: the day/night factor *)
(* ================================================================== *)

(** [float dotProd = dot(normal, sunDir)] on the normalised varyings. *)
Definition shaderDotProd (vNormal vSunDir : Vec3) : R :=
  Vector3.dot (Vector3.normalize vNormal) (Vector3.normalize vSunDir).

(** moonFragmentShader: [smoothstep(-0.02, 0.02, dotProd)]. *)
Definition moonDayFactor (dotProd : R) : R := Glsl.smoothstep (-0.02) 0.02 dotProd.

(** earthFragmentShader: [smoothstep(-0.2, 0.2, dotProd)]. *)
Definition earthDayFactor (dotProd : R) : R := Glsl.smoothstep (-0.2) 0.2 dotProd.

(* ================================================================== *)
(** * MoonMesh *)
(* ================================================================== *)

(** [orbitGroupRef.current.rotation.y] of the Moon's orbit group. *)
Record MoonState : Type := mkMoon { moonOrbitRotationY : R }.

Definition moonInit : MoonState := mkMoon 0.

Definition MoonMesh_useFrame (f : Frame) (m : MoonState) : MoonState :=
  let safeDelta := Rmin (delta f) MAX_STEP in
  mkMoon (moonOrbitRotationY m + safeDelta * MOON_ORBIT_SPEED).

(* ================================================================== *)
(** * SunMesh *)
(* ================================================================== *)

(** [meshRef.current.rotation.y] of the Sun's sphere and the [uTime] uniform
    of its halo. *)
Record SunState : Type := mkSun { sunRotationY : R; haloTime : R }.

Definition sunInit : SunState := mkSun 0 0.

(** The Sun turns by the raw delta; the halo is handed the clock's elapsed
    time. *)
Definition SunMesh_useFrame (f : Frame) (u : SunState) : SunState :=
  mkSun (sunRotationY u + delta f * 0.002) (elapsedTime f).

(* ================================================================== *)
(** * The extra planets *)
(* ================================================================== *)

Record PlanetConfig : Type := mkPlanet {
  name : string;
  radius : R;
  distance : R;
  speed : R;
  rotationSpeed : R;
  texture : string;
  hasRings : bool;
  orbitColor : string;
  startAngle : R;
  tilt : option R
}.

Definition deg (d : R) : R := d * (PI / 180).

Definition Mercury : PlanetConfig :=
  mkPlanet "Mercury" 0.8 70 (BASE_ORBIT_SPEED * (1 / 0.24))
           (BASE_ROTATION_SPEED * (1 / 58.6)) "mercury.jpg" false "#A5A5A5" 0 None.
Definition Venus : PlanetConfig :=
  mkPlanet "Venus" 1.9 110 (BASE_ORBIT_SPEED * (1 / 0.615))
           (BASE_ROTATION_SPEED * (1 / -243)) "venus_atmosphere.jpg" false "#E3BB76" 2
           (Some (deg 177)).
Definition Mars : PlanetConfig :=
  mkPlanet "Mars" 1.1 320 (BASE_ORBIT_SPEED * (1 / 1.88))
           (BASE_ROTATION_SPEED * (1 / 1.03)) "mars.jpg" false "#FF4500" 4
           (Some (deg 25)).
Definition Jupiter : PlanetConfig :=
  mkPlanet "Jupiter" 10 450 (BASE_ORBIT_SPEED * (1 / 11.86))
           (BASE_ROTATION_SPEED * (1 / 0.41)) "jupiter.jpg" false "#FFA500" 1
           (Some (deg 3)).
Definition Saturn : PlanetConfig :=
  mkPlanet "Saturn" 8.5 580 (BASE_ORBIT_SPEED * (1 / 29.4))
           (BASE_ROTATION_SPEED * (1 / 0.45)) "saturn.jpg" true "#F4C542" 3
           (Some (deg 27)).
Definition Uranus : PlanetConfig :=
  mkPlanet "Uranus" 3.5 700 (BASE_ORBIT_SPEED * (1 / 84))
           (BASE_ROTATION_SPEED * (1 / -0.72)) "uranus.jpg" false "#00FFFF" 5
           (Some (deg 98)).
Definition Neptune : PlanetConfig :=
  mkPlanet "Neptune" 3.4 800 (BASE_ORBIT_SPEED * (1 / 164.8))
           (BASE_ROTATION_SPEED * (1 / 0.67)) "neptune.jpg" false "#4169E1" 0.5
           (Some (deg 28)).

Definition PLANETS : list PlanetConfig :=
  [Mercury; Venus; Mars; Jupiter; Saturn; Uranus; Neptune].

(** [orbitRef.current.position] and [meshRef.current.rotation.y] of one
    PlanetMesh. *)
Record PlanetState : Type := mkPlanetState {
  planetPosition : Vec3;
  planetRotationY : R
}.

(** A freshly mounted group sits at the origin, unrotated. *)
Definition planetInit : PlanetState := mkPlanetState Vector3.zero 0.

(** [const currentAngle = config.startAngle + t * config.speed]. *)
Definition planetAngle (config : PlanetConfig) (t : R) : R :=
  startAngle config + t * speed config.

(** The PlanetMesh frame callback: it writes the x and z of the orbit group
    from the absolute elapsed time and advances the spin by the raw delta. *)
Definition PlanetMesh_useFrame (config : PlanetConfig) (f : Frame)
    (p : PlanetState) : PlanetState :=
  let t := elapsedTime f in
  let currentAngle := startAngle config + t * speed config in
  mkPlanetState
    (Vector3.mk (cos currentAngle * distance config)
                (Vector3.y (planetPosition p))
                (sin currentAngle * distance config))
    (planetRotationY p + rotationSpeed config * delta f).

(** The callback run over a sequence of frames, oldest first. *)
Definition PlanetMesh_run (config : PlanetConfig) (fs : list Frame)
    (p : PlanetState) : PlanetState :=
  fold_left (fun st f => PlanetMesh_useFrame config f st) fs p.

(* ================================================================== *)
(** * HeliocentricSystem: state *)
(* ================================================================== *)

(** [state.camera]: its position, its up vector and the point its last
    [lookAt] turned it to (its orientation is kept in no other form). *)
Record Camera : Type := mkCamera {
  camPosition : Vec3;
  camUp : Vec3;
  camLookAt : option Vec3
}.

(** The refs of HeliocentricSystem.  [controls] is the target of the
    OrbitControls behind [controlsRef.current], [None] while no OrbitControls
    is mounted; the camera carrying [cameraRef] is mounted and made the default
    camera together with it, so [cameraRef.current] is [state.camera] exactly
    when [controls] is present.  [pendingTimeout] is the delay of the timer the
    transition effect has armed and not yet seen fire. *)
Record SystemState : Type := mkSystem {
  orbitAngle : R;
  prevEarthPos : Vec3;
  isTransitioning : bool;
  earthContainerPosition : Vec3;
  earthRotationY : R;
  cloudsRotationY : R;
  camera : Camera;
  controls : option Vec3;
  pendingTimeout : option nat
}.

(** A focus name is used as a condition: [null] and the empty string are
    falsy. *)
Definition truthy (focusedPlanet : option string) : bool :=
  match focusedPlanet with
  | None => false
  | Some s => negb (String.eqb s "")
  end.

(** [x = -FOCAL_OFFSET + SEMI_MAJOR_AXIS * cos(angle)],
    [z = SEMI_MINOR_AXIS * sin(angle)], on the plane y = 0. *)
Definition earthPosition (angle : R) : Vec3 :=
  Vector3.mk (- FOCAL_OFFSET + SEMI_MAJOR_AXIS * cos angle)
             0
             (SEMI_MINOR_AXIS * sin angle).

(** The limits the OrbitControls element is rendered with. *)
Definition minDistance (viewMode : ViewMode) (focusedPlanet : option string) : R :=
  if ViewMode_eqb viewMode SOLAR_SYSTEM
  then (if truthy focusedPlanet then 5 else 50)
  else 5.0.

Definition maxDistance (viewMode : ViewMode) : R :=
  if ViewMode_eqb viewMode SOLAR_SYSTEM then 4000 else 250.

(** The part of [THREE.Spherical] that OrbitControls uses: the radius, the
    polar angle [phi] measured from the positive y axis and the azimuth
    [theta = atan2(x, z)].  [theta] is only ever converted back, so it is kept
    through its sine and cosine; for x = z = 0 the library's [atan2] gives 0. *)
Module Spherical.

Record t : Type := mk { radius : R; phi : R; sinTheta : R; cosTheta : R }.

Definition EPS : R := 0.000001.

(** [setFromVector3]: both angles are 0 for the zero vector, and the cosine
    handed to [Math.acos] is clamped to [-1, 1]. *)
Definition setFromVector3 (v : Vec3) : t :=
  let radius := Vector3.length v in
  let planar := sqrt (Vector3.x v * Vector3.x v + Vector3.z v * Vector3.z v) in
  mk radius
     (if Req_dec_T radius 0 then 0
      else acos (Rmax (-1) (Rmin 1 (Vector3.y v / radius))))
     (if Req_dec_T planar 0 then 0 else Vector3.x v / planar)
     (if Req_dec_T planar 0 then 1 else Vector3.z v / planar).

(** [makeSafe]: [phi] is kept within [EPS, PI - EPS]. *)
Definition makeSafe (s : t) : t :=
  mk (radius s) (Rmax EPS (Rmin (PI - EPS) (phi s))) (sinTheta s) (cosTheta s).

(** [Vector3.setFromSpherical]. *)
Definition toVector3 (s : t) : Vec3 :=
  let sinPhiRadius := sin (phi s) * radius s in
  Vector3.mk (sinPhiRadius * sinTheta s)
             (cos (phi s) * radius s)
             (sinPhiRadius * cosTheta s).

End Spherical.

(** [controls.update()] of three.js OrbitControls with damping off, no
    pointer input pending and the limits of the angles the library starts
    with ([minPolarAngle] 0, [maxPolarAngle] pi, no limit on the azimuth):
    the offset of the camera from the target is taken to spherical
    coordinates, [phi] is kept within [0, PI] and made safe, the radius is
    kept within [minDistance, maxDistance], and the camera is put at the
    target plus the offset taken back from these coordinates and turned to
    the target.  (The camera under the controls keeps the up vector (0, 1, 0)
    it is created with, so that the change of basis the library wraps around
    this is the identity.) *)
Definition OrbitControls_update (minD maxD : R) (cam : Camera) (target : Vec3)
    : Camera :=
  let offset := Vector3.sub (camPosition cam) target in
  let spherical := Spherical.setFromVector3 offset in
  let spherical1 :=
    Spherical.makeSafe
      (Spherical.mk (Spherical.radius spherical)
                    (Rmax 0 (Rmin PI (Spherical.phi spherical)))
                    (Spherical.sinTheta spherical)
                    (Spherical.cosTheta spherical)) in
  let spherical2 :=
    Spherical.mk (Rmax minD (Rmin maxD (Spherical.radius spherical1)))
                 (Spherical.phi spherical1)
                 (Spherical.sinTheta spherical1)
                 (Spherical.cosTheta spherical1) in
  mkCamera (Vector3.add target (Spherical.toVector3 spherical2))
           (camUp cam)
           (Some target).

(* ================================================================== *)
(** * HeliocentricSystem: the transition effect *)
(* ================================================================== *)

(** The body of the [useEffect] on [viewMode, focusedPlanet]: the cleanup of
    the previous run has cleared its timer, the lock is taken and a new timer
    is armed. *)
Definition HeliocentricSystem_useEffect (s : SystemState) : SystemState :=
  mkSystem (orbitAngle s) (prevEarthPos s) true (earthContainerPosition s)
           (earthRotationY s) (cloudsRotationY s) (camera s) (controls s)
           (Some TRANSITION_DELAY_MS).

(** The state with the lock flag [isTransitioning.current] set to [b]. *)
Definition withLock (b : bool) (s : SystemState) : SystemState :=
  mkSystem (orbitAngle s) (prevEarthPos s) b (earthContainerPosition s)
           (earthRotationY s) (cloudsRotationY s) (camera s) (controls s)
           (pendingTimeout s).

(** The callback of that timer. *)
Definition transitionTimeout (viewMode : ViewMode) (focusedPlanet : option string)
    (s : SystemState) : SystemState :=
  let unlocked cam ctl :=
    mkSystem (orbitAngle s) (prevEarthPos s) false (earthContainerPosition s)
             (earthRotationY s) (cloudsRotationY s) cam ctl None in
  match controls s with
  | Some target =>
      let cam := camera s in
      let '(cam1, target1) :=
        if ViewMode_eqb viewMode EARTH_FREE then
          let earthPos := earthContainerPosition s in
          (mkCamera (Vector3.mk (Vector3.x earthPos)
                                (Vector3.y earthPos + 6)
                                (Vector3.z earthPos + 18))
                    (camUp cam) (camLookAt cam),
           earthPos)
        else if ViewMode_eqb viewMode SOLAR_SYSTEM && negb (truthy focusedPlanet) then
          (mkCamera (Vector3.mk 0 400 600) (camUp cam) (camLookAt cam),
           Vector3.mk 0 0 0)
        else (cam, target) in
      unlocked
        (OrbitControls_update (minDistance viewMode focusedPlanet)
                              (maxDistance viewMode) cam1 target1)
        (Some target1)
  | None => unlocked (camera s) None
  end.

(* ================================================================== *)
(** * HeliocentricSystem: the frame callback *)
(* ================================================================== *)

(** Step 3, first branch: the manual follow of EARTH_FREE with its drift
    check. *)
Definition followEarth (posDelta currentEarthPos : Vec3) (cam : Camera)
    (target : Vec3) : Camera * Vec3 :=
  let pos1 := Vector3.add (camPosition cam) posDelta in
  let target1 := Vector3.add target posDelta in
  let dist := Vector3.distanceTo pos1 currentEarthPos in
  if Rgt_dec dist DRIFT_BOUND then
    (mkCamera (Vector3.add currentEarthPos (Vector3.mk 0 10 40))
              (camUp cam) (camLookAt cam),
     currentEarthPos)
  else
    (mkCamera pos1 (camUp cam) (camLookAt cam), target1).

(** Step 3, second branch: where the focused body is and how large it is.
    The planets are looked up by name and their position is recomputed from
    the elapsed time. *)
Definition focusTarget (focusedPlanet : string) (currentEarthPos : Vec3) (t : R)
    : option (Vec3 * R) :=
  if String.eqb focusedPlanet "Earth" then Some (currentEarthPos, EARTH_RADIUS)
  else
    match find (fun p => String.eqb (name p) focusedPlanet) PLANETS with
    | Some targetPlanet =>
        let angle := startAngle targetPlanet + t * speed targetPlanet in
        let pX := cos angle * distance targetPlanet in
        let pZ := sin angle * distance targetPlanet in
        Some (Vector3.mk pX 0 pZ, radius targetPlanet)
    | None => None
    end.

(** Step 3, second branch: both the controls target and the camera are
    eased towards the focused body, the camera keeping its (length-limited)
    offset from the target. *)
Definition trackFocus (minD maxD : R) (targetPos : Vec3) (targetRadius : R)
    (cam : Camera) (target : Vec3) : Camera * Vec3 :=
  let target1 := Vector3.lerp target targetPos 0.1 in
  let offset := Vector3.sub (camPosition cam) target1 in
  let idealDist := targetRadius * 6 + 10 in
  let offset1 :=
    if Rgt_dec (Vector3.length offset) (idealDist * 2)
    then Vector3.setLength offset idealDist
    else offset in
  let pos1 := Vector3.lerp (camPosition cam) (Vector3.add targetPos offset1) 0.1 in
  (OrbitControls_update minD maxD (mkCamera pos1 (camUp cam) (camLookAt cam)) target1,
   target1).

(** Step 7: the modes that place the camera themselves. *)
Definition placeCamera (viewMode : ViewMode) (elapsed : R) (currentEarthPos : Vec3)
    (cam : Camera) : Camera :=
  match viewMode with
  | SYSTEM_AUTO =>
      let t := elapsed * 0.1 in
      let radius := 350 in
      let centerX := - FOCAL_OFFSET in
      let camX := centerX + radius * cos t in
      let camZ := radius * sin (2 * t) in
      let camY := 100 + 40 * sin t in
      let targetPos := Vector3.mk camX camY camZ in
      mkCamera (Vector3.lerp (camPosition cam) targetPos 0.05)
               (camUp cam)
               (Some (Vector3.mk centerX 0 0))
  | SYSTEM_TOP =>
      let targetPos := Vector3.mk (- FOCAL_OFFSET) 600 0 in
      mkCamera (Vector3.lerp (camPosition cam) targetPos 0.05)
               (Vector3.mk 0 0 (-1))
               (Some (Vector3.mk (- FOCAL_OFFSET) 0 0))
  | EARTH_DAY =>
      let sunDirection :=
        Vector3.normalize (Vector3.sub (Vector3.mk 0 0 0) currentEarthPos) in
      let offsetDist := 35 in
      let camPos :=
        Vector3.add currentEarthPos (Vector3.multiplyScalar sunDirection offsetDist) in
      mkCamera (Vector3.mk (Vector3.x camPos) (Vector3.y camPos + 5) (Vector3.z camPos))
               (Vector3.mk 0 1 0)
               (Some currentEarthPos)
  | EARTH_NIGHT =>
      let sunDirection :=
        Vector3.normalize (Vector3.sub (Vector3.mk 0 0 0) currentEarthPos) in
      let offsetDist := 35 in
      let camPos :=
        Vector3.sub currentEarthPos (Vector3.multiplyScalar sunDirection offsetDist) in
      mkCamera (Vector3.mk (Vector3.x camPos) (Vector3.y camPos + 5) (Vector3.z camPos))
               (Vector3.mk 0 1 0)
               (Some currentEarthPos)
  | EARTH_FREE | SOLAR_SYSTEM => cam
  end.

(** The frame callback of HeliocentricSystem.  (Its step 6 copies the Sun's
    position into a shader uniform and touches none of the state kept
    here.) *)
Definition HeliocentricSystem_useFrame (viewMode : ViewMode)
    (focusedPlanet : option string) (f : Frame) (s : SystemState) : SystemState :=
  (* 1. Earth orbit position *)
  let safeDelta := Rmin (delta f) MAX_STEP in
  let orbitAngle1 := orbitAngle s + safeDelta * EARTH_YEAR_SPEED in
  let currentEarthPos := earthPosition orbitAngle1 in
  (* 2. movement since the last frame *)
  let posDelta := Vector3.sub currentEarthPos (prevEarthPos s) in
  (* 3. camera tracking *)
  let '(cam3, controls3) :=
    if ViewMode_eqb viewMode EARTH_FREE && negb (isTransitioning s) then
      match controls s with
      | Some target =>
          let '(c, tg) := followEarth posDelta currentEarthPos (camera s) target in
          (c, Some tg)
      | None => (camera s, None)
      end
    else if ViewMode_eqb viewMode SOLAR_SYSTEM && truthy focusedPlanet then
      match focusedPlanet, controls s with
      | Some fp, Some target =>
          match focusTarget fp currentEarthPos (elapsedTime f) with
          | Some (targetPos, targetRadius) =>
              let '(c, tg) :=
                trackFocus (minDistance viewMode focusedPlanet) (maxDistance viewMode)
                           targetPos targetRadius (camera s) target in
              (c, Some tg)
          | None => (camera s, controls s)
          end
      | _, _ => (camera s, controls s)
      end
    else (camera s, controls s) in
  (* 4. Earth rotation, 5. cloud rotation *)
  let earthRotationY1 := earthRotationY s + safeDelta * EARTH_ROTATION_SPEED in
  let cloudsRotationY1 :=
    cloudsRotationY s + safeDelta * (EARTH_ROTATION_SPEED * 1.0625) in
  (* 7. the other camera modes *)
  let cam7 := placeCamera viewMode (elapsedTime f) currentEarthPos cam3 in
  mkSystem orbitAngle1 currentEarthPos (isTransitioning s) currentEarthPos
           earthRotationY1 cloudsRotationY1 cam7 controls3 (pendingTimeout s).

(** The callback run over a sequence of frames, oldest first. *)
Definition HeliocentricSystem_run (viewMode : ViewMode)
    (focusedPlanet : option string) (fs : list Frame) (s : SystemState)
    : SystemState :=
  fold_left (fun st f => HeliocentricSystem_useFrame viewMode focusedPlanet f st) fs s.

(** The refs as the component creates them: [orbitAngle] 0, [prevEarthPos]
    and the Earth container at the perihelion-side vertex, no lock, and the
    camera and controls as given. *)
Definition systemInit (cam : Camera) (ctl : option Vec3) : SystemState :=
  mkSystem 0 (Vector3.mk (SEMI_MAJOR_AXIS - FOCAL_OFFSET) 0 0) false
           (Vector3.mk (SEMI_MAJOR_AXIS - FOCAL_OFFSET) 0 0) 0 0 cam ctl None.

(* ================================================================== *)
(** * The scene: props, mounted components and events *)
(* ================================================================== *)

(** The camera with [cameraRef] and the OrbitControls are rendered in
    EARTH_FREE and SOLAR_SYSTEM only; the other modes render a plain default
    camera at (0, 50, 100). *)
Definition controlsMounted (viewMode : ViewMode) : bool :=
  match viewMode with
  | EARTH_FREE | SOLAR_SYSTEM => true
  | _ => false
  end.

Definition option_string_eqb (a b : option string) : bool :=
  match a, b with
  | None, None => true
  | Some x, Some y => String.eqb x y
  | _, _ => false
  end.

(** Earth3D's two pieces of React state and what is mounted under them.
    [scenePlanets] holds one state per entry of PLANETS while the SolarSystem
    group is mounted and is empty otherwise. *)
Record Scene : Type := mkScene {
  sceneViewMode : ViewMode;
  sceneFocus : option string;
  sceneSystem : SystemState;
  sceneMoon : MoonState;
  scenePlanets : list PlanetState;
  sceneSun : SunState
}.

Definition withCamera (s : SystemState) (cam : Camera) (ctl : option Vec3)
    : SystemState :=
  mkSystem (orbitAngle s) (prevEarthPos s) (isTransitioning s)
           (earthContainerPosition s) (earthRotationY s) (cloudsRotationY s)
           cam ctl (pendingTimeout s).

(** The OrbitControls element of drei runs [controls.update()] in a frame
    callback of its own.  It is registered with priority -1, and callbacks
    run in the order of their priorities, so that in every frame it runs
    before the callbacks of the components above. *)
Definition OrbitControls_useFrame (viewMode : ViewMode)
    (focusedPlanet : option string) (s : SystemState) : SystemState :=
  match controls s with
  | Some target =>
      withCamera s
        (OrbitControls_update (minDistance viewMode focusedPlanet)
                              (maxDistance viewMode) (camera s) target)
        (Some target)
  | None => s
  end.

(** Switching between the two camera set-ups replaces the default camera by
    a new one.  (Any other re-creation is a [CameraMoved] event below.) *)
Definition remountCamera (old new : ViewMode) (s : SystemState) : SystemState :=
  if Bool.eqb (controlsMounted old) (controlsMounted new) then s
  else if controlsMounted new
  then withCamera s (mkCamera Vector3.zero (Vector3.mk 0 1 0) None) (Some Vector3.zero)
  else withCamera s (mkCamera (Vector3.mk 0 50 100) (Vector3.mk 0 1 0) None) None.

Definition remountPlanets (new : ViewMode) (ps : list PlanetState) : list PlanetState :=
  if ViewMode_eqb new SOLAR_SYSTEM
  then (match ps with [] => map (fun _ => planetInit) PLANETS | _ => ps end)
  else [].

(** What happens to the scene.  [CameraMoved] stands for every change of the
    default camera and of the controls' target that comes from outside the
    callbacks modelled here: the pointer handlers of the OrbitControls
    (rotate, zoom, pan), and React creating the camera and the controls anew,
    as when the Suspense boundary around the scene falls back while the
    textures of the planets load.  Which camera and target result is left
    open. *)
Inductive Event : Type :=
| SetView (viewMode : ViewMode) (focusedPlanet : option string)
| TimeoutFires
| RenderFrame (f : Frame)
| CameraMoved (cam : Camera) (target : Vec3).

(** One frame: every mounted [useFrame] callback runs on the same frame
    data, the one of the OrbitControls first. *)
Definition renderFrame (f : Frame) (w : Scene) : Scene :=
  mkScene (sceneViewMode w) (sceneFocus w)
          (HeliocentricSystem_useFrame (sceneViewMode w) (sceneFocus w) f
             (OrbitControls_useFrame (sceneViewMode w) (sceneFocus w)
                (sceneSystem w)))
          (MoonMesh_useFrame f (sceneMoon w))
          (map (fun cp => PlanetMesh_useFrame (fst cp) f (snd cp))
               (combine PLANETS (scenePlanets w)))
          (SunMesh_useFrame f (sceneSun w)).

(** The reaction of the scene to one event.  The transition effect runs when
    [viewMode] or [focusedPlanet] has changed; a timer that is not pending
    does not fire. *)
Definition step (w : Scene) (e : Event) : Scene :=
  match e with
  | SetView vm fp =>
      if ViewMode_eqb vm (sceneViewMode w) && option_string_eqb fp (sceneFocus w)
      then w
      else mkScene vm fp
             (HeliocentricSystem_useEffect
                (remountCamera (sceneViewMode w) vm (sceneSystem w)))
             (sceneMoon w)
             (remountPlanets vm (scenePlanets w))
             (sceneSun w)
  | TimeoutFires =>
      match pendingTimeout (sceneSystem w) with
      | Some _ =>
          mkScene (sceneViewMode w) (sceneFocus w)
                  (transitionTimeout (sceneViewMode w) (sceneFocus w) (sceneSystem w))
                  (sceneMoon w) (scenePlanets w) (sceneSun w)
      | None => w
      end
  | RenderFrame f => renderFrame f w
  | CameraMoved cam target =>
      mkScene (sceneViewMode w) (sceneFocus w)
              (withCamera (sceneSystem w) cam
                 (if controlsMounted (sceneViewMode w) then Some target else None))
              (sceneMoon w) (scenePlanets w) (sceneSun w)
  end.

Definition run (w : Scene) (es : list Event) : Scene := fold_left step es w.

(** Earth3D as it mounts: EARTH_FREE with no focus, the transition effect
    already run once. *)
Definition sceneInit : Scene :=
  mkScene EARTH_FREE None
          (HeliocentricSystem_useEffect
             (systemInit (mkCamera Vector3.zero (Vector3.mk 0 1 0) None)
                         (Some Vector3.zero)))
          moonInit [] sunInit.

(* ================================================================== *)
(** * ShadowLab *)
(* ================================================================== *)

(** [shadowLength] as ShadowLab computes it from the slider value
    [sunHeight] (degrees): 100 over the tangent, replaced by 600 at 5 degrees
    and below. *)
Definition shadowLength (sunHeight : R) : R :=
  let angleRad := (sunHeight * PI) / 180 in
  let shadowLength := 100 / tan angleRad in
  if Rle_dec sunHeight 5 then 600 else shadowLength.

(* ================================================================== *)
(** * KaamosViewer *)
(* ================================================================== *)

Definition getSunlightHours (lat monthIndex : R) : R :=
  let normalizedMonth := cos (((monthIndex - 5) / 12) * 2 * PI) in
  let latEffect := (lat - 50) / 20 in
  let hours := 12 + (normalizedMonth * 12 * latEffect) in
  let hours := if Rgt_dec hours 24 then 24 else hours in
  let hours := if Rlt_dec hours 0 then 0 else hours in
  hours.

(** [hours === 0] and [hours === 24]. *)
Definition isKaamos (hours : R) : bool :=
  if Req_dec_T hours 0 then true else false.
Definition isMidnightSun (hours : R) : bool :=
  if Req_dec_T hours 24 then true else false.

(** The spans rendered in the status line of the viewer. *)
Definition statusText (lat monthIndex : R) : list string :=
  let hours := getSunlightHours lat monthIndex in
  (if isKaamos hours then ["KAAMOS (Polar Night)"%string] else [])
  ++ (if isMidnightSun hours then ["MIDNIGHT SUN"%string] else []).

(* ================================================================== *)
(** * The static quiz service *)
(* ================================================================== *)

Open Scope string_scope.

Record QuizQuestion : Type := mkQuestion {
  question : string;
  options : list string;
  correctAnswerIndex : nat;
  explanation : string
}.

Definition DEFAULT_QUESTIONS : list QuizQuestion :=
  [ mkQuestion "What is the primary reason for Earth's seasons?"
      ["Distance from the Sun"; "Axial Tilt (23.5°)"; "Solar Flares"; "The Moon's orbit"]
      1
      "Earth's axis is tilted 23.5 degrees. As we orbit the Sun, this tilt causes different hemispheres to receive more direct sunlight at different times of the year.";
    mkQuestion "Approximately how long does it take for Earth to complete one revolution around the Sun?"
      ["24 hours"; "30 days"; "365.25 days"; "10 years"]
      2
      "One revolution equals one year, which is approximately 365.25 days.";
    mkQuestion "Which motion causes day and night?"
      ["Revolution"; "Rotation"; "Precession"; "Gravitation"]
      1
      "Earth rotates on its axis once every 24 hours, causing day and night." ].

Definition KAAMOS_QUESTIONS : list QuizQuestion :=
  [ mkQuestion "What is 'Kaamos'?"
      ["A type of snow"; "Polar Night (Sun doesn't rise)"; "The Northern Lights"; "Midsummer Festival"]
      1
      "Kaamos is the Finnish term for the Polar Night, a period in winter north of the Arctic Circle when the sun does not rise above the horizon.";
    mkQuestion "Where can you experience the Midnight Sun?"
      ["At the Equator"; "Anywhere in Europe"; "North of the Arctic Circle"; "Only at the South Pole"]
      2
      "The Midnight Sun is a natural phenomenon that occurs in the summer months in places north of the Arctic Circle or south of the Antarctic Circle.";
    mkQuestion "In Rovaniemi (Arctic Circle), approximately how much sunlight is there in mid-winter?"
      ["12 hours"; "Only a few hours of twilight"; "24 hours"; "8 hours"]
      1
      "In mid-winter near the Arctic Circle, the sun barely rises, resulting in very short days or just twilight." ].

Definition SHADOW_QUESTIONS : list QuizQuestion :=
  [ mkQuestion "When is your shadow the shortest?"
      ["Sunrise"; "Noon"; "Sunset"; "Midnight"]
      1
      "Shadows are shortest when the light source (the Sun) is at its highest point in the sky, typically around solar noon.";
    mkQuestion "If the Sun is low in the sky (like winter in Finland), your shadow will be:"
      ["Very short"; "Very long"; "Invisible"; "The same as your height"]
      1
      "A low angle of light creates long shadows. In Finnish winters, the sun stays low, creating long shadows all day.";
    mkQuestion "What happens to a shadow as the light source moves higher?"
      ["It gets longer"; "It gets shorter"; "It disappears"; "It becomes wider"]
      1
      "As the angle of incidence increases (sun gets higher), the shadow length decreases." ].

(** The object literal TOPIC_MAP, its keys in insertion order. *)
Definition TOPIC_MAP : list (string * list QuizQuestion) :=
  [ ("kaamos", KAAMOS_QUESTIONS);
    ("polar", KAAMOS_QUESTIONS);
    ("shadow", SHADOW_QUESTIONS);
    ("incidence", SHADOW_QUESTIONS);
    ("default", DEFAULT_QUESTIONS) ].

(** [obj[key]]: the value of an own property, [None] for [undefined]. *)
Fixpoint getProperty {A : Type} (obj : list (string * A)) (key : string) : option A :=
  match obj with
  | [] => None
  | (k, v) :: rest => if String.eqb k key then Some v else getProperty rest key
  end.

(** The keys a [for (const key in obj)] loop visits, in order. *)
Definition keysOf {A : Type} (obj : list (string * A)) : list string := map fst obj.

(** Strings.  A JavaScript string is held as the bytes of its UTF-8 form.  A
    key written in ASCII occurs in a string as a run of UTF-16 code units
    exactly when it occurs in the UTF-8 form as a run of bytes, so [includes]
    below can search the bytes.

    [String.prototype.toLowerCase] maps by the Unicode case tables (it takes
    the Kelvin sign U+212A to k, for one).  The tables are not written out:
    the service is given the method as the parameter [lower] of
    [generateQuizQuestionsWith], and all that is ever assumed of it is
    [lowersAscii]: on a string of ASCII characters it lower-cases the letters
    A to Z and keeps the rest, which is what [toLowerCase] below does. *)
Definition lowerAscii (c : ascii) : ascii :=
  let n := nat_of_ascii c in
  if (65 <=? n)%nat && (n <=? 90)%nat then ascii_of_nat (n + 32) else c.

Fixpoint toLowerCase (s : string) : string :=
  match s with
  | EmptyString => EmptyString
  | String c rest => String (lowerAscii c) (toLowerCase rest)
  end.

(** [s.includes(key)]: [key] occurs in [s] as a contiguous substring. *)
Fixpoint includes (s key : string) : bool :=
  String.prefix key s
  || match s with
     | EmptyString => false
     | String _ rest => includes rest key
     end.

(** The loop over the keys with its [break]. *)
Fixpoint findTopic (t : string) (keys : list string)
    (data : option (list QuizQuestion)) : option (list QuizQuestion) :=
  match keys with
  | [] => data
  | key :: rest =>
      if includes t key then getProperty TOPIC_MAP key
      else findTopic t rest data
  end.

(** What an async function hands back once it has run. *)
Inductive Promise (A : Type) : Type :=
| Resolved (value : A)
| Rejected (reason : string).
Arguments Resolved {A} value.
Arguments Rejected {A} reason.

Fixpoint isAscii (s : string) : bool :=
  match s with
  | EmptyString => true
  | String c rest => (nat_of_ascii c <? 128)%nat && isAscii rest
  end.

Definition lowersAscii (lower : string -> string) : Prop :=
  forall s : string, isAscii s = true -> lower s = toLowerCase s.

(** [generateQuizQuestions(topic, count = 3)], with [topic.toLowerCase()]
    computed by [lower]; [count] is not used.  The resolved value is [None]
    where the JavaScript value would be [undefined]. *)
Definition generateQuizQuestionsWith (lower : string -> string) (topic : string)
    (count : nat) : Promise (option (list QuizQuestion)) :=
  let t := lower topic in
  let data := getProperty TOPIC_MAP "default" in
  let data := findTopic t (keysOf TOPIC_MAP) data in
  Resolved data.

(** The service with the lower-casing of ASCII: [generateQuizQuestions] on
    the topics written in ASCII, as are all the topics the components pass. *)
Definition generateQuizQuestions (topic : string) (count : nat)
    : Promise (option (list QuizQuestion)) :=
  let t := toLowerCase topic in
  let data := getProperty TOPIC_MAP "default" in
  let data := findTopic t (keysOf TOPIC_MAP) data in
  Resolved data.

Close Scope string_scope.

(* ================================================================== *)
(** * Derived notions used in the statements *)
(* ================================================================== *)

(** The states after each frame of a run, oldest first. *)
Fixpoint HeliocentricSystem_trace (viewMode : ViewMode)
    (focusedPlanet : option string) (fs : list Frame) (s : SystemState)
    : list SystemState :=
  match fs with
  | [] => []
  | f :: rest =>
      let s1 := HeliocentricSystem_useFrame viewMode focusedPlanet f s in
      s1 :: HeliocentricSystem_trace viewMode focusedPlanet rest s1
  end.

(** The ellipse of Earth's orbit, centre at [centerOffset = -FOCAL_OFFSET] on
    the x axis: ((x - centerOffset)/a)^2 + (z/b)^2 = 1 on the plane y = 0. *)
Definition onEarthEllipse (p : Vec3) : Prop :=
  ((Vector3.x p - (- FOCAL_OFFSET)) / SEMI_MAJOR_AXIS) ^ 2
  + (Vector3.z p / SEMI_MINOR_AXIS) ^ 2 = 1
  /\ Vector3.y p = 0.

(** How far a frame advances a quantity. *)
Definition advance {S : Type} (q : S -> R) (before after : S) : R :=
  q after - q before.

(** Whether an OrbitControls is behind [controlsRef], and the invariant of
    the scene that it is exactly in the modes that render one. *)
Definition controlsPresent (s : SystemState) : bool :=
  match controls s with
  | Some _ => true
  | None => false
  end.

Definition controlsInvariant (w : Scene) : Prop :=
  controlsPresent (sceneSystem w) = controlsMounted (sceneViewMode w).

(** The two stages of [smoothstep]: the ratio that is clamped, and the
    Hermite polynomial applied to the clamped ratio. *)
Definition bandRatio (edge0 edge1 d : R) : R := (d - edge0) / (edge1 - edge0).
Definition hermite (t : R) : R := t * t * (3 - 2 * t).

(* ================================================================== *)
(** * Earth3D: the control overlay *)
(* ================================================================== *)

(** The names listed in the Planetary Focus panel. *)
Definition PLANET_SELECTOR : list string :=
  ["Mercury"; "Venus"; "Earth"; "Mars"; "Jupiter"; "Saturn"; "Uranus";
   "Neptune"]%string.

(** The buttons of the overlay: the four view buttons, one button per
    entry of the focus panel, and the panel's Overview button. *)
Inductive Button : Type :=
| FreeEarthButton
| SolarSystemButton
| DayViewButton
| NightViewButton
| PlanetButton (p : string)
| OverviewButton.

(** Whether a button is on screen: the view buttons always are, the focus
    panel only in SOLAR_SYSTEM, with a button for each listed name. *)
Definition rendered (w : Scene) (b : Button) : bool :=
  match b with
  | FreeEarthButton | SolarSystemButton | DayViewButton | NightViewButton => true
  | PlanetButton p =>
      ViewMode_eqb (sceneViewMode w) SOLAR_SYSTEM
      && existsb (String.eqb p) PLANET_SELECTOR
  | OverviewButton => ViewMode_eqb (sceneViewMode w) SOLAR_SYSTEM
  end.

(** The [onClick] handlers, as the pair of state setters they call. *)
Definition onClick (w : Scene) (b : Button) : Event :=
  match b with
  | FreeEarthButton => SetView EARTH_FREE None
  | SolarSystemButton => SetView SOLAR_SYSTEM None
  | DayViewButton => SetView EARTH_DAY None
  | NightViewButton => SetView EARTH_NIGHT None
  | PlanetButton p => SetView (sceneViewMode w) (Some p)
  | OverviewButton => SetView (sceneViewMode w) None
  end.

(** What can happen to the mounted component: a click on a button that is
    on screen, the transition timer, a rendered frame. *)
Inductive Input : Type :=
| Click (b : Button)
| Timer
| Render (f : Frame).

Definition react (w : Scene) (i : Input) : Scene :=
  match i with
  | Click b => if rendered w b then step w (onClick w b) else w
  | Timer => step w TimeoutFires
  | Render f => step w (RenderFrame f)
  end.

Definition session (inputs : list Input) : Scene :=
  fold_left react inputs sceneInit.

(** The modes the overlay can select, and what the overlay keeps true of
    the focus. *)
Definition selectable (viewMode : ViewMode) : bool :=
  match viewMode with
  | EARTH_FREE | SOLAR_SYSTEM | EARTH_DAY | EARTH_NIGHT => true
  | SYSTEM_TOP | SYSTEM_AUTO => false
  end.

Definition focusInvariant (w : Scene) : Prop :=
  selectable (sceneViewMode w) = true
  /\ (sceneFocus w = None
      \/ (sceneViewMode w = SOLAR_SYSTEM
          /\ exists p, sceneFocus w = Some p /\ In p PLANET_SELECTOR)).

(** The box the cinematic sweep runs in: x within 350 of [-FOCAL_OFFSET], y
    within 40 of 100, z within 350 of 0. *)
Definition inSweepBox (p : Vec3) : Prop :=
  - FOCAL_OFFSET - 350 <= Vector3.x p <= - FOCAL_OFFSET + 350
  /\ 100 - 40 <= Vector3.y p <= 100 + 40
  /\ - 350 <= Vector3.z p <= 350.

(** The cloud mesh is a child of the Earth group, and both are turned about
    their y axis only: in the scene the clouds are turned about Earth's axis
    by the angle of the group plus their own. *)
Definition cloudsSceneRotationY (s : SystemState) : R :=
  earthRotationY s + cloudsRotationY s.

(** What every event keeps true of the integrated angles: the Earth group,
    the clouds and the Moon have turned in fixed proportion to the orbit
    angle, and Earth sits where the orbit angle puts it. *)
Definition lockStep (w : Scene) : Prop :=
  moonOrbitRotationY (sceneMoon w)
  = 13.03571428571429 * orbitAngle (sceneSystem w)
  /\ earthRotationY (sceneSystem w) = 3.75 * orbitAngle (sceneSystem w)
  /\ cloudsRotationY (sceneSystem w) = 1.0625 * earthRotationY (sceneSystem w)
  /\ cloudsSceneRotationY (sceneSystem w) = 2.0625 * earthRotationY (sceneSystem w)
  /\ earthContainerPosition (sceneSystem w) = earthPosition (orbitAngle (sceneSystem w))
  /\ prevEarthPos (sceneSystem w) = earthContainerPosition (sceneSystem w).

(* ================================================================== *)
(** * Fragment shaders: colours *)
(* ================================================================== *)

(** GLSL arithmetic on [vec3] values, which are carried by [Vec3]: the
    operators act on each component. *)
Module GlslVec.

Definition scale (v : Vec3) (k : R) : Vec3 := Vector3.multiplyScalar v k.

Definition mul (a b : Vec3) : Vec3 :=
  Vector3.mk (Vector3.x a * Vector3.x b) (Vector3.y a * Vector3.y b)
             (Vector3.z a * Vector3.z b).

Definition subScalar (v : Vec3) (k : R) : Vec3 :=
  Vector3.mk (Vector3.x v - k) (Vector3.y v - k) (Vector3.z v - k).

(** [max(v, k)] with a scalar second argument. *)
Definition maxScalar (v : Vec3) (k : R) : Vec3 :=
  Vector3.mk (Rmax (Vector3.x v) k) (Rmax (Vector3.y v) k) (Rmax (Vector3.z v) k).

(** [mix(x, y, a) = x * (1 - a) + y * a]. *)
Definition mix1 (x y a : R) : R := x * (1 - a) + y * a.

Definition mix (x y : Vec3) (a : R) : Vec3 :=
  Vector3.mk (mix1 (Vector3.x x) (Vector3.x y) a)
             (mix1 (Vector3.y x) (Vector3.y y) a)
             (mix1 (Vector3.z x) (Vector3.z y) a).

(** Componentwise order, for statements about brightness. *)
Definition le (a b : Vec3) : Prop :=
  Vector3.x a <= Vector3.x b /\ Vector3.y a <= Vector3.y b
  /\ Vector3.z a <= Vector3.z b.

End GlslVec.

(** moonFragmentShader: the rgb of [gl_FragColor] from the texel and the dot
    product of the normalised normal and sun direction. *)
Definition moonFragmentShader (texColor : Vec3) (dotProd : R) : Vec3 :=
  let dayFactor := Glsl.smoothstep (-0.02) 0.02 dotProd in
  let diffuse := Rmax dotProd 0.0 in
  let dayColor := GlslVec.scale texColor (diffuse + 0.1) in
  let nightColor := GlslVec.scale texColor 0.02 in
  let finalColor := GlslVec.mix nightColor dayColor dayFactor in
  finalColor.

(** earthFragmentShader, the sunset term:
    [vec3(0.9, 0.4, 0.1) * sunsetIntensity * 0.6 * (1.0 - specularStrength)]. *)
Definition earthSunsetColor (specularStrength dotProd : R) : Vec3 :=
  let sunsetIntensity := 1.0 - Glsl.smoothstep 0.0 0.25 (Rabs dotProd) in
  GlslVec.scale
    (GlslVec.scale (GlslVec.scale (Vector3.mk 0.9 0.4 0.1) sunsetIntensity) 0.6)
    (1.0 - specularStrength).

(** earthFragmentShader: the rgb of [gl_FragColor] from the three texels, the
    dot product of normal and sun direction and the dot product of normal
    and half vector ([pow(NdotH, 80.0)] is the 80th power of a number that is
    not negative). *)
Definition earthFragmentShader (dayColor nightColorSample : Vec3)
    (specularStrength dotProd normalDotHalf : R) : Vec3 :=
  let dayFactor := Glsl.smoothstep (-0.2) 0.2 dotProd in
  let diffuse := Rmax dotProd 0.0 in
  let NdotH := Rmax normalDotHalf 0.0 in
  let specular := NdotH ^ 80 * specularStrength in
  let specularColor :=
    GlslVec.scale (GlslVec.scale (Vector3.mk 1.0 0.95 0.8) specular) 0.8 in
  let finalDay := Vector3.add (GlslVec.scale dayColor (diffuse + 0.1)) specularColor in
  let cleanNight := GlslVec.maxScalar (GlslVec.subScalar nightColorSample 0.2) 0.0 in
  let finalNight := GlslVec.mul cleanNight (Vector3.mk 6.0 4.5 3.0) in
  let sunsetColor := earthSunsetColor specularStrength dotProd in
  let finalColor := GlslVec.mix finalNight finalDay dayFactor in
  Vector3.add finalColor sunsetColor.

(** An rgba value. *)
Record Vec4 : Type := mkVec4 { red : R; green : R; blue : R; alpha : R }.

(** atmosphereFragmentShader:
    [vec4(atmosphereColor, 1.0) * intensity * 0.15] with
    [intensity = pow(clamp(1.0 + viewDot, 0.0, 1.0), 4.0)]. *)
Definition atmosphereFragmentShader (vNormal : Vec3) : Vec4 :=
  let viewDot := Vector3.dot vNormal (Vector3.mk 0 0 1.0) in
  let intensity := Glsl.clamp (1.0 + viewDot) 0.0 1.0 ^ 4 in
  mkVec4 (0.3 * intensity * 0.15) (0.6 * intensity * 0.15)
         (1.0 * intensity * 0.15) (1.0 * intensity * 0.15).

(* ================================================================== *)
(** * ParallaxStars and the Moon's place in the scene *)
(* ================================================================== *)

(** The position of one star from the three [Math.random()] values drawn
    for it, each in [0, 1). *)
Definition starPosition (u1 u2 u3 : R) : Vec3 :=
  let r := 800 + u1 * 3700 in
  let theta := 2 * PI * u2 in
  let phi := acos (2 * u3 - 1) in
  Vector3.mk (r * sin phi * cos theta) (r * sin phi * sin theta) (r * cos phi).

(** The radius of the sphere that carries the Milky Way texture. *)
Definition BACKDROP_RADIUS : R := 4800.

(** The rotation matrix three.js builds from an Euler triple in its default
    order XYZ, applied to a vector. *)
Definition applyEulerXYZ (ex ey ez : R) (v : Vec3) : Vec3 :=
  let a := cos ex in let b := sin ex in
  let c := cos ey in let d := sin ey in
  let e := cos ez in let f := sin ez in
  let ae := a * e in let af := a * f in
  let be := b * e in let bf := b * f in
  Vector3.mk
    (c * e * Vector3.x v + - c * f * Vector3.y v + d * Vector3.z v)
    ((af + be * d) * Vector3.x v + (ae - bf * d) * Vector3.y v
     + - b * c * Vector3.z v)
    ((bf - ae * d) * Vector3.x v + (be + af * d) * Vector3.y v
     + a * c * Vector3.z v).

(** Where the Moon's mesh is in the world: the inner group stands at
    (MOON_DISTANCE, 0, 0) in the orbit group, whose rotation is
    (0, rotation.y, 5 degrees) and which hangs, unmoved, in the Earth
    container. *)
Definition moonWorldPosition (earthContainerPos : Vec3) (m : MoonState) : Vec3 :=
  Vector3.add earthContainerPos
    (applyEulerXYZ 0 (moonOrbitRotationY m) (5 * (PI / 180))
       (Vector3.mk MOON_DISTANCE 0 0)).

(* ================================================================== *)
(** * KaamosViewer: the quiz topic *)
(* ================================================================== *)

(** The [topic] prop KaamosViewer hands to its QuizModule. *)
Definition kaamosQuizTopic (lat monthIndex : R) : string :=
  ("The phenomenon of "
   ++ (if isKaamos (getSunlightHours lat monthIndex)
       then "Kaamos and polar night" else "Midnight Sun")
   ++ " in Finland")%string.

(* ================================================================== *)
(** * QuizModule *)
(* ================================================================== *)

Module QuizModule.

(** The six pieces of React state. *)
Record State : Type := mkState {
  questions : list QuizQuestion;
  currentIndex : nat;
  selectedOption : option nat;
  isAnswered : bool;
  loading : bool;
  score : nat
}.

Definition initial : State := mkState [] 0 None false true 0.

(** [setQuestions(data); setLoading(false)] once the promise of
    [generateQuizQuestions(topic)] has settled; [None] where the value is not
    an array or the promise is rejected. *)
Definition receive (p : Promise (option (list QuizQuestion))) (s : State)
    : option State :=
  match p with
  | Resolved (Some data) =>
      Some (mkState data (currentIndex s) (selectedOption s) (isAnswered s) false
                    (score s))
  | _ => None
  end.

(** The effect on [topic]: [setLoading(true)], then the fetch. *)
Definition fetchQuestions (topic : string) (s : State) : option State :=
  receive (generateQuizQuestions topic 3)
          (mkState (questions s) (currentIndex s) (selectedOption s) (isAnswered s)
                   true (score s)).

(** [handleOptionClick]; [None] stands for the TypeError of reading
    [correctAnswerIndex] off a question that is not there. *)
Definition handleOptionClick (index : nat) (s : State) : option State :=
  if isAnswered s then Some s
  else
    match nth_error (questions s) (currentIndex s) with
    | Some q =>
        Some (mkState (questions s) (currentIndex s) (Some index) true (loading s)
                      (if Nat.eqb index (correctAnswerIndex q)
                       then score s + 1 else score s))
    | None => None
    end.

(** [nextQuestion] (no caller passes [onComplete]); on the last question the
    state is reset and the questions are fetched again. *)
Definition nextQuestion (topic : string) (s : State) : option State :=
  if (currentIndex s + 1 <? length (questions s))%nat then
    Some (mkState (questions s) (currentIndex s + 1) None false (loading s) (score s))
  else
    receive (generateQuizQuestions topic 3)
            (mkState (questions s) 0 None false true 0).

(** What the component renders: the spinner, the failure line, or a question
    with its option buttons; [None] where [questions[currentIndex]] is not
    there and rendering throws. *)
Inductive View : Type :=
| Spinner
| FailedToLoad
| Challenge (currentQ : QuizQuestion).

Definition render (s : State) : option View :=
  if loading s then Some Spinner
  else if Nat.eqb (length (questions s)) 0 then Some FailedToLoad
  else option_map Challenge (nth_error (questions s) (currentIndex s)).

(** What a user can do: press option button [idx], press Next Challenge, or
    have the parent change the topic. *)
Inductive Action : Type :=
| PressOption (idx : nat)
| PressNext
| ChangeTopic (topic : string).

(** An option button exists for each option of the question shown and is
    disabled once answered; the Next button exists once answered. *)
Definition optionEnabled (s : State) (idx : nat) : bool :=
  match render s with
  | Some (Challenge currentQ) =>
      (idx <? length (options currentQ))%nat && negb (isAnswered s)
  | _ => false
  end.

Definition nextShown (s : State) : bool :=
  match render s with
  | Some (Challenge _) => isAnswered s
  | _ => false
  end.

Definition act (ts : string * State) (a : Action) : option (string * State) :=
  let '(topic, s) := ts in
  match a with
  | PressOption idx =>
      if optionEnabled s idx
      then option_map (pair topic) (handleOptionClick idx s)
      else Some ts
  | PressNext =>
      if nextShown s then option_map (pair topic) (nextQuestion topic s) else Some ts
  | ChangeTopic topic1 => option_map (pair topic1) (fetchQuestions topic1 s)
  end.

Fixpoint play (ts : string * State) (actions : list Action)
    : option (string * State) :=
  match actions with
  | [] => Some ts
  | a :: rest =>
      match act ts a with
      | Some ts1 => play ts1 rest
      | None => None
      end
  end.

(** The component once mounted with a topic. *)
Definition mount (topic : string) : option (string * State) :=
  option_map (pair topic) (fetchQuestions topic initial).

(** Answering every question of a list with its correct option, pressing
    Next after each but the last. *)
Fixpoint answerAll (qs : list QuizQuestion) : list Action :=
  match qs with
  | [] => []
  | [q] => [PressOption (correctAnswerIndex q)]
  | q :: rest => PressOption (correctAnswerIndex q) :: PressNext :: answerAll rest
  end.

(** What holds of the state between actions. *)
Definition wellFormed (s : State) : Prop :=
  loading s = false
  /\ length (questions s) = 3%nat
  /\ (currentIndex s < 3)%nat
  /\ (score s <= currentIndex s + (if isAnswered s then 1 else 0))%nat.

End QuizModule.

(* ================================================================== *)
(** * OrbitCommand *)
(* ================================================================== *)

Inductive GameMode : Type := SOLO | GROUP.

(** The field [question] of the source is [commandQuestion] here, the name
    being taken by QuizQuestion. *)
Record AstroCommand : Type := mkCommand {
  role : string;
  action : string;
  commandQuestion : string;
  answer : string
}.

Definition COMMAND_DATA : list AstroCommand :=
  [ mkCommand "Earth"
      "Tilt your upper body to the right. Keep this tilt and walk in a circle around the 'Sun'."
      "When your tilt points towards the Sun, what season is it in the North?"
      "Summer";
    mkCommand "Sun"
      "Stand still. Shine your 'light' (arms) directly at Earth's waist (Equator)."
      "Where is the sunlight hitting most directly?"
      "The Equator";
    mkCommand "Earth"
      "Spin around (rotate) while moving slowly along your orbit path."
      "You are doing two motions. What do they represent?"
      "Rotation (Day) and Revolution (Year)";
    mkCommand "Observer"
      "Stand in 'Finland' (Top of Earth). Look at the Sun when Earth is tilted away."
      "Does the Sun look high or low in the sky?"
      "Low" ]%string.

Definition generateAstroCommands (topic : string) : Promise (list AstroCommand) :=
  Resolved COMMAND_DATA.

Module OrbitCommand.

Record State : Type := mkState {
  commands : list AstroCommand;
  loading : bool;
  currentIndex : nat
}.

Definition initial : State := mkState [] false 0.

(** [fetchCommands], run to its end; [None] if the promise were rejected. *)
Definition fetchCommands (s : State) : option State :=
  match generateAstroCommands "Earth's orbit, revolution, and seasons" with
  | Resolved data => Some (mkState data false 0)
  | Rejected _ => None
  end.

(** The effect on [mode]: the commands are fetched in GROUP only. *)
Definition mount (mode : GameMode) : option State :=
  match mode with
  | GROUP => fetchCommands initial
  | SOLO => Some initial
  end.

(** The Next Order button is on screen when a command is: not loading and
    [commands.length > 0]; it sets the index to
    [(prev + 1) % commands.length]. *)
Definition nextOrder (s : State) : State :=
  if negb (loading s) && (0 <? length (commands s))%nat
  then mkState (commands s) (loading s)
               ((currentIndex s + 1) mod length (commands s))
  else s.

End OrbitCommand.

(* ================================================================== *)
(** * App: navigation *)
(* ================================================================== *)

Inductive AppView : Type := DASHBOARD | ACTIVITY.

Inductive ActivityId : Type :=
| ORBIT_REVOLUTION
| SEASONS
| SUNLIGHT_INTENSITY
| KAAMOS_MIDNIGHT
| SHADOWS.

Module App.

Record State : Type := mkState {
  currentView : AppView;
  activeActivityId : option ActivityId;
  gameMode : option GameMode
}.

Definition initial : State := mkState DASHBOARD None None.

Definition handleSelectActivity (id : ActivityId) (s : State) : State :=
  mkState ACTIVITY (Some id) None.

Definition handleBack (s : State) : State := mkState DASHBOARD None None.

Definition setGameMode (m : GameMode) (s : State) : State :=
  mkState (currentView s) (activeActivityId s) (Some m).

(** What the main area shows. *)
Inductive Content : Type :=
| DashboardScreen
| SelectProtocol
| OrbitCommandScreen (mode : GameMode)
| KaamosViewerScreen (mode : GameMode)
| ShadowLabScreen (mode : GameMode)
| SeasonsScreen (mode : GameMode)
| SunlightIntensityScreen
| UnderConstruction.

Definition renderContent (s : State) : Content :=
  match gameMode s with
  | None => SelectProtocol
  | Some mode =>
      match activeActivityId s with
      | Some ORBIT_REVOLUTION => OrbitCommandScreen mode
      | Some KAAMOS_MIDNIGHT => KaamosViewerScreen mode
      | Some SHADOWS => ShadowLabScreen mode
      | Some SEASONS => SeasonsScreen mode
      | Some SUNLIGHT_INTENSITY => SunlightIntensityScreen
      | None => UnderConstruction
      end
  end.

Definition render (s : State) : Content :=
  match currentView s with
  | DASHBOARD => DashboardScreen
  | ACTIVITY => renderContent s
  end.

(** The ids of the cards on the dashboard, in order. *)
Definition activities : list ActivityId :=
  [ORBIT_REVOLUTION; SEASONS; KAAMOS_MIDNIGHT; SHADOWS; SUNLIGHT_INTENSITY].

(** What a user can press: a card on the dashboard, the back arrow of the
    header (shown in the ACTIVITY view), one of the two protocol buttons
    (shown while no mode is chosen). *)
Inductive Press : Type :=
| Card (id : ActivityId)
| Back
| Protocol (m : GameMode).

Definition ActivityId_eqb (a b : ActivityId) : bool :=
  match a, b with
  | ORBIT_REVOLUTION, ORBIT_REVOLUTION
  | SEASONS, SEASONS
  | SUNLIGHT_INTENSITY, SUNLIGHT_INTENSITY
  | KAAMOS_MIDNIGHT, KAAMOS_MIDNIGHT
  | SHADOWS, SHADOWS => true
  | _, _ => false
  end.

Definition press (s : State) (p : Press) : State :=
  match p, render s with
  | Card id, DashboardScreen =>
      if existsb (ActivityId_eqb id) activities then handleSelectActivity id s else s
  | Back, DashboardScreen => s
  | Back, _ => handleBack s
  | Protocol m, SelectProtocol => setGameMode m s
  | _, _ => s
  end.

Definition navigate (ps : list Press) : State := fold_left press ps initial.

(** The [topic] of the QuizModule a screen contains, where it has one with a
    fixed topic. *)
Definition quizTopic (c : Content) : option string :=
  match c with
  | OrbitCommandScreen SOLO => Some "Earth's revolution around the sun and orbit"
  | ShadowLabScreen _ => Some "Sun shadows and angle of incidence physics"
  | SeasonsScreen _ => Some "Earth seasons axial tilt and solstices"
  | SunlightIntensityScreen => Some "Sunlight intensity and angle of incidence"
  | _ => None
  end%string.

End App.

(* ================================================================== *)
(** * Vector facts *)
(* ================================================================== *)

Lemma Vector3_ext (a b : Vec3) :
  Vector3.x a = Vector3.x b -> Vector3.y a = Vector3.y b ->
  Vector3.z a = Vector3.z b -> a = b.
Proof.
  destruct a, b; simpl; intros; subst; reflexivity.
Qed.

Lemma Vector3_setLength_length (a : Vec3) :
  Vector3.length a <> 0 -> Vector3.setLength a (Vector3.length a) = a.
Proof.
  intros Hne.
  unfold Vector3.setLength, Vector3.normalize, Vector3.divideScalar,
    Vector3.multiplyScalar.
  destruct (Req_dec_T (Vector3.length a) 0) as [E | _]; [contradiction|].
  destruct a as [ax ay az]; simpl in *.
  apply Vector3_ext; simpl; field; exact Hne.
Qed.

(* ================================================================== *)
(** * The planets: kinematics against focus tracking *)
(* ================================================================== *)

Section Planets.

Variable config : PlanetConfig.

Lemma PlanetMesh_useFrame_y (f : Frame) (p : PlanetState) :
  Vector3.y (planetPosition (PlanetMesh_useFrame config f p))
  = Vector3.y (planetPosition p).
Proof. reflexivity. Qed.

Lemma PlanetMesh_run_y (fs : list Frame) :
  forall p, Vector3.y (planetPosition (PlanetMesh_run config fs p))
            = Vector3.y (planetPosition p).
Proof.
  unfold PlanetMesh_run.
  induction fs as [| f fs IH]; intros p; simpl.
  - reflexivity.
  - rewrite IH. apply PlanetMesh_useFrame_y.
Qed.

Lemma PlanetMesh_rotation_step (f : Frame) (p : PlanetState) :
  planetRotationY (PlanetMesh_useFrame config f p)
  = planetRotationY p + rotationSpeed config * delta f.
Proof. reflexivity. Qed.

End Planets.

(** The name lookup of the focus tracker returns the very entry a PlanetMesh
    was created from. *)
Lemma find_planet_by_name (config : PlanetConfig) :
  In config PLANETS ->
  find (fun p => String.eqb (name p) (name config)) PLANETS = Some config
  /\ String.eqb (name config) "Earth" = false.
Proof.
  unfold PLANETS. simpl.
  intros [<- | [<- | [<- | [<- | [<- | [<- | [<- | []]]]]]]];
    split; reflexivity.
Qed.

(** C1.  For every planet of PLANETS (every planet other than Earth), after
    any earlier frames, the position the PlanetMesh frame callback gives its
    orbit group at elapsed time [t] is the position the focus tracker of the
    camera controller recomputes for the planet of that name at the same
    [t] (and the tracker picks that planet's radius). *)
Theorem planet_position_matches_focus_tracking :
  forall (config : PlanetConfig) (earlier : list Frame) (f : Frame)
         (currentEarthPos : Vec3),
    In config PLANETS ->
    focusTarget (name config) currentEarthPos (elapsedTime f)
    = Some (planetPosition
              (PlanetMesh_useFrame config f
                 (PlanetMesh_run config earlier planetInit)),
            radius config).
Proof.
  intros config earlier f earthPos Hin.
  destruct (find_planet_by_name config Hin) as [Hfind Hearth].
  unfold focusTarget. rewrite Hearth, Hfind.
  unfold PlanetMesh_useFrame. cbn [planetPosition].
  rewrite PlanetMesh_run_y. reflexivity.
Qed.

Lemma planet_position_matches_focus_tracking_witness :
  In Venus PLANETS
  /\ focusTarget "Venus" (earthPosition 0) 12.5
     = Some (planetPosition
               (PlanetMesh_useFrame Venus (mkFrame 12.5 0.016)
                  (PlanetMesh_run Venus [mkFrame 12.484 0.016] planetInit)),
             radius Venus).
Proof.
  assert (Hin : In Venus PLANETS) by (simpl; auto).
  split; [exact Hin |].
  exact (planet_position_matches_focus_tracking
           Venus [mkFrame 12.484 0.016] (mkFrame 12.5 0.016) (earthPosition 0) Hin).
Defined.

(* ================================================================== *)
(** * The clamped frame delta *)
(* ================================================================== *)

(** A field of the state after a frame that does not depend on which camera
    branch ran. *)
Ltac frame_field :=
  unfold HeliocentricSystem_useFrame;
  repeat match goal with
         | |- context [let '(_, _) := ?e in _] => destruct e
         end;
  reflexivity.

Section ClampedDelta.

Variables (viewMode : ViewMode) (focusedPlanet : option string).
Variable f : Frame.

Lemma safeDelta_le_cap : Rmin (delta f) MAX_STEP <= MAX_STEP.
Proof. apply Rmin_r. Qed.

Lemma safeDelta_capped : MAX_STEP < delta f -> Rmin (delta f) MAX_STEP = MAX_STEP.
Proof. intros H. apply Rmin_right. lra. Qed.

Lemma useFrame_orbitAngle (s : SystemState) :
  orbitAngle (HeliocentricSystem_useFrame viewMode focusedPlanet f s)
  = orbitAngle s + Rmin (delta f) MAX_STEP * EARTH_YEAR_SPEED.
Proof. frame_field. Qed.

Lemma useFrame_earthRotationY (s : SystemState) :
  earthRotationY (HeliocentricSystem_useFrame viewMode focusedPlanet f s)
  = earthRotationY s + Rmin (delta f) MAX_STEP * EARTH_ROTATION_SPEED.
Proof. frame_field. Qed.

Lemma useFrame_cloudsRotationY (s : SystemState) :
  cloudsRotationY (HeliocentricSystem_useFrame viewMode focusedPlanet f s)
  = cloudsRotationY s + Rmin (delta f) MAX_STEP * (EARTH_ROTATION_SPEED * 1.0625).
Proof. frame_field. Qed.

Lemma useFrame_earthPosition (s : SystemState) :
  earthContainerPosition (HeliocentricSystem_useFrame viewMode focusedPlanet f s)
  = earthPosition (orbitAngle s + Rmin (delta f) MAX_STEP * EARTH_YEAR_SPEED).
Proof. frame_field. Qed.

Lemma useFrame_lock (s : SystemState) :
  isTransitioning (HeliocentricSystem_useFrame viewMode focusedPlanet f s)
  = isTransitioning s
  /\ pendingTimeout (HeliocentricSystem_useFrame viewMode focusedPlanet f s)
     = pendingTimeout s.
Proof. split; frame_field. Qed.

Lemma MoonMesh_useFrame_rotation (m : MoonState) :
  moonOrbitRotationY (MoonMesh_useFrame f m)
  = moonOrbitRotationY m + Rmin (delta f) MAX_STEP * MOON_ORBIT_SPEED.
Proof. reflexivity. Qed.

End ClampedDelta.

(** The frame callback of the OrbitControls touches the camera only. *)
Lemma OrbitControls_useFrame_motion (viewMode : ViewMode)
    (focusedPlanet : option string) (s : SystemState) :
  let s1 := OrbitControls_useFrame viewMode focusedPlanet s in
  orbitAngle s1 = orbitAngle s
  /\ prevEarthPos s1 = prevEarthPos s
  /\ isTransitioning s1 = isTransitioning s
  /\ earthContainerPosition s1 = earthContainerPosition s
  /\ earthRotationY s1 = earthRotationY s
  /\ cloudsRotationY s1 = cloudsRotationY s
  /\ controls s1 = controls s
  /\ pendingTimeout s1 = pendingTimeout s.
Proof.
  unfold OrbitControls_useFrame.
  destruct (controls s) as [target |] eqn:E; cbn; rewrite ?E; repeat split.
Qed.

(** C2, as the code has it.  One rendered frame with raw delta [d] advances
    Earth's orbit angle, Earth's rotation, the cloud rotation and the Moon's
    orbit rotation each by [min(d, 0.05)] times its own speed, all from the
    same clamped value, so the Moon's advance is 13.03571428571429 times
    Earth's orbital one; when [d] exceeds the cap the orbit angle advances by
    the cap times the speed, which is not what the raw delta would give.  The
    other planets are not driven by the clamped value: their spin advances by
    [rotationSpeed * d] with the raw delta. *)
Theorem clamped_delta_drives_earth_and_moon :
  forall (f : Frame) (w : Scene),
    let clamped := Rmin (delta f) MAX_STEP in
    let w1 := renderFrame f w in
    advance orbitAngle (sceneSystem w) (sceneSystem w1) = clamped * EARTH_YEAR_SPEED
    /\ advance earthRotationY (sceneSystem w) (sceneSystem w1)
       = clamped * EARTH_ROTATION_SPEED
    /\ advance cloudsRotationY (sceneSystem w) (sceneSystem w1)
       = clamped * (EARTH_ROTATION_SPEED * 1.0625)
    /\ advance moonOrbitRotationY (sceneMoon w) (sceneMoon w1)
       = clamped * MOON_ORBIT_SPEED
    /\ advance moonOrbitRotationY (sceneMoon w) (sceneMoon w1)
       = 13.03571428571429 * advance orbitAngle (sceneSystem w) (sceneSystem w1)
    /\ clamped <= MAX_STEP
    /\ (MAX_STEP < delta f ->
        clamped = MAX_STEP
        /\ advance orbitAngle (sceneSystem w) (sceneSystem w1)
           = MAX_STEP * EARTH_YEAR_SPEED
        /\ advance orbitAngle (sceneSystem w) (sceneSystem w1)
           <> delta f * EARTH_YEAR_SPEED)
    /\ (forall (config : PlanetConfig) (p : PlanetState),
          advance planetRotationY p (PlanetMesh_useFrame config f p)
          = rotationSpeed config * delta f).
Proof.
  intros f w clamped w1. subst w1. unfold renderFrame, advance. cbn [sceneSystem sceneMoon].
  rewrite useFrame_orbitAngle, useFrame_earthRotationY, useFrame_cloudsRotationY,
    MoonMesh_useFrame_rotation.
  destruct (OrbitControls_useFrame_motion (sceneViewMode w) (sceneFocus w)
              (sceneSystem w)) as (-> & _ & _ & _ & -> & -> & _).
  fold clamped.
  assert (Hcap : clamped <= MAX_STEP) by apply safeDelta_le_cap.
  repeat split; try ring; try exact Hcap.
  - unfold MOON_ORBIT_SPEED. ring.
  - apply safeDelta_capped; assumption.
  - unfold clamped. rewrite safeDelta_capped by assumption. ring.
  - unfold clamped. rewrite safeDelta_capped by assumption.
    unfold MAX_STEP, EARTH_YEAR_SPEED, BASE_ORBIT_SPEED in *. lra.
  - intros config p. rewrite PlanetMesh_rotation_step. ring.
Qed.

Lemma clamped_delta_drives_earth_and_moon_witness :
  MAX_STEP < delta (mkFrame 10 2)
  /\ advance orbitAngle (sceneSystem sceneInit)
       (sceneSystem (renderFrame (mkFrame 10 2) sceneInit))
     = MAX_STEP * EARTH_YEAR_SPEED.
Proof.
  assert (H : MAX_STEP < delta (mkFrame 10 2)) by (unfold MAX_STEP; simpl; lra).
  split; [exact H |].
  pose proof (clamped_delta_drives_earth_and_moon (mkFrame 10 2) sceneInit) as T.
  cbv zeta in T.
  destruct T as (_ & _ & _ & _ & _ & _ & Tcap & _).
  exact (proj1 (proj2 (Tcap H))).
Defined.

(** C2 as written fails for the bodies of PLANETS: in a frame whose raw
    delta is 1, Venus's spin advances by its rotation speed times 1, not
    times the clamped [min(1, 0.05)]. *)
Lemma clamped_delta_not_used_by_planets :
  advance planetRotationY planetInit
    (PlanetMesh_useFrame Venus (mkFrame 1 1) planetInit)
  <> Rmin (delta (mkFrame 1 1)) MAX_STEP * rotationSpeed Venus.
Proof.
  unfold advance. rewrite PlanetMesh_rotation_step.
  cbn [delta planetRotationY planetInit rotationSpeed Venus].
  rewrite Rmin_right by (unfold MAX_STEP; lra).
  unfold MAX_STEP, BASE_ROTATION_SPEED. lra.
Qed.

(* ================================================================== *)
(** * Earth's orbit *)
(* ================================================================== *)

Lemma earthPosition_onEllipse (angle : R) : onEarthEllipse (earthPosition angle).
Proof.
  unfold onEarthEllipse, earthPosition. cbn [Vector3.x Vector3.y Vector3.z].
  split; [| reflexivity].
  unfold FOCAL_OFFSET, SEMI_MAJOR_AXIS, SEMI_MINOR_AXIS.
  replace ((-80 + 250 * cos angle - - 80) / 250) with (cos angle) by field.
  replace (215 * sin angle / 215) with (sin angle) by field.
  pose proof (sin2_cos2 angle) as H. unfold Rsqr in H.
  simpl. lra.
Qed.

Section EarthOrbit.

Variables (viewMode : ViewMode) (focusedPlanet : option string).

Lemma trace_positions_onEllipse (fs : list Frame) :
  forall s,
    Forall (fun s1 => onEarthEllipse (earthContainerPosition s1))
           (HeliocentricSystem_trace viewMode focusedPlanet fs s).
Proof.
  induction fs as [| f fs IH]; intros s; simpl.
  - constructor.
  - constructor.
    + rewrite useFrame_earthPosition. apply earthPosition_onEllipse.
    + apply IH.
Qed.

(** With non-negative deltas no later angle is below an earlier one. *)
Lemma trace_angles_bounded_below (fs : list Frame) :
  forall s,
    Forall (fun f => 0 <= delta f) fs ->
    Forall (fun s1 => orbitAngle s <= orbitAngle s1)
           (HeliocentricSystem_trace viewMode focusedPlanet fs s).
Proof.
  induction fs as [| f fs IH]; intros s Hpos; simpl.
  - constructor.
  - inversion Hpos as [| ? ? Hf Hrest]; subst.
    assert (Hstep : orbitAngle s
                    <= orbitAngle (HeliocentricSystem_useFrame viewMode focusedPlanet f s)).
    { rewrite useFrame_orbitAngle.
      assert (0 <= Rmin (delta f) MAX_STEP)
        by (apply Rmin_glb; [exact Hf | unfold MAX_STEP; lra]).
      unfold EARTH_YEAR_SPEED, BASE_ORBIT_SPEED. nra. }
    constructor; [exact Hstep |].
    eapply Forall_impl; [| apply IH; exact Hrest].
    intros s1 H1. simpl in H1. lra.
Qed.

Lemma trace_angles_sorted (fs : list Frame) :
  forall s,
    Forall (fun f => 0 <= delta f) fs ->
    StronglySorted Rle
      (orbitAngle s
       :: map orbitAngle (HeliocentricSystem_trace viewMode focusedPlanet fs s)).
Proof.
  induction fs as [| f fs IH]; intros s Hpos.
  - simpl. constructor; constructor.
  - constructor.
    + simpl. inversion Hpos; subst. apply IH. assumption.
    + apply Forall_map. apply trace_angles_bounded_below. exact Hpos.
Qed.

End EarthOrbit.

(** C3.  Over every sequence of frames whose raw deltas are positive and
    below the cap, started from any state, Earth's integrated orbit angle
    never decreases (the angles before and after each frame are sorted), and
    the position computed in every frame satisfies
    ((x - centerOffset)/a)^2 + (z/b)^2 = 1 with centerOffset = -FOCAL_OFFSET,
    a = SEMI_MAJOR_AXIS and b = SEMI_MINOR_AXIS, on the plane y = 0. *)
Theorem earth_angle_monotone_and_on_ellipse :
  forall (viewMode : ViewMode) (focusedPlanet : option string)
         (fs : list Frame) (s : SystemState),
    Forall (fun f => 0 < delta f < MAX_STEP) fs ->
    StronglySorted Rle
      (orbitAngle s
       :: map orbitAngle (HeliocentricSystem_trace viewMode focusedPlanet fs s))
    /\ Forall (fun s1 => onEarthEllipse (earthContainerPosition s1))
              (HeliocentricSystem_trace viewMode focusedPlanet fs s).
Proof.
  intros viewMode focusedPlanet fs s Hfs. split.
  - apply trace_angles_sorted.
    eapply Forall_impl; [| exact Hfs]. intros f H. simpl in H. lra.
  - apply trace_positions_onEllipse.
Qed.

Lemma earth_angle_monotone_and_on_ellipse_witness :
  let fs := [mkFrame 0.016 0.016; mkFrame 0.049 0.033] in
  let s := sceneSystem sceneInit in
  Forall (fun f => 0 < delta f < MAX_STEP) fs
  /\ StronglySorted Rle
       (orbitAngle s :: map orbitAngle (HeliocentricSystem_trace EARTH_FREE None fs s))
  /\ Forall (fun s1 => onEarthEllipse (earthContainerPosition s1))
            (HeliocentricSystem_trace EARTH_FREE None fs s).
Proof.
  intros fs s.
  assert (H : Forall (fun f => 0 < delta f < MAX_STEP) fs).
  { subst fs. repeat constructor; unfold MAX_STEP; simpl; lra. }
  split; [exact H |].
  exact (earth_angle_monotone_and_on_ellipse EARTH_FREE None fs s H).
Defined.

(* ================================================================== *)
(** * The day/night factor *)
(* ================================================================== *)

(** A function that moves no faster than [K] times its argument is
    continuous. *)
Lemma lipschitz_continuity (g : R -> R) (K : R) :
  0 < K ->
  (forall a b, Rabs (g a - g b) <= K * Rabs (a - b)) ->
  continuity g.
Proof.
  intros HK Hlip x.
  unfold continuity_pt, continue_in, limit1_in, limit_in.
  intros eps Heps.
  exists (eps / K). split.
  - apply Rdiv_lt_0_compat; assumption.
  - intros a [_ Hd]. simpl in *. unfold Rdist in *.
    eapply Rle_lt_trans; [apply Hlip |].
    apply Rmult_lt_compat_l with (r := K) in Hd; [| exact HK].
    replace (K * (eps / K)) with eps in Hd by (field; lra).
    exact Hd.
Qed.

Section Smoothstep.

Variables edge0 edge1 : R.
Hypothesis edges : edge0 < edge1.

Lemma clamp01_range (r : R) : 0 <= Glsl.clamp r 0 1 <= 1.
Proof.
  unfold Glsl.clamp, Rmin, Rmax.
  repeat destruct Rle_dec; lra.
Qed.

Lemma clamp01_monotone (r1 r2 : R) :
  r1 <= r2 -> Glsl.clamp r1 0 1 <= Glsl.clamp r2 0 1.
Proof.
  unfold Glsl.clamp, Rmin, Rmax. intros H.
  repeat destruct Rle_dec; lra.
Qed.

Lemma clamp01_lipschitz (r1 r2 : R) :
  Rabs (Glsl.clamp r1 0 1 - Glsl.clamp r2 0 1) <= 1 * Rabs (r1 - r2).
Proof.
  unfold Glsl.clamp, Rmin, Rmax, Rabs.
  repeat destruct Rle_dec; repeat destruct Rcase_abs; lra.
Qed.

Lemma clamp01_inside (r : R) : 0 <= r <= 1 -> Glsl.clamp r 0 1 = r.
Proof.
  unfold Glsl.clamp, Rmin, Rmax. intros H.
  repeat destruct Rle_dec; lra.
Qed.

Lemma clamp01_below (r : R) : r <= 0 -> Glsl.clamp r 0 1 = 0.
Proof.
  unfold Glsl.clamp, Rmin, Rmax. intros H.
  repeat destruct Rle_dec; lra.
Qed.

Lemma clamp01_above (r : R) : 1 <= r -> Glsl.clamp r 0 1 = 1.
Proof.
  unfold Glsl.clamp, Rmin, Rmax. intros H.
  repeat destruct Rle_dec; lra.
Qed.

Lemma ratio_monotone (d1 d2 : R) :
  d1 <= d2 -> bandRatio edge0 edge1 d1 <= bandRatio edge0 edge1 d2.
Proof.
  intros H. unfold bandRatio, Rdiv.
  apply Rmult_le_compat_r; [| lra].
  left. apply Rinv_0_lt_compat. lra.
Qed.

Lemma ratio_pos (d : R) : edge0 < d <-> 0 < bandRatio edge0 edge1 d.
Proof.
  unfold bandRatio. split; intros H.
  - apply Rdiv_lt_0_compat; lra.
  - destruct (Rle_or_lt d edge0) as [Hle | Hlt]; [| exact Hlt].
    exfalso.
    assert (0 < / (edge1 - edge0)) by (apply Rinv_0_lt_compat; lra).
    unfold Rdiv in H. nra.
Qed.

Lemma ratio_lt_1 (d : R) : d < edge1 <-> bandRatio edge0 edge1 d < 1.
Proof.
  unfold bandRatio. split; intros H.
  - apply Rmult_lt_reg_r with (edge1 - edge0); [lra |].
    unfold Rdiv. rewrite Rmult_assoc, Rinv_l by lra. lra.
  - destruct (Rle_or_lt edge1 d) as [Hle | Hlt]; [| exact Hlt].
    exfalso.
    assert (Hi : 0 < / (edge1 - edge0)) by (apply Rinv_0_lt_compat; lra).
    assert (E : (edge1 - edge0) * / (edge1 - edge0) = 1) by (apply Rinv_r; lra).
    unfold Rdiv in H. nra.
Qed.

Lemma hermite_monotone (t1 t2 : R) :
  0 <= t1 -> t1 <= t2 -> t2 <= 1 -> hermite t1 <= hermite t2.
Proof.
  intros H0 H12 H1. unfold hermite.
  assert (E : t2 * t2 * (3 - 2 * t2) - t1 * t1 * (3 - 2 * t1)
              = (t2 - t1) * (3 * (t1 + t2) - 2 * (t1 * t1 + t1 * t2 + t2 * t2)))
    by ring.
  assert (0 <= 3 * (t1 + t2) - 2 * (t1 * t1 + t1 * t2 + t2 * t2)) by nra.
  assert (0 <= (t2 - t1) * (3 * (t1 + t2) - 2 * (t1 * t1 + t1 * t2 + t2 * t2)))
    by (apply Rmult_le_pos; lra).
  lra.
Qed.

Lemma hermite_open (t : R) : 0 < t < 1 -> 0 < hermite t < 1.
Proof.
  intros [H0 H1]. unfold hermite. split.
  - apply Rmult_lt_0_compat; [apply Rmult_lt_0_compat |]; lra.
  - assert (E : 1 - t * t * (3 - 2 * t) = (1 - t) * (1 - t) * (1 + 2 * t)) by ring.
    assert (0 < (1 - t) * (1 - t) * (1 + 2 * t))
      by (apply Rmult_lt_0_compat; [apply Rmult_lt_0_compat |]; lra).
    lra.
Qed.

Lemma smoothstep_unfold (d : R) :
  Glsl.smoothstep edge0 edge1 d = hermite (Glsl.clamp (bandRatio edge0 edge1 d) 0 1).
Proof. reflexivity. Qed.

Lemma smoothstep_monotone (d1 d2 : R) :
  d1 <= d2 -> Glsl.smoothstep edge0 edge1 d1 <= Glsl.smoothstep edge0 edge1 d2.
Proof.
  intros H. rewrite !smoothstep_unfold.
  apply hermite_monotone.
  - apply clamp01_range.
  - apply clamp01_monotone, ratio_monotone, H.
  - apply clamp01_range.
Qed.

Lemma smoothstep_below (d : R) : d <= edge0 -> Glsl.smoothstep edge0 edge1 d = 0.
Proof.
  intros H. rewrite smoothstep_unfold, clamp01_below.
  - unfold hermite. ring.
  - destruct (Rle_or_lt (bandRatio edge0 edge1 d) 0) as [Hle | Hlt]; [exact Hle |].
    apply ratio_pos in Hlt. lra.
Qed.

Lemma smoothstep_above (d : R) : edge1 <= d -> Glsl.smoothstep edge0 edge1 d = 1.
Proof.
  intros H. rewrite smoothstep_unfold, clamp01_above.
  - unfold hermite. ring.
  - destruct (Rle_or_lt 1 (bandRatio edge0 edge1 d)) as [Hle | Hlt]; [exact Hle |].
    apply ratio_lt_1 in Hlt. lra.
Qed.

Lemma smoothstep_band (d : R) :
  0 < Glsl.smoothstep edge0 edge1 d < 1 <-> edge0 < d < edge1.
Proof.
  split.
  - intros [H0 H1].
    destruct (Rle_or_lt d edge0) as [Hlo | Hlo].
    { rewrite smoothstep_below in H0 by exact Hlo. lra. }
    destruct (Rle_or_lt edge1 d) as [Hhi | Hhi].
    { rewrite smoothstep_above in H1 by exact Hhi. lra. }
    split; assumption.
  - intros [H0 H1].
    apply ratio_pos in H0. apply ratio_lt_1 in H1.
    rewrite smoothstep_unfold, clamp01_inside by lra.
    apply hermite_open. split; assumption.
Qed.

Lemma smoothstep_continuous : continuity (Glsl.smoothstep edge0 edge1).
Proof.
  change (continuity (comp hermite (comp (fun r => Glsl.clamp r 0 1) (bandRatio edge0 edge1)))).
  apply continuity_comp; [apply continuity_comp |].
  - apply derivable_continuous. unfold bandRatio. reg.
  - apply lipschitz_continuity with (K := 1); [lra |].
    intros a b. apply clamp01_lipschitz.
  - apply derivable_continuous. unfold hermite. reg.
Qed.

End Smoothstep.

Lemma earth_band : -0.2 < 0.2.
Proof. lra. Qed.

Lemma moon_band : -0.02 < 0.02.
Proof. lra. Qed.

(** C4.  In the Earth and in the Moon fragment shader the day factor, as a
    function of the dot product, is continuous on the whole line, never
    decreases, is 0 at and below the lower threshold and 1 at and above the
    upper one.  It lies strictly between 0 and 1 exactly inside the band,
    which is (-0.2, 0.2) for Earth and (-0.02, 0.02) for the Moon; Earth's
    band is strictly wider: wherever the Moon's factor is in transition so is
    Earth's, and at 0.1 and -0.1 Earth's is in transition while the Moon's
    has already reached 1 and 0. *)
Theorem dayFactor_continuous_monotone :
  (continuity earthDayFactor /\ continuity moonDayFactor)
  /\ (forall d1 d2 : R,
        d1 <= d2 ->
        earthDayFactor d1 <= earthDayFactor d2
        /\ moonDayFactor d1 <= moonDayFactor d2)
  /\ (forall d : R,
        (d <= -0.2 -> earthDayFactor d = 0)
        /\ (0.2 <= d -> earthDayFactor d = 1)
        /\ (d <= -0.02 -> moonDayFactor d = 0)
        /\ (0.02 <= d -> moonDayFactor d = 1))
  /\ (forall d : R,
        (0 < earthDayFactor d < 1 <-> -0.2 < d < 0.2)
        /\ (0 < moonDayFactor d < 1 <-> -0.02 < d < 0.02))
  /\ (forall d : R, 0 < moonDayFactor d < 1 -> 0 < earthDayFactor d < 1)
  /\ (0 < earthDayFactor 0.1 < 1 /\ moonDayFactor 0.1 = 1)
  /\ (0 < earthDayFactor (-0.1) < 1 /\ moonDayFactor (-0.1) = 0).
Proof.
  unfold earthDayFactor, moonDayFactor.
  pose proof earth_band as He. pose proof moon_band as Hm.
  split; [split; exact (smoothstep_continuous _ _) |].
  split.
  { intros d1 d2 H.
    split; [exact (smoothstep_monotone _ _ He d1 d2 H)
           | exact (smoothstep_monotone _ _ Hm d1 d2 H)]. }
  split.
  { intros d. repeat apply conj; intros H.
    - exact (smoothstep_below _ _ He d H).
    - exact (smoothstep_above _ _ He d H).
    - exact (smoothstep_below _ _ Hm d H).
    - exact (smoothstep_above _ _ Hm d H). }
  split.
  { intros d.
    split; [exact (smoothstep_band _ _ He d) | exact (smoothstep_band _ _ Hm d)]. }
  split.
  { intros d H. apply (smoothstep_band _ _ Hm d) in H.
    apply (smoothstep_band _ _ He d). lra. }
  split; (split; [apply (smoothstep_band _ _ He); lra |]).
  - apply (smoothstep_above _ _ Hm). lra.
  - apply (smoothstep_below _ _ Hm). lra.
Qed.

Lemma dayFactor_continuous_monotone_witness :
  -0.5 <= 0.01
  /\ earthDayFactor (-0.5) <= earthDayFactor 0.01
  /\ moonDayFactor (-0.5) <= moonDayFactor 0.01
  /\ earthDayFactor (-0.5) = 0
  /\ moonDayFactor 0.5 = 1.
Proof.
  assert (H : -0.5 <= 0.01) by lra.
  destruct dayFactor_continuous_monotone as (_ & Tmono & Tval & _).
  split; [exact H |].
  split; [exact (proj1 (Tmono (-0.5) 0.01 H)) |].
  split; [exact (proj2 (Tmono (-0.5) 0.01 H)) |].
  split.
  - apply (proj1 (Tval (-0.5))). lra.
  - apply (proj2 (proj2 (proj2 (Tval 0.5)))). lra.
Defined.

(* ================================================================== *)
(** * The camera controller *)
(* ================================================================== *)

Lemma Vector3_length_bounds (a : Vec3) (lo hi : R) :
  0 <= lo -> 0 <= hi ->
  lo * lo <= Vector3.dot a a <= hi * hi ->
  lo <= Vector3.length a <= hi.
Proof.
  intros Hlo Hhi [H1 H2]. unfold Vector3.length, Vector3.dot in *.
  split.
  - rewrite <- (sqrt_square lo Hlo). apply sqrt_le_1_alt. exact H1.
  - rewrite <- (sqrt_square hi Hhi). apply sqrt_le_1_alt. exact H2.
Qed.

Lemma distanceTo_as_length (a b : Vec3) :
  Vector3.distanceTo a b = Vector3.length (Vector3.sub a b).
Proof. reflexivity. Qed.

(** The polar angle and [EPS]. *)
Lemma PI_above_3 : 3 < PI.
Proof.
  pose proof PI2_3_2. lra.
Qed.

Lemma cos_EPS_bound : 0.9 < cos Spherical.EPS.
Proof.
  unfold Spherical.EPS.
  replace 0.000001 with (2 * 0.0000005) by lra.
  rewrite cos_2a_sin.
  assert (H1 : sin 0.0000005 < 0.0000005) by (apply sin_lt_x; lra).
  assert (H2 : 0 < sin 0.0000005).
  { apply sin_gt_0; [lra |]. pose proof PI_above_3. lra. }
  nra.
Qed.

(** The length of a vector against its height. *)
Lemma length_pos_of_dot (v : Vec3) : 0 < Vector3.dot v v -> 0 < Vector3.length v.
Proof.
  intros H. unfold Vector3.length, Vector3.dot in *. apply sqrt_lt_R0. exact H.
Qed.

Lemma height_ratio_range (v : Vec3) :
  0 < Vector3.length v ->
  -1 <= Vector3.y v / Vector3.length v <= 1.
Proof.
  intros Hr.
  assert (Hsq : Vector3.length v * Vector3.length v = Vector3.dot v v).
  { unfold Vector3.length, Vector3.dot. apply sqrt_sqrt.
    destruct v as [a b c]; simpl; nra. }
  assert (Hy : Vector3.y v * Vector3.y v <= Vector3.length v * Vector3.length v).
  { rewrite Hsq. unfold Vector3.dot. destruct v as [a b c]; simpl; nra. }
  split.
  - apply (Rmult_le_reg_r (Vector3.length v)); [exact Hr |].
    unfold Rdiv. rewrite Rmult_assoc, Rinv_l by lra. nra.
  - apply (Rmult_le_reg_r (Vector3.length v)); [exact Hr |].
    unfold Rdiv. rewrite Rmult_assoc, Rinv_l by lra. nra.
Qed.

(** An offset at least some 26 degrees away from the vertical has a safe
    polar angle. *)
Lemma Spherical_phi_safe (v : Vec3) :
  0 < Vector3.dot v v ->
  Vector3.y v * Vector3.y v <= 0.81 * Vector3.dot v v ->
  Spherical.EPS <= Spherical.phi (Spherical.setFromVector3 v) <= PI - Spherical.EPS.
Proof.
  intros Hpos Hy.
  pose proof (length_pos_of_dot v Hpos) as Hr.
  pose proof (height_ratio_range v Hr) as Hu.
  assert (Hsq : Vector3.length v * Vector3.length v = Vector3.dot v v).
  { unfold Vector3.length, Vector3.dot. apply sqrt_sqrt.
    destruct v as [a b c]; simpl; nra. }
  unfold Spherical.setFromVector3. cbn [Spherical.phi].
  destruct (Req_dec_T (Vector3.length v) 0) as [E | _]; [lra |].
  rewrite (Rmin_right 1) by lra. rewrite Rmax_right by lra.
  set (u := Vector3.y v / Vector3.length v) in *.
  assert (Hu2 : u * u <= 0.81).
  { assert (Hyu : Vector3.y v = u * Vector3.length v).
    { unfold u. field. lra. }
    rewrite Hyu in Hy. rewrite <- Hsq in Hy.
    assert (0 < Vector3.length v * Vector3.length v) by nra.
    nra. }
  assert (Habs : -0.9 <= u <= 0.9) by nra.
  pose proof (acos_bound u) as Hb.
  pose proof (cos_acos u Hu) as Hc.
  pose proof cos_EPS_bound as He.
  pose proof PI_above_3 as Hpi.
  assert (HE : 0 < Spherical.EPS < 1) by (unfold Spherical.EPS; lra).
  split.
  - destruct (Rle_lt_dec Spherical.EPS (acos u)) as [Hok | Hlt]; [exact Hok |].
    exfalso.
    assert (cos Spherical.EPS < cos (acos u)).
    { apply cos_decreasing_1; lra. }
    lra.
  - destruct (Rle_lt_dec (acos u) (PI - Spherical.EPS)) as [Hok | Hlt]; [exact Hok |].
    exfalso.
    assert (cos (acos u) < cos (PI - Spherical.EPS)).
    { apply cos_decreasing_1; lra. }
    rewrite Rtrigo_facts.cos_pi_minus in H. lra.
Qed.

(** Spherical coordinates and back. *)
Lemma Spherical_roundtrip (v : Vec3) :
  0 < Vector3.length v ->
  Spherical.toVector3 (Spherical.setFromVector3 v) = v.
Proof.
  intros Hr.
  pose proof (height_ratio_range v Hr) as Hu.
  assert (Hsq : Vector3.length v * Vector3.length v = Vector3.dot v v).
  { unfold Vector3.length, Vector3.dot. apply sqrt_sqrt.
    destruct v as [a b c]; simpl; nra. }
  unfold Spherical.toVector3, Spherical.setFromVector3.
  cbn [Spherical.phi Spherical.radius Spherical.sinTheta Spherical.cosTheta].
  destruct (Req_dec_T (Vector3.length v) 0) as [E | _]; [lra |].
  rewrite (Rmin_right 1) by lra. rewrite Rmax_right by lra.
  set (r := Vector3.length v) in *.
  set (u := Vector3.y v / r) in *.
  set (h := sqrt (Vector3.x v * Vector3.x v + Vector3.z v * Vector3.z v)).
  assert (Hh0 : 0 <= Vector3.x v * Vector3.x v + Vector3.z v * Vector3.z v) by nra.
  assert (Hhh : h * h = Vector3.x v * Vector3.x v + Vector3.z v * Vector3.z v)
    by (apply sqrt_sqrt; exact Hh0).
  assert (Hhpos : 0 <= h) by apply sqrt_pos.
  assert (Hyu : Vector3.y v = u * r) by (unfold u; field; lra).
  assert (Hsin : sin (acos u) * r = h).
  { rewrite sin_acos by exact Hu.
    assert (H1u : 0 <= 1 - u²) by (unfold Rsqr; nra).
    transitivity (sqrt ((1 - u²) * (r * r))).
    - rewrite sqrt_mult_alt by exact H1u. rewrite sqrt_square by lra. reflexivity.
    - unfold h. f_equal. unfold Rsqr. unfold Vector3.dot in Hsq.
      rewrite Hyu in Hsq. nra. }
  rewrite cos_acos by exact Hu.
  rewrite Hsin.
  destruct (Req_dec_T h 0) as [Eh | Nh].
  - assert (Hx : Vector3.x v = 0) by nra.
    assert (Hz : Vector3.z v = 0) by nra.
    apply Vector3_ext; cbn [Vector3.x Vector3.y Vector3.z]; rewrite ?Hx, ?Hz, ?Eh; lra.
  - apply Vector3_ext; cbn [Vector3.x Vector3.y Vector3.z].
    + field. exact Nh.
    + lra.
    + field. exact Nh.
Qed.

(** Within the distance limits and off the poles [controls.update()] leaves
    the camera where it is. *)
Lemma OrbitControls_update_in_range (minD maxD : R) (cam : Camera) (target : Vec3) :
  0 < minD ->
  minD <= Vector3.length (Vector3.sub (camPosition cam) target) <= maxD ->
  Spherical.EPS
  <= Spherical.phi (Spherical.setFromVector3 (Vector3.sub (camPosition cam) target))
  <= PI - Spherical.EPS ->
  OrbitControls_update minD maxD cam target
  = mkCamera (camPosition cam) (camUp cam) (Some target).
Proof.
  intros Hmin [Hlo Hhi] [Hp1 Hp2]. unfold OrbitControls_update.
  set (offset := Vector3.sub (camPosition cam) target) in *.
  pose proof PI_above_3 as Hpi.
  assert (HE : 0 < Spherical.EPS < 1) by (unfold Spherical.EPS; lra).
  unfold Spherical.makeSafe.
  cbn [Spherical.phi Spherical.radius Spherical.sinTheta Spherical.cosTheta].
  set (p := Spherical.phi (Spherical.setFromVector3 offset)) in *.
  rewrite (Rmin_right PI p) by lra. rewrite (Rmax_right 0 p) by lra.
  rewrite (Rmin_right (PI - Spherical.EPS) p) by lra.
  rewrite (Rmax_right Spherical.EPS p) by lra.
  replace (Spherical.radius (Spherical.setFromVector3 offset))
    with (Vector3.length offset) by reflexivity.
  rewrite (Rmin_right maxD) by exact Hhi.
  rewrite Rmax_right by exact Hlo.
  assert (Hrt : Spherical.toVector3
                  (Spherical.mk (Vector3.length offset) p
                     (Spherical.sinTheta (Spherical.setFromVector3 offset))
                     (Spherical.cosTheta (Spherical.setFromVector3 offset)))
                = offset).
  { transitivity (Spherical.toVector3 (Spherical.setFromVector3 offset));
      [reflexivity | apply Spherical_roundtrip; lra]. }
  rewrite Hrt. f_equal.
  unfold offset. destruct cam as [[px py pz] u l], target as [tx ty tz]; simpl.
  apply Vector3_ext; simpl; ring.
Qed.

(** A camera sitting on the target is moved off it, to the least distance,
    a hair away from the vertical. *)
Lemma OrbitControls_update_on_target (minD maxD : R) (cam : Camera) (target : Vec3) :
  0 <= minD <= maxD ->
  camPosition cam = target ->
  camPosition (OrbitControls_update minD maxD cam target)
  = Vector3.add target
      (Vector3.mk 0 (cos Spherical.EPS * minD) (sin Spherical.EPS * minD)).
Proof.
  intros [Hmin Hmax] Hpos. unfold OrbitControls_update. rewrite Hpos.
  pose proof PI_above_3 as Hpi.
  assert (HE : 0 < Spherical.EPS < 1) by (unfold Spherical.EPS; lra).
  assert (Hz : Vector3.sub target target = Vector3.mk 0 0 0).
  { destruct target as [a b c]. apply Vector3_ext; simpl; ring. }
  rewrite Hz. unfold Spherical.setFromVector3, Spherical.makeSafe, Vector3.length.
  cbn [Vector3.x Vector3.y Vector3.z].
  replace (0 * 0 + 0 * 0 + 0 * 0) with 0 by ring.
  replace (0 * 0 + 0 * 0) with 0 by ring.
  rewrite sqrt_0.
  destruct (Req_dec_T 0 0) as [_ | N]; [| contradiction].
  cbn [Spherical.phi Spherical.radius Spherical.sinTheta Spherical.cosTheta].
  rewrite (Rmin_right PI 0) by lra. rewrite (Rmax_left 0 0) by lra.
  rewrite (Rmin_right (PI - Spherical.EPS) 0) by lra.
  rewrite (Rmax_left Spherical.EPS 0) by lra.
  rewrite (Rmin_right maxD 0) by lra. rewrite (Rmax_left minD 0) by lra.
  unfold Spherical.toVector3.
  cbn [camPosition Spherical.phi Spherical.radius Spherical.sinTheta Spherical.cosTheta].
  f_equal. apply Vector3_ext; simpl; ring.
Qed.

(** The manual follow ends within the drift bound of Earth, whatever the
    camera and the movement were. *)
Lemma followEarth_within_bound (posDelta currentEarthPos : Vec3) (cam : Camera)
    (target : Vec3) :
  Vector3.distanceTo
    (camPosition (fst (followEarth posDelta currentEarthPos cam target)))
    currentEarthPos
  <= DRIFT_BOUND.
Proof.
  unfold followEarth.
  destruct (Rgt_dec _ DRIFT_BOUND) as [Hfar | Hnear]; cbn [fst camPosition].
  - rewrite distanceTo_as_length.
    apply (Vector3_length_bounds _ 0 DRIFT_BOUND); unfold DRIFT_BOUND; try lra.
    destruct currentEarthPos as [ex ey ez]. unfold Vector3.dot. simpl. nra.
  - lra.
Qed.

Lemma followEarth_resnap (posDelta currentEarthPos : Vec3) (cam : Camera)
    (target : Vec3) :
  Vector3.distanceTo (Vector3.add (camPosition cam) posDelta) currentEarthPos
  > DRIFT_BOUND ->
  followEarth posDelta currentEarthPos cam target
  = (mkCamera (Vector3.add currentEarthPos (Vector3.mk 0 10 40))
              (camUp cam) (camLookAt cam),
     currentEarthPos).
Proof.
  intros H. unfold followEarth.
  destruct (Rgt_dec _ DRIFT_BOUND) as [_ | Hn]; [reflexivity | contradiction].
Qed.

Lemma followEarth_follow (posDelta currentEarthPos : Vec3) (cam : Camera)
    (target : Vec3) :
  Vector3.distanceTo (Vector3.add (camPosition cam) posDelta) currentEarthPos
  <= DRIFT_BOUND ->
  followEarth posDelta currentEarthPos cam target
  = (mkCamera (Vector3.add (camPosition cam) posDelta) (camUp cam) (camLookAt cam),
     Vector3.add target posDelta).
Proof.
  intros H. unfold followEarth.
  destruct (Rgt_dec _ DRIFT_BOUND) as [Hfar | _]; [lra | reflexivity].
Qed.

(** The frame callback in EARTH_FREE, outside a transition, with the
    controls mounted: the camera and the target come from [followEarth]. *)
Lemma useFrame_earth_free (focusedPlanet : option string) (f : Frame)
    (s : SystemState) (target : Vec3) :
  isTransitioning s = false ->
  controls s = Some target ->
  let s1 := HeliocentricSystem_useFrame EARTH_FREE focusedPlanet f s in
  let posDelta := Vector3.sub (earthContainerPosition s1) (prevEarthPos s) in
  camera s1 = fst (followEarth posDelta (earthContainerPosition s1) (camera s) target)
  /\ controls s1
     = Some (snd (followEarth posDelta (earthContainerPosition s1) (camera s) target)).
Proof.
  intros Hlock Hctl s1 posDelta. subst s1 posDelta.
  rewrite useFrame_earthPosition.
  unfold HeliocentricSystem_useFrame. rewrite Hlock, Hctl. cbn [ViewMode_eqb negb andb].
  destruct (followEarth _ _ _ _) as [c tg] eqn:E.
  cbn [camera controls placeCamera fst snd]. split; reflexivity.
Qed.

(** Hence the distance at the end of such a frame. *)
Lemma useFrame_earth_free_within_bound (focusedPlanet : option string) (f : Frame)
    (s : SystemState) (target : Vec3) :
  isTransitioning s = false ->
  controls s = Some target ->
  Vector3.distanceTo
    (camPosition (camera (HeliocentricSystem_useFrame EARTH_FREE focusedPlanet f s)))
    (earthContainerPosition (HeliocentricSystem_useFrame EARTH_FREE focusedPlanet f s))
  <= DRIFT_BOUND.
Proof.
  intros Hlock Hctl.
  destruct (useFrame_earth_free focusedPlanet f s target Hlock Hctl) as [Hcam _].
  rewrite Hcam. apply followEarth_within_bound.
Qed.

(** C6.  In EARTH_FREE, outside a transition lock and with the orbit controls
    mounted, every frame ends with the camera at most 300 units from Earth's
    position of that frame.  If the camera, moved by Earth's displacement
    since the last frame, is farther than 300 from Earth, the frame puts the
    camera at Earth + (0, 10, 40) and the target on Earth; otherwise camera
    and target are both moved by that displacement. *)
Theorem earth_free_drift_guard :
  forall (focusedPlanet : option string) (f : Frame) (s : SystemState)
         (target : Vec3),
    isTransitioning s = false ->
    controls s = Some target ->
    let s1 := HeliocentricSystem_useFrame EARTH_FREE focusedPlanet f s in
    let earth := earthContainerPosition s1 in
    let posDelta := Vector3.sub earth (prevEarthPos s) in
    let moved := Vector3.add (camPosition (camera s)) posDelta in
    Vector3.distanceTo (camPosition (camera s1)) earth <= DRIFT_BOUND
    /\ (Vector3.distanceTo moved earth > DRIFT_BOUND ->
        camPosition (camera s1) = Vector3.add earth (Vector3.mk 0 10 40)
        /\ controls s1 = Some earth)
    /\ (Vector3.distanceTo moved earth <= DRIFT_BOUND ->
        camPosition (camera s1) = moved
        /\ controls s1 = Some (Vector3.add target posDelta)).
Proof.
  intros focusedPlanet f s target Hlock Hctl s1 earth posDelta moved.
  split; [exact (useFrame_earth_free_within_bound focusedPlanet f s target Hlock Hctl) |].
  destruct (useFrame_earth_free focusedPlanet f s target Hlock Hctl) as [Hcam Htg].
  fold s1 in Hcam, Htg. fold earth in Hcam, Htg. fold posDelta in Hcam, Htg.
  rewrite Hcam, Htg.
  split; intros Hd.
  - unfold moved in Hd. rewrite (followEarth_resnap _ _ _ _ Hd). split; reflexivity.
  - unfold moved in Hd. rewrite (followEarth_follow _ _ _ _ Hd). split; reflexivity.
Qed.

Lemma earth_free_drift_guard_witness :
  let s := systemInit (mkCamera (Vector3.mk 170 6 18) (Vector3.mk 0 1 0) None)
                      (Some (Vector3.mk 170 0 0)) in
  let s1 := HeliocentricSystem_useFrame EARTH_FREE None (mkFrame 0.016 0.016) s in
  isTransitioning s = false
  /\ controls s = Some (Vector3.mk 170 0 0)
  /\ Vector3.distanceTo (camPosition (camera s1)) (earthContainerPosition s1)
     <= DRIFT_BOUND.
Proof.
  intros s s1.
  assert (Hlock : isTransitioning s = false) by reflexivity.
  assert (Hctl : controls s = Some (Vector3.mk 170 0 0)) by reflexivity.
  split; [exact Hlock |]. split; [exact Hctl |].
  exact (proj1 (earth_free_drift_guard None (mkFrame 0.016 0.016) s
                  (Vector3.mk 170 0 0) Hlock Hctl)).
Defined.

(** ** Reachable scenes *)

Ltac split_camera_pairs :=
  repeat match goal with
         | |- context [followEarth ?d ?e ?c ?t] => destruct (followEarth d e c t)
         | |- context [trackFocus ?a ?b ?p ?r ?c ?t] =>
             destruct (trackFocus a b p r c t)
         end.

Lemma useFrame_controlsPresent (viewMode : ViewMode) (focusedPlanet : option string)
    (f : Frame) (s : SystemState) :
  controlsPresent (HeliocentricSystem_useFrame viewMode focusedPlanet f s)
  = controlsPresent s.
Proof.
  unfold HeliocentricSystem_useFrame, controlsPresent.
  destruct (ViewMode_eqb viewMode EARTH_FREE && negb (isTransitioning s)).
  - destruct (controls s); split_camera_pairs; reflexivity.
  - destruct (ViewMode_eqb viewMode SOLAR_SYSTEM && truthy focusedPlanet);
      [| reflexivity].
    destruct focusedPlanet as [fp |]; [| reflexivity].
    destruct (controls s) as [target |]; [| reflexivity].
    destruct (focusTarget _ _ _) as [[targetPos targetRadius] |]; [| reflexivity].
    split_camera_pairs. reflexivity.
Qed.

Lemma transitionTimeout_controlsPresent (viewMode : ViewMode)
    (focusedPlanet : option string) (s : SystemState) :
  controlsPresent (transitionTimeout viewMode focusedPlanet s) = controlsPresent s.
Proof.
  unfold transitionTimeout, controlsPresent.
  destruct (controls s); [| reflexivity].
  destruct (ViewMode_eqb viewMode EARTH_FREE); [reflexivity |].
  destruct (ViewMode_eqb viewMode SOLAR_SYSTEM && negb (truthy focusedPlanet));
    reflexivity.
Qed.

Lemma OrbitControls_useFrame_controlsPresent (viewMode : ViewMode)
    (focusedPlanet : option string) (s : SystemState) :
  controlsPresent (OrbitControls_useFrame viewMode focusedPlanet s)
  = controlsPresent s.
Proof.
  unfold controlsPresent.
  destruct (OrbitControls_useFrame_motion viewMode focusedPlanet s)
    as (_ & _ & _ & _ & _ & _ & -> & _).
  reflexivity.
Qed.

Lemma step_controlsInvariant (w : Scene) (e : Event) :
  controlsInvariant w -> controlsInvariant (step w e).
Proof.
  unfold controlsInvariant. intros Hinv.
  destruct e as [vm fp | | f | cam target]; cbn [step].
  - destruct (ViewMode_eqb vm (sceneViewMode w) && option_string_eqb fp (sceneFocus w));
      [exact Hinv |].
    cbn [sceneSystem sceneViewMode]. unfold remountCamera.
    destruct (Bool.eqb (controlsMounted (sceneViewMode w)) (controlsMounted vm)) eqn:E.
    + apply Bool.eqb_prop in E. rewrite <- E. exact Hinv.
    + destruct (controlsMounted vm); reflexivity.
  - destruct (pendingTimeout (sceneSystem w)); [| exact Hinv].
    cbn [sceneSystem sceneViewMode].
    rewrite transitionTimeout_controlsPresent. exact Hinv.
  - unfold renderFrame. cbn [sceneSystem sceneViewMode].
    rewrite useFrame_controlsPresent, OrbitControls_useFrame_controlsPresent.
    exact Hinv.
  - cbn [sceneSystem sceneViewMode]. unfold controlsPresent, withCamera.
    cbn [controls]. destruct (controlsMounted (sceneViewMode w)); reflexivity.
Qed.

Lemma run_controlsInvariant (es : list Event) :
  forall w, controlsInvariant w -> controlsInvariant (run w es).
Proof.
  unfold run.
  induction es as [| e es IH]; intros w Hinv; simpl.
  - exact Hinv.
  - apply IH, step_controlsInvariant, Hinv.
Qed.

Lemma sceneInit_controlsInvariant : controlsInvariant sceneInit.
Proof. reflexivity. Qed.

(** The drift guard over every scene the events can reach from the mounted
    component. *)
Lemma reachable_earth_free_within_bound (es : list Event) (f : Frame) :
  let w := run sceneInit es in
  let w1 := step w (RenderFrame f) in
  sceneViewMode w = EARTH_FREE ->
  isTransitioning (sceneSystem w) = false ->
  Vector3.distanceTo (camPosition (camera (sceneSystem w1)))
                     (earthContainerPosition (sceneSystem w1))
  <= DRIFT_BOUND.
Proof.
  intros w w1 Hmode Hlock.
  pose proof (run_controlsInvariant es sceneInit sceneInit_controlsInvariant) as Hinv.
  fold w in Hinv. unfold controlsInvariant, controlsPresent in Hinv.
  rewrite Hmode in Hinv. cbn [controlsMounted] in Hinv.
  destruct (controls (sceneSystem w)) as [target |] eqn:Hctl; [| discriminate].
  subst w1. cbn [step]. unfold renderFrame. cbn [sceneSystem]. rewrite Hmode.
  destruct (OrbitControls_useFrame_motion EARTH_FREE (sceneFocus w) (sceneSystem w))
    as (_ & _ & Hl & _ & _ & _ & Hc & _).
  rewrite Hlock in Hl. rewrite Hctl in Hc.
  exact (useFrame_earth_free_within_bound (sceneFocus w) f _ target Hl Hc).
Qed.

(** ** The transition lock *)

Section TransitionLock.

Variable focusedPlanet : option string.

(** While the lock is held the frame callback leaves camera and controls
    alone in EARTH_FREE. *)
Lemma useFrame_earth_free_locked (f : Frame) (s : SystemState) :
  isTransitioning s = true ->
  camera (HeliocentricSystem_useFrame EARTH_FREE focusedPlanet f s) = camera s
  /\ controls (HeliocentricSystem_useFrame EARTH_FREE focusedPlanet f s) = controls s.
Proof.
  intros Hlock. unfold HeliocentricSystem_useFrame.
  rewrite Hlock. cbn. split; reflexivity.
Qed.

Lemma run_earth_free_locked (fs : list Frame) :
  forall s,
    isTransitioning s = true ->
    camera (HeliocentricSystem_run EARTH_FREE focusedPlanet fs s) = camera s
    /\ controls (HeliocentricSystem_run EARTH_FREE focusedPlanet fs s) = controls s
    /\ isTransitioning (HeliocentricSystem_run EARTH_FREE focusedPlanet fs s) = true.
Proof.
  unfold HeliocentricSystem_run.
  induction fs as [| f fs IH]; intros s Hlock; simpl.
  - repeat split; assumption.
  - destruct (useFrame_earth_free_locked f s Hlock) as [Hc Ht].
    destruct (useFrame_lock EARTH_FREE focusedPlanet f s) as [Hl _].
    rewrite Hlock in Hl.
    destruct (IH _ Hl) as (IHc & IHt & IHl).
    rewrite IHc, IHt, Hc, Ht. repeat split. exact IHl.
Qed.

(** When the timer fires in EARTH_FREE the camera is put at Earth + (0, 6, 18)
    with the target on Earth. *)
Lemma transitionTimeout_earth_free (s : SystemState) (target : Vec3) :
  controls s = Some target ->
  transitionTimeout EARTH_FREE focusedPlanet s
  = mkSystem (orbitAngle s) (prevEarthPos s) false (earthContainerPosition s)
             (earthRotationY s) (cloudsRotationY s)
             (mkCamera (Vector3.add (earthContainerPosition s) (Vector3.mk 0 6 18))
                       (camUp (camera s)) (Some (earthContainerPosition s)))
             (Some (earthContainerPosition s)) None.
Proof.
  intros Hctl. unfold transitionTimeout. rewrite Hctl. cbn [ViewMode_eqb].
  rewrite OrbitControls_update_in_range.
  - cbn [camPosition camUp]. do 2 f_equal.
    destruct (earthContainerPosition s) as [ex ey ez].
    apply Vector3_ext; simpl; ring.
  - unfold minDistance. cbn. lra.
  - unfold minDistance, maxDistance. cbn [ViewMode_eqb camPosition].
    apply Vector3_length_bounds; try lra.
    destruct (earthContainerPosition s) as [ex ey ez].
    unfold Vector3.dot. simpl. nra.
  - cbn [camPosition].
    destruct (earthContainerPosition s) as [ex ey ez].
    apply Spherical_phi_safe; unfold Vector3.dot; simpl; nra.
Qed.

End TransitionLock.

(** When the timer fires in SOLAR_SYSTEM with no focus the camera is put at
    (0, 400, 600) with the target on the Sun. *)
Lemma transitionTimeout_solar_overview (s : SystemState) (target : Vec3) :
  controls s = Some target ->
  transitionTimeout SOLAR_SYSTEM None s
  = mkSystem (orbitAngle s) (prevEarthPos s) false (earthContainerPosition s)
             (earthRotationY s) (cloudsRotationY s)
             (mkCamera (Vector3.mk 0 400 600) (camUp (camera s))
                       (Some (Vector3.mk 0 0 0)))
             (Some (Vector3.mk 0 0 0)) None.
Proof.
  intros Hctl. unfold transitionTimeout. rewrite Hctl.
  cbn [ViewMode_eqb truthy negb andb].
  rewrite OrbitControls_update_in_range.
  - reflexivity.
  - unfold minDistance. cbn. lra.
  - unfold minDistance, maxDistance. cbn [ViewMode_eqb truthy camPosition].
    apply Vector3_length_bounds; try lra.
    unfold Vector3.dot. simpl. nra.
  - cbn [camPosition].
    apply Spherical_phi_safe; unfold Vector3.dot; simpl; nra.
Qed.

(** In SOLAR_SYSTEM without a focus the frame callback never writes the
    camera. *)
Lemma useFrame_solar_overview (f : Frame) (s : SystemState) :
  camera (HeliocentricSystem_useFrame SOLAR_SYSTEM None f s) = camera s
  /\ controls (HeliocentricSystem_useFrame SOLAR_SYSTEM None f s) = controls s.
Proof.
  unfold HeliocentricSystem_useFrame. cbn. split; reflexivity.
Qed.

Lemma transitionTimeout_unlocks (viewMode : ViewMode) (focusedPlanet : option string)
    (s : SystemState) :
  isTransitioning (transitionTimeout viewMode focusedPlanet s) = false
  /\ pendingTimeout (transitionTimeout viewMode focusedPlanet s) = None.
Proof.
  unfold transitionTimeout.
  destruct (controls s); [| split; reflexivity].
  destruct (ViewMode_eqb viewMode EARTH_FREE); [split; reflexivity |].
  destruct (ViewMode_eqb viewMode SOLAR_SYSTEM && negb (truthy focusedPlanet));
    split; reflexivity.
Qed.

(** A changed view mode or focus takes the lock and arms the timer. *)
Lemma SetView_takes_lock (w : Scene) (vm : ViewMode) (fp : option string) :
  ViewMode_eqb vm (sceneViewMode w) && option_string_eqb fp (sceneFocus w) = false ->
  sceneViewMode (step w (SetView vm fp)) = vm
  /\ sceneFocus (step w (SetView vm fp)) = fp
  /\ isTransitioning (sceneSystem (step w (SetView vm fp))) = true
  /\ pendingTimeout (sceneSystem (step w (SetView vm fp))) = Some TRANSITION_DELAY_MS.
Proof.
  intros Hchanged. cbn [step]. rewrite Hchanged.
  repeat split.
Qed.

(** Outside EARTH_FREE the frame callback does not read the lock. *)
Lemma useFrame_lock_not_read (viewMode : ViewMode) (focusedPlanet : option string)
    (f : Frame) (s : SystemState) (b : bool) :
  viewMode <> EARTH_FREE ->
  camera (HeliocentricSystem_useFrame viewMode focusedPlanet f (withLock b s))
  = camera (HeliocentricSystem_useFrame viewMode focusedPlanet f s)
  /\ controls (HeliocentricSystem_useFrame viewMode focusedPlanet f (withLock b s))
     = controls (HeliocentricSystem_useFrame viewMode focusedPlanet f s).
Proof.
  intros Hvm. unfold HeliocentricSystem_useFrame.
  assert (E : ViewMode_eqb viewMode EARTH_FREE = false)
    by (destruct viewMode; try reflexivity; contradiction).
  rewrite E. unfold withLock.
  cbn [andb orbitAngle prevEarthPos isTransitioning earthContainerPosition
       earthRotationY cloudsRotationY camera controls pendingTimeout].
  match goal with
  | |- context [let '(_, _) := ?e in _] => destruct e
  end.
  split; reflexivity.
Qed.

(** The chase cameras of the day and the night view are written in every
    frame, 5 above the orbital plane and turned to Earth. *)
Lemma useFrame_chase_height (viewMode : ViewMode) (focusedPlanet : option string)
    (f : Frame) (s : SystemState) :
  viewMode = EARTH_DAY \/ viewMode = EARTH_NIGHT ->
  let s1 := HeliocentricSystem_useFrame viewMode focusedPlanet f s in
  Vector3.y (camPosition (camera s1)) = 5
  /\ camLookAt (camera s1) = Some (earthContainerPosition s1).
Proof.
  intros [-> | ->] s1; subst s1; unfold HeliocentricSystem_useFrame;
    cbn [ViewMode_eqb andb camera placeCamera camPosition camLookAt
         earthContainerPosition Vector3.x Vector3.y Vector3.z];
    (split; [| reflexivity]);
    unfold Vector3.add, Vector3.sub, Vector3.multiplyScalar, Vector3.normalize,
      Vector3.divideScalar, Vector3.multiplyScalar, earthPosition;
    cbn [Vector3.x Vector3.y Vector3.z]; ring.
Qed.

(** The planet-focus branch eases the controls target in every frame. *)
Lemma useFrame_focus_target (n : string) (f : Frame) (s : SystemState)
    (target targetPos : Vec3) (targetRadius : R) :
  truthy (Some n) = true ->
  controls s = Some target ->
  focusTarget n
    (earthContainerPosition (HeliocentricSystem_useFrame SOLAR_SYSTEM (Some n) f s))
    (elapsedTime f)
  = Some (targetPos, targetRadius) ->
  controls (HeliocentricSystem_useFrame SOLAR_SYSTEM (Some n) f s)
  = Some (Vector3.lerp target targetPos 0.1).
Proof.
  intros Htruthy Hctl Hres.
  rewrite useFrame_earthPosition in Hres.
  unfold HeliocentricSystem_useFrame.
  cbn [ViewMode_eqb andb]. rewrite Htruthy, Hctl.
  unfold earthPosition in Hres |- *.
  rewrite Hres. unfold trackFocus.
  cbn [camera controls placeCamera]. reflexivity.
Qed.

(** The timer callback without the controls, and with them where it has no
    pose to set. *)
Lemma transitionTimeout_no_controls (viewMode : ViewMode)
    (focusedPlanet : option string) (s : SystemState) :
  controls s = None ->
  camera (transitionTimeout viewMode focusedPlanet s) = camera s
  /\ controls (transitionTimeout viewMode focusedPlanet s) = None.
Proof.
  intros Hctl. unfold transitionTimeout. rewrite Hctl. split; reflexivity.
Qed.

Lemma transitionTimeout_no_pose (viewMode : ViewMode)
    (focusedPlanet : option string) (s : SystemState) (target : Vec3) :
  controls s = Some target ->
  viewMode <> EARTH_FREE ->
  (viewMode = SOLAR_SYSTEM -> truthy focusedPlanet = true) ->
  camera (transitionTimeout viewMode focusedPlanet s)
  = OrbitControls_update (minDistance viewMode focusedPlanet) (maxDistance viewMode)
      (camera s) target
  /\ controls (transitionTimeout viewMode focusedPlanet s) = Some target.
Proof.
  intros Hctl Hvm Hfocus. unfold transitionTimeout. rewrite Hctl.
  assert (E1 : ViewMode_eqb viewMode EARTH_FREE = false)
    by (destruct viewMode; try reflexivity; contradiction).
  assert (E2 : ViewMode_eqb viewMode SOLAR_SYSTEM && negb (truthy focusedPlanet)
               = false).
  { destruct viewMode; try reflexivity. rewrite Hfocus by reflexivity. reflexivity. }
  rewrite E1, E2. split; reflexivity.
Qed.

(** A whole frame in EARTH_FREE under the lock: the camera is what the
    frame callback of the OrbitControls leaves. *)
Lemma renderFrame_earth_free_locked (f : Frame) (w : Scene) :
  sceneViewMode w = EARTH_FREE ->
  isTransitioning (sceneSystem w) = true ->
  camera (sceneSystem (renderFrame f w))
  = camera (OrbitControls_useFrame EARTH_FREE (sceneFocus w) (sceneSystem w))
  /\ controls (sceneSystem (renderFrame f w)) = controls (sceneSystem w)
  /\ isTransitioning (sceneSystem (renderFrame f w)) = true.
Proof.
  intros Hmode Hlock. unfold renderFrame. cbn [sceneSystem]. rewrite Hmode.
  destruct (OrbitControls_useFrame_motion EARTH_FREE (sceneFocus w) (sceneSystem w))
    as (_ & _ & Hl & _ & _ & _ & Hc & _).
  rewrite Hlock in Hl.
  destruct (useFrame_earth_free_locked (sceneFocus w) f _ Hl) as [Hcam Hctl].
  destruct (useFrame_lock EARTH_FREE (sceneFocus w) f
              (OrbitControls_useFrame EARTH_FREE (sceneFocus w) (sceneSystem w)))
    as [Hl1 _].
  rewrite Hcam, Hctl, Hc, Hl1, Hl. repeat split.
Qed.

(** C5, as the code has it.  Every change of view mode or focus takes the
    transition lock and arms a timer of 100 ms.

    The lock gates one camera write, the follow of EARTH_FREE: while it is
    held the frame callback of HeliocentricSystem leaves the camera and the
    controls target as they are in EARTH_FREE, over any number of frames.  A
    whole frame there changes the camera only by what the frame callback of
    the OrbitControls does: nothing to a camera whose offset from the target
    is between 5 and 250 long and off the poles, while a camera sitting on
    the target, as on the mounted scene, is moved 5 away from it.  In
    SOLAR_SYSTEM without a focus the callback of HeliocentricSystem never
    writes camera or target.

    In every other mode the callback does not read the lock - its camera and
    target are the same with the lock set as with it clear - and it writes
    all the same: the day and the night view put the camera 5 above the
    orbital plane, turned to Earth, SYSTEM_TOP and SYSTEM_AUTO move it a
    twentieth of the way to their goal, and the planet focus moves the
    target a tenth of the way to the focused body.

    When the timer fires the lock is released in every mode.  With the
    controls mounted the camera is put on a start pose in EARTH_FREE
    (Earth + (0, 6, 18), target on Earth) and in SOLAR_SYSTEM without a focus
    ((0, 400, 600), target at the origin).  There is no pose otherwise:
    without the controls - which is so in the day, night, top and cinematic
    views of every scene the events reach - camera and target stay as they
    are, and with the controls and a focus the callback only runs the
    update of the OrbitControls on the camera and target it finds. *)
Theorem transition_lock_gates_earth_free :
  TRANSITION_DELAY_MS = 100%nat
  /\ (forall (w : Scene) (vm : ViewMode) (fp : option string),
        ViewMode_eqb vm (sceneViewMode w) && option_string_eqb fp (sceneFocus w)
        = false ->
        let w1 := step w (SetView vm fp) in
        sceneViewMode w1 = vm
        /\ sceneFocus w1 = fp
        /\ isTransitioning (sceneSystem w1) = true
        /\ pendingTimeout (sceneSystem w1) = Some TRANSITION_DELAY_MS)
  /\ (forall (fp : option string) (fs : list Frame) (s : SystemState),
        isTransitioning s = true ->
        let s1 := HeliocentricSystem_run EARTH_FREE fp fs s in
        camera s1 = camera s
        /\ controls s1 = controls s
        /\ isTransitioning s1 = true)
  /\ (forall (f : Frame) (w : Scene),
        sceneViewMode w = EARTH_FREE ->
        isTransitioning (sceneSystem w) = true ->
        let s := sceneSystem w in
        let s1 := sceneSystem (renderFrame f w) in
        camera s1 = camera (OrbitControls_useFrame EARTH_FREE (sceneFocus w) s)
        /\ controls s1 = controls s
        /\ isTransitioning s1 = true
        /\ (forall target : Vec3,
              controls s = Some target ->
              5 <= Vector3.length (Vector3.sub (camPosition (camera s)) target) <= 250 ->
              Spherical.EPS
              <= Spherical.phi
                   (Spherical.setFromVector3
                      (Vector3.sub (camPosition (camera s)) target))
              <= PI - Spherical.EPS ->
              camPosition (camera s1) = camPosition (camera s))
        /\ (forall target : Vec3,
              controls s = Some target ->
              camPosition (camera s) = target ->
              camPosition (camera s1)
              = Vector3.add target
                  (Vector3.mk 0 (cos Spherical.EPS * 5) (sin Spherical.EPS * 5))))
  /\ (forall (f : Frame) (s : SystemState),
        let s1 := HeliocentricSystem_useFrame SOLAR_SYSTEM None f s in
        camera s1 = camera s /\ controls s1 = controls s)
  /\ (forall (vm : ViewMode) (fp : option string) (f : Frame) (s : SystemState)
             (b : bool),
        vm <> EARTH_FREE ->
        camera (HeliocentricSystem_useFrame vm fp f (withLock b s))
        = camera (HeliocentricSystem_useFrame vm fp f s)
        /\ controls (HeliocentricSystem_useFrame vm fp f (withLock b s))
           = controls (HeliocentricSystem_useFrame vm fp f s))
  /\ (forall (vm : ViewMode) (fp : option string) (f : Frame) (s : SystemState),
        vm = EARTH_DAY \/ vm = EARTH_NIGHT ->
        let s1 := HeliocentricSystem_useFrame vm fp f s in
        Vector3.y (camPosition (camera s1)) = 5
        /\ camLookAt (camera s1) = Some (earthContainerPosition s1))
  /\ (forall (fp : option string) (f : Frame) (s : SystemState),
        camPosition (camera (HeliocentricSystem_useFrame SYSTEM_TOP fp f s))
        = Vector3.lerp (camPosition (camera s))
            (Vector3.mk (- FOCAL_OFFSET) 600 0) 0.05
        /\ camPosition (camera (HeliocentricSystem_useFrame SYSTEM_AUTO fp f s))
           = Vector3.lerp (camPosition (camera s))
               (Vector3.mk (- FOCAL_OFFSET + 350 * cos (elapsedTime f * 0.1))
                           (100 + 40 * sin (elapsedTime f * 0.1))
                           (350 * sin (2 * (elapsedTime f * 0.1))))
               0.05)
  /\ (forall (n : string) (f : Frame) (s : SystemState) (target targetPos : Vec3)
             (targetRadius : R),
        truthy (Some n) = true ->
        controls s = Some target ->
        let s1 := HeliocentricSystem_useFrame SOLAR_SYSTEM (Some n) f s in
        focusTarget n (earthContainerPosition s1) (elapsedTime f)
        = Some (targetPos, targetRadius) ->
        controls s1 = Some (Vector3.lerp target targetPos 0.1))
  /\ (forall (vm : ViewMode) (fp : option string) (s : SystemState),
        isTransitioning (transitionTimeout vm fp s) = false
        /\ pendingTimeout (transitionTimeout vm fp s) = None)
  /\ (forall (fp : option string) (s : SystemState) (target : Vec3),
        controls s = Some target ->
        let s1 := transitionTimeout EARTH_FREE fp s in
        camPosition (camera s1)
        = Vector3.add (earthContainerPosition s) (Vector3.mk 0 6 18)
        /\ controls s1 = Some (earthContainerPosition s))
  /\ (forall (s : SystemState) (target : Vec3),
        controls s = Some target ->
        let s1 := transitionTimeout SOLAR_SYSTEM None s in
        camPosition (camera s1) = Vector3.mk 0 400 600
        /\ controls s1 = Some (Vector3.mk 0 0 0))
  /\ (forall (vm : ViewMode) (fp : option string) (s : SystemState),
        controls s = None ->
        camera (transitionTimeout vm fp s) = camera s
        /\ controls (transitionTimeout vm fp s) = None)
  /\ (forall (es : list Event),
        let w := run sceneInit es in
        controlsMounted (sceneViewMode w) = false ->
        camera (sceneSystem (step w TimeoutFires)) = camera (sceneSystem w)
        /\ controls (sceneSystem (step w TimeoutFires)) = None)
  /\ (forall (vm : ViewMode) (fp : option string) (s : SystemState) (target : Vec3),
        controls s = Some target ->
        vm <> EARTH_FREE ->
        (vm = SOLAR_SYSTEM -> truthy fp = true) ->
        camera (transitionTimeout vm fp s)
        = OrbitControls_update (minDistance vm fp) (maxDistance vm) (camera s) target
        /\ controls (transitionTimeout vm fp s) = Some target).
Proof.
  split; [reflexivity |].
  split; [intros w vm fp H; apply SetView_takes_lock; exact H |].
  split; [intros fp fs s H; apply run_earth_free_locked; exact H |].
  split.
  { intros f w Hmode Hlock s s1. subst s s1.
    destruct (renderFrame_earth_free_locked f w Hmode Hlock) as (Hcam & Hctl & Hl).
    split; [exact Hcam |]. split; [exact Hctl |]. split; [exact Hl |].
    split.
    - intros target Ht Hlen Hphi. rewrite Hcam.
      unfold OrbitControls_useFrame. rewrite Ht. cbn [withCamera camera].
      rewrite OrbitControls_update_in_range; [reflexivity | | | exact Hphi].
      + unfold minDistance. cbn. lra.
      + unfold minDistance, maxDistance. cbn. lra.
    - intros target Ht Hpos. rewrite Hcam.
      unfold OrbitControls_useFrame. rewrite Ht. cbn [withCamera camera].
      rewrite OrbitControls_update_on_target; [| | exact Hpos].
      + unfold minDistance. cbn [ViewMode_eqb].
        do 2 f_equal; lra.
      + unfold minDistance, maxDistance. cbn. lra. }
  split; [intros f s; apply useFrame_solar_overview |].
  split; [intros vm fp f s b H; apply useFrame_lock_not_read; exact H |].
  split; [intros vm fp f s H; apply useFrame_chase_height; exact H |].
  split; [intros fp f s; split; reflexivity |].
  split; [intros n f s target targetPos targetRadius H1 H2 s1 H3;
          exact (useFrame_focus_target n f s target targetPos targetRadius H1 H2 H3) |].
  split; [intros vm fp s; apply transitionTimeout_unlocks |].
  split.
  { intros fp s target H s1. subst s1.
    rewrite (transitionTimeout_earth_free fp s target H). split; reflexivity. }
  split.
  { intros s target H s1. subst s1.
    rewrite (transitionTimeout_solar_overview s target H). split; reflexivity. }
  split; [intros vm fp s H; apply transitionTimeout_no_controls; exact H |].
  split.
  { intros es w Hmounted.
    pose proof (run_controlsInvariant es sceneInit sceneInit_controlsInvariant) as Hinv.
    fold w in Hinv. unfold controlsInvariant, controlsPresent in Hinv.
    rewrite Hmounted in Hinv.
    destruct (controls (sceneSystem w)) as [target |] eqn:Hctl; [discriminate |].
    cbn [step].
    destruct (pendingTimeout (sceneSystem w)); [| split; [reflexivity | exact Hctl]].
    cbn [sceneSystem]. apply transitionTimeout_no_controls. exact Hctl. }
  intros vm fp s target H1 H2 H3. apply transitionTimeout_no_pose; assumption.
Qed.

Lemma transition_lock_gates_earth_free_witness :
  let w := step sceneInit (SetView SOLAR_SYSTEM None) in
  let locked := sceneSystem sceneInit in
  let frames := [mkFrame 0.016 0.016; mkFrame 0.032 0.016] in
  let f := mkFrame 0.016 0.016 in
  let parked :=
    mkScene EARTH_FREE None
      (withLock true
         (systemInit (mkCamera (Vector3.mk 170 6 18) (Vector3.mk 0 1 0) None)
                     (Some (Vector3.mk 170 0 0))))
      moonInit [] sunInit in
  let day := sceneSystem (step sceneInit (SetView EARTH_DAY None)) in
  let mars := Vector3.mk (cos (startAngle Mars + 0.016 * speed Mars) * distance Mars) 0
                         (sin (startAngle Mars + 0.016 * speed Mars) * distance Mars) in
  (ViewMode_eqb SOLAR_SYSTEM (sceneViewMode sceneInit)
   && option_string_eqb None (sceneFocus sceneInit) = false
   /\ isTransitioning (sceneSystem w) = true
   /\ pendingTimeout (sceneSystem w) = Some 100%nat)
  /\ (isTransitioning locked = true
      /\ camera (HeliocentricSystem_run EARTH_FREE None frames locked) = camera locked)
  /\ (sceneViewMode parked = EARTH_FREE
      /\ isTransitioning (sceneSystem parked) = true
      /\ controls (sceneSystem parked) = Some (Vector3.mk 170 0 0)
      /\ camPosition (camera (sceneSystem (renderFrame f parked)))
         = Vector3.mk 170 6 18)
  /\ (controls locked = Some Vector3.zero
      /\ camPosition (camera locked) = Vector3.zero
      /\ camPosition (camera (sceneSystem (renderFrame f sceneInit)))
         = Vector3.add Vector3.zero
             (Vector3.mk 0 (cos Spherical.EPS * 5) (sin Spherical.EPS * 5)))
  /\ (EARTH_DAY <> EARTH_FREE
      /\ camera (HeliocentricSystem_useFrame EARTH_DAY None f (withLock true day))
         = camera (HeliocentricSystem_useFrame EARTH_DAY None f day)
      /\ Vector3.y (camPosition (camera (HeliocentricSystem_useFrame EARTH_DAY None f day)))
         = 5)
  /\ (truthy (Some "Mars"%string) = true
      /\ controls (HeliocentricSystem_useFrame SOLAR_SYSTEM (Some "Mars"%string) f
                     (sceneSystem w))
         = Some (Vector3.lerp Vector3.zero mars 0.1))
  /\ (camPosition (camera (transitionTimeout EARTH_FREE None locked))
      = Vector3.add (earthContainerPosition locked) (Vector3.mk 0 6 18)
      /\ camPosition (camera (transitionTimeout SOLAR_SYSTEM None (sceneSystem w)))
         = Vector3.mk 0 400 600)
  /\ (controls day = None
      /\ camera (transitionTimeout EARTH_DAY None day) = camera day)
  /\ (controlsMounted (sceneViewMode (run sceneInit [SetView EARTH_DAY None])) = false
      /\ camera (sceneSystem (step (run sceneInit [SetView EARTH_DAY None]) TimeoutFires))
         = camera (sceneSystem (run sceneInit [SetView EARTH_DAY None])))
  /\ (camera (transitionTimeout SOLAR_SYSTEM (Some "Mars"%string) (sceneSystem w))
      = OrbitControls_update 5 4000 (camera (sceneSystem w)) Vector3.zero).
Proof.
  intros w locked frames f parked day mars.
  destruct transition_lock_gates_earth_free
    as (_ & Tset & Trun & Tframe & _ & Tread & Tchase & _ & Tfocus & _ & Tfree
        & Tsolar & Tnone & Treach & Tpose).
  assert (Hchg : ViewMode_eqb SOLAR_SYSTEM (sceneViewMode sceneInit)
                 && option_string_eqb None (sceneFocus sceneInit) = false)
    by reflexivity.
  assert (Hlock : isTransitioning locked = true) by reflexivity.
  assert (Hctl : controls locked = Some Vector3.zero) by reflexivity.
  assert (Hctl2 : controls (sceneSystem w) = Some Vector3.zero) by reflexivity.
  assert (Hpmode : sceneViewMode parked = EARTH_FREE) by reflexivity.
  assert (Hplock : isTransitioning (sceneSystem parked) = true) by reflexivity.
  assert (Hpctl : controls (sceneSystem parked) = Some (Vector3.mk 170 0 0))
    by reflexivity.
  assert (Hplen : 5 <= Vector3.length
                         (Vector3.sub (camPosition (camera (sceneSystem parked)))
                                      (Vector3.mk 170 0 0)) <= 250).
  { apply Vector3_length_bounds; try lra. unfold Vector3.dot. simpl. nra. }
  assert (Hpphi : Spherical.EPS
                  <= Spherical.phi
                       (Spherical.setFromVector3
                          (Vector3.sub (camPosition (camera (sceneSystem parked)))
                                       (Vector3.mk 170 0 0)))
                  <= PI - Spherical.EPS).
  { apply Spherical_phi_safe; unfold Vector3.dot; simpl; nra. }
  assert (Hmode0 : sceneViewMode sceneInit = EARTH_FREE) by reflexivity.
  assert (Hpos0 : camPosition (camera locked) = Vector3.zero) by reflexivity.
  assert (Hday : EARTH_DAY <> EARTH_FREE) by discriminate.
  assert (Htruthy : truthy (Some "Mars"%string) = true) by reflexivity.
  assert (Hmars : focusTarget "Mars"
                    (earthContainerPosition
                       (HeliocentricSystem_useFrame SOLAR_SYSTEM (Some "Mars"%string) f
                          (sceneSystem w)))
                    (elapsedTime f)
                  = Some (mars, radius Mars)) by reflexivity.
  assert (Hnone : controls day = None) by reflexivity.
  assert (Hunmounted :
            controlsMounted (sceneViewMode (run sceneInit [SetView EARTH_DAY None]))
            = false) by reflexivity.
  assert (Hsolar : SOLAR_SYSTEM <> EARTH_FREE) by discriminate.
  split.
  { split; [exact Hchg |].
    split; [exact (proj1 (proj2 (proj2 (Tset sceneInit SOLAR_SYSTEM None Hchg)))) |].
    exact (proj2 (proj2 (proj2 (Tset sceneInit SOLAR_SYSTEM None Hchg)))). }
  split.
  { split; [exact Hlock |]. exact (proj1 (Trun None frames locked Hlock)). }
  split.
  { split; [exact Hpmode |]. split; [exact Hplock |]. split; [exact Hpctl |].
    destruct (Tframe f parked Hpmode Hplock) as (_ & _ & _ & Tin & _).
    exact (Tin (Vector3.mk 170 0 0) Hpctl Hplen Hpphi). }
  split.
  { split; [exact Hctl |]. split; [exact Hpos0 |].
    destruct (Tframe f sceneInit Hmode0 Hlock) as (_ & _ & _ & _ & Ton).
    exact (Ton Vector3.zero Hctl Hpos0). }
  split.
  { split; [exact Hday |].
    split; [exact (proj1 (Tread EARTH_DAY None f day true Hday)) |].
    exact (proj1 (Tchase EARTH_DAY None f day (or_introl eq_refl))). }
  split.
  { split; [exact Htruthy |].
    exact (Tfocus "Mars"%string f (sceneSystem w) Vector3.zero mars (radius Mars)
             Htruthy Hctl2 Hmars). }
  split.
  { split; [exact (proj1 (Tfree None locked Vector3.zero Hctl)) |].
    exact (proj1 (Tsolar (sceneSystem w) Vector3.zero Hctl2)). }
  split.
  { split; [exact Hnone |]. exact (proj1 (Tnone EARTH_DAY None day Hnone)). }
  split.
  { split; [exact Hunmounted |].
    exact (proj1 (Treach [SetView EARTH_DAY None] Hunmounted)). }
  exact (proj1 (Tpose SOLAR_SYSTEM (Some "Mars"%string) (sceneSystem w) Vector3.zero
                  Hctl2 Hsolar (fun _ => Htruthy))).
Defined.

(** What the timer does to a scene whose timer is pending. *)
Lemma step_TimeoutFires_pending (w : Scene) (d : nat) :
  pendingTimeout (sceneSystem w) = Some d ->
  step w TimeoutFires
  = mkScene (sceneViewMode w) (sceneFocus w)
      (transitionTimeout (sceneViewMode w) (sceneFocus w) (sceneSystem w))
      (sceneMoon w) (scenePlanets w) (sceneSun w).
Proof.
  intros H. cbn [step]. rewrite H. reflexivity.
Qed.

(** C5 as written fails outside EARTH_FREE, in both of its parts.

    The lock.  After the switch from the initial scene to the day view the
    lock is held and its timer is pending, the new default camera stands at
    (0, 50, 100); the first frame moves it all the same: the day-view branch
    writes the camera position, whose height becomes 5.  When the timer then
    fires the lock is released and the camera is left where that frame put
    it.

    The pose.  In the overview of the solar system the camera is brought to
    (0, 200, 300) by the pointer, Mars is focused and the timer fires: the
    camera is still at (0, 200, 300).  With the camera brought to
    (600, 400, 0) instead, the same change of focus and the timer leave it at
    (600, 400, 0).  After the window the mode and the focus are the same in
    both scenes and the camera is where it was, not on a pose of the mode. *)
Lemma day_view_moves_during_lock_and_focus_has_no_pose :
  let w := step sceneInit (SetView EARTH_DAY None) in
  let w1 := step w (RenderFrame (mkFrame 0.016 0.016)) in
  let w2 := step w1 TimeoutFires in
  let overview := run sceneInit [SetView SOLAR_SYSTEM None; TimeoutFires] in
  let up := Vector3.mk 0 1 0 in
  let origin := Vector3.mk 0 0 0 in
  let focusMars := [SetView SOLAR_SYSTEM (Some "Mars"%string); TimeoutFires] in
  let zoomed :=
    step overview (CameraMoved (mkCamera (Vector3.mk 0 200 300) up None) origin) in
  let turned :=
    step overview (CameraMoved (mkCamera (Vector3.mk 600 400 0) up None) origin) in
  let a := run zoomed focusMars in
  let b := run turned focusMars in
  (isTransitioning (sceneSystem w) = true
   /\ pendingTimeout (sceneSystem w1) = Some TRANSITION_DELAY_MS
   /\ isTransitioning (sceneSystem w1) = true
   /\ camPosition (camera (sceneSystem w)) = Vector3.mk 0 50 100
   /\ Vector3.y (camPosition (camera (sceneSystem w1))) = 5
   /\ camPosition (camera (sceneSystem w1)) <> camPosition (camera (sceneSystem w))
   /\ isTransitioning (sceneSystem w2) = false
   /\ camera (sceneSystem w2) = camera (sceneSystem w1))
  /\ (camPosition (camera (sceneSystem zoomed)) = Vector3.mk 0 200 300
      /\ sceneViewMode a = SOLAR_SYSTEM
      /\ sceneFocus a = Some "Mars"%string
      /\ isTransitioning (sceneSystem a) = false
      /\ camPosition (camera (sceneSystem a)) = Vector3.mk 0 200 300
      /\ camPosition (camera (sceneSystem turned)) = Vector3.mk 600 400 0
      /\ sceneViewMode b = SOLAR_SYSTEM
      /\ sceneFocus b = Some "Mars"%string
      /\ isTransitioning (sceneSystem b) = false
      /\ camPosition (camera (sceneSystem b)) = Vector3.mk 600 400 0
      /\ camPosition (camera (sceneSystem a)) <> camPosition (camera (sceneSystem b))).
Proof.
  intros w w1 w2 overview up origin focusMars zoomed turned a b.
  split.
  - assert (Hy : Vector3.y (camPosition (camera (sceneSystem w1))) = 5).
    { subst w1 w. cbn [step]. unfold renderFrame.
      cbn [sceneInit ViewMode_eqb andb sceneViewMode sceneFocus sceneSystem].
      exact (proj1 (useFrame_chase_height EARTH_DAY None _ _ (or_introl eq_refl))). }
    assert (Hpending : pendingTimeout (sceneSystem w1) = Some TRANSITION_DELAY_MS)
      by reflexivity.
    assert (Hnone : controls (sceneSystem w1) = None) by reflexivity.
    assert (Hw2 : sceneSystem w2
                  = transitionTimeout EARTH_DAY None (sceneSystem w1)).
    { unfold w2. rewrite (step_TimeoutFires_pending w1 _ Hpending). reflexivity. }
    split; [reflexivity |]. split; [exact Hpending |]. split; [reflexivity |].
    split; [reflexivity |]. split; [exact Hy |].
    split; [intros E; rewrite E in Hy; cbn in Hy; lra |].
    rewrite Hw2.
    split; [apply transitionTimeout_unlocks |].
    exact (proj1 (transitionTimeout_no_controls EARTH_DAY None _ Hnone)).
  - assert (Hmode : sceneViewMode overview = SOLAR_SYSTEM) by reflexivity.
    assert (Hfocus : forall (cam : Vec3) (w0 : Scene),
              sceneViewMode w0 = SOLAR_SYSTEM ->
              controls (sceneSystem w0) = Some origin ->
              camPosition (camera (sceneSystem w0)) = cam ->
              5 * 5 <= Vector3.dot cam cam <= 4000 * 4000 ->
              Vector3.y cam * Vector3.y cam <= 0.81 * Vector3.dot cam cam ->
              sceneFocus w0 = None ->
              sceneViewMode (run w0 focusMars) = SOLAR_SYSTEM
              /\ sceneFocus (run w0 focusMars) = Some "Mars"%string
              /\ isTransitioning (sceneSystem (run w0 focusMars)) = false
              /\ camPosition (camera (sceneSystem (run w0 focusMars))) = cam).
    { intros cam w0 Hm Hc Hp Hlen Hpolar Hf.
      assert (Hoff : Vector3.sub cam origin = cam).
      { destruct cam as [cx cy cz]. apply Vector3_ext; simpl; ring. }
      unfold run, focusMars. cbn [fold_left].
      rewrite (step_TimeoutFires_pending _ TRANSITION_DELAY_MS)
        by (cbn [step]; rewrite Hm, Hf; reflexivity).
      cbn [step]. rewrite Hm, Hf.
      cbn [ViewMode_eqb option_string_eqb andb sceneViewMode sceneFocus sceneSystem].
      split; [reflexivity |]. split; [reflexivity |].
      split; [apply transitionTimeout_unlocks |].
      unfold remountCamera. cbn [controlsMounted Bool.eqb].
      destruct (transitionTimeout_no_pose SOLAR_SYSTEM (Some "Mars"%string)
                  (HeliocentricSystem_useEffect (sceneSystem w0)) origin) as [Hcam _];
        [exact Hc | discriminate | reflexivity |].
      rewrite Hcam. cbn [HeliocentricSystem_useEffect camera].
      rewrite OrbitControls_update_in_range; rewrite ?Hp, ?Hoff.
      - reflexivity.
      - unfold minDistance. cbn. lra.
      - unfold minDistance, maxDistance. cbn [ViewMode_eqb truthy String.eqb negb].
        apply Vector3_length_bounds; try lra.
      - apply Spherical_phi_safe; lra. }
    destruct (Hfocus (Vector3.mk 0 200 300) zoomed) as (Ha1 & Ha2 & Ha3 & Ha4);
      try reflexivity; try (unfold Vector3.dot; simpl; lra).
    destruct (Hfocus (Vector3.mk 600 400 0) turned) as (Hb1 & Hb2 & Hb3 & Hb4);
      try reflexivity; try (unfold Vector3.dot; simpl; lra).
    fold a in Ha1, Ha2, Ha3, Ha4. fold b in Hb1, Hb2, Hb3, Hb4.
    split; [reflexivity |].
    split; [exact Ha1 |]. split; [exact Ha2 |]. split; [exact Ha3 |].
    split; [exact Ha4 |]. split; [reflexivity |].
    split; [exact Hb1 |]. split; [exact Hb2 |]. split; [exact Hb3 |].
    split; [exact Hb4 |].
    rewrite Ha4, Hb4. intros E. injection E as E1 _. lra.
Qed.

(* ================================================================== *)
(** * ShadowLab: the shadow length *)
(* ================================================================== *)

Lemma altitude_angle_range (h : R) :
  0 < h < 90 -> 0 < h * PI / 180 < PI / 2.
Proof.
  intros [H0 H90]. pose proof PI_RGT_0 as Hpi. split; nra.
Qed.

Lemma shadowLength_above_5 (h : R) :
  5 < h -> shadowLength h = 100 / tan (h * PI / 180).
Proof.
  intros H. unfold shadowLength.
  destruct (Rle_dec h 5) as [Hle | _]; [lra | reflexivity].
Qed.

Lemma shadowLength_at_45 : shadowLength 45 = 100.
Proof.
  rewrite shadowLength_above_5 by lra.
  replace (45 * PI / 180) with (PI / 4) by field.
  rewrite tan_PI4. field.
Qed.

Lemma shadowLength_low (h : R) : h <= 5 -> shadowLength h = 600.
Proof.
  intros H. unfold shadowLength.
  destruct (Rle_dec h 5) as [_ | Hn]; [reflexivity | contradiction].
Qed.

Lemma shadowLength_open_range (h : R) :
  5 < h < 90 ->
  cos (h * PI / 180) <> 0
  /\ 0 < tan (h * PI / 180)
  /\ 0 < shadowLength h < 100 / tan (5 * PI / 180).
Proof.
  intros [H5 H90].
  destruct (altitude_angle_range h) as [Ha0 Ha90]; [lra |].
  destruct (altitude_angle_range 5) as [Hb0 Hb90]; [lra |].
  pose proof PI_RGT_0 as Hpi.
  assert (Hcos : 0 < cos (h * PI / 180)) by (apply cos_gt_0; lra).
  assert (Htan : 0 < tan (h * PI / 180)) by (apply tan_gt_0; assumption).
  assert (Htan5 : 0 < tan (5 * PI / 180)) by (apply tan_gt_0; assumption).
  assert (Hinc : tan (5 * PI / 180) < tan (h * PI / 180))
    by (apply tan_increasing; nra).
  rewrite shadowLength_above_5 by exact H5.
  split; [lra |]. split; [exact Htan |]. split.
  - apply Rdiv_lt_0_compat; lra.
  - unfold Rdiv. apply Rmult_lt_compat_l; [lra |].
    apply Rinv_lt_contravar; [apply Rmult_lt_0_compat; assumption | exact Hinc].
Qed.

(** At 90 degrees the tangent of the reals has its pole; the total division
    of the reals returns 0 over it, the limit of the quotient. *)
Lemma shadowLength_at_90 : shadowLength 90 = 0.
Proof.
  rewrite shadowLength_above_5 by lra.
  replace (90 * PI / 180) with (PI / 2) by field.
  unfold tan. rewrite cos_PI2. unfold Rdiv. rewrite Rinv_0, Rmult_0_r, Rinv_0.
  ring.
Qed.

(** The value 600 set at 5 degrees and below is not an upper bound of the
    lengths above 5 degrees: at 6 degrees the quotient is already larger. *)
Lemma shadowLength_exceeds_600_at_6 : 600 < shadowLength 6.
Proof.
  rewrite shadowLength_above_5 by lra.
  set (a := 6 * PI / 180).
  pose proof PI_RGT_0 as Hpi0. pose proof PI_4 as Hpi4.
  assert (Ha0 : 0 < a) by (unfold a; lra).
  assert (Ha1 : a <= 2 / 15) by (unfold a; lra).
  assert (Hs0 : 0 < sin a) by (apply sin_gt_0; unfold a; lra).
  assert (Hs1 : sin a < a) by (apply sin_lt_x; exact Ha0).
  assert (Hc0 : 0 < cos a).
  { apply cos_gt_0; unfold a; lra. }
  assert (Hc1 : cos a <= 1) by apply COS_bound.
  pose proof (sin2_cos2 a) as Hsc. unfold Rsqr in Hsc.
  assert (Hc2 : 6 * sin a < cos a) by nra.
  assert (Ht : 0 < tan a) by (unfold tan; apply Rdiv_lt_0_compat; assumption).
  assert (Ht6 : tan a < 1 / 6).
  { unfold tan. apply Rmult_lt_reg_r with (cos a); [exact Hc0 |].
    unfold Rdiv. rewrite Rmult_assoc, Rinv_l by lra. lra. }
  apply Rmult_lt_reg_r with (tan a); [exact Ht |].
  unfold Rdiv. rewrite Rmult_assoc, Rinv_l by lra. lra.
Qed.

(** C8.  At an altitude of exactly 45 degrees the shadow length is 100, the
    height the quotient 100 / tan is taken of; at every altitude of 5 degrees
    or less it is the maximum 600; and over the rest of the slider range, up
    to 90 degrees, it is never negative: strictly between 5 and 90 degrees the
    tangent is defined (the cosine is not 0) and positive, and the length lies
    strictly between 0 and 100 / tan(5 degrees). *)
Theorem shadowLength_at_45_clamped_and_nonnegative :
  shadowLength 45 = 100
  /\ (forall h : R, h <= 5 -> shadowLength h = 600)
  /\ (forall h : R,
        5 < h < 90 ->
        cos (h * PI / 180) <> 0
        /\ 0 < tan (h * PI / 180)
        /\ 0 < shadowLength h < 100 / tan (5 * PI / 180))
  /\ (forall h : R, h <= 90 -> 0 <= shadowLength h).
Proof.
  split; [exact shadowLength_at_45 |].
  split; [exact shadowLength_low |].
  split; [exact shadowLength_open_range |].
  intros h H90.
  destruct (Rle_or_lt h 5) as [Hlow | Hhigh].
  - rewrite shadowLength_low by exact Hlow. lra.
  - destruct (Rle_lt_or_eq_dec h 90 H90) as [Hlt | Heq].
    + destruct (shadowLength_open_range h) as (_ & _ & Hpos & _); lra.
    + subst h. rewrite shadowLength_at_90. lra.
Qed.

Lemma shadowLength_at_45_clamped_and_nonnegative_witness :
  3 <= 5 /\ shadowLength 3 = 600
  /\ 5 < 60 < 90 /\ 0 < shadowLength 60
  /\ 60 <= 90 /\ 0 <= shadowLength 60.
Proof.
  destruct shadowLength_at_45_clamped_and_nonnegative as (_ & Tlow & Topen & Tall).
  assert (H3 : 3 <= 5) by lra.
  assert (H60 : 5 < 60 < 90) by lra.
  assert (H90 : 60 <= 90) by lra.
  split; [exact H3 |]. split; [exact (Tlow 3 H3) |].
  split; [exact H60 |].
  split; [exact (proj1 (proj2 (proj2 (Topen 60 H60)))) |].
  split; [exact H90 | exact (Tall 60 H90)].
Defined.

(* ================================================================== *)
(** * Retrograde rotation *)
(* ================================================================== *)

Lemma PlanetMesh_run_rotation_decreases (config : PlanetConfig) (fs : list Frame) :
  rotationSpeed config < 0 ->
  Forall (fun f => 0 < delta f) fs ->
  forall p,
    planetRotationY (PlanetMesh_run config fs p) <= planetRotationY p
    /\ (fs <> [] -> planetRotationY (PlanetMesh_run config fs p) < planetRotationY p).
Proof.
  intros Hneg. unfold PlanetMesh_run.
  induction fs as [| f fs IH]; intros Hpos p; simpl.
  - split; [lra | congruence].
  - inversion Hpos as [| ? ? Hf Hrest]; subst.
    destruct (IH Hrest (PlanetMesh_useFrame config f p)) as [IHle _].
    rewrite PlanetMesh_rotation_step in IHle.
    assert (rotationSpeed config * delta f < 0) by nra.
    split; [lra | intros _; lra].
Qed.

(** C9.  The frame callback advances a planet's spin by
    [rotationSpeed * delta] and computes its orbit angle as
    [startAngle + t * speed], with the same formula for either sign.  For a
    body with negative rotation speed and positive orbital speed, each frame
    with a positive delta strictly lowers the spin angle, every non-empty run
    of such frames ends strictly below where it began, and the orbit angle
    satisfies angle(t + dt) = angle(t) + speed * dt and strictly grows. *)
Theorem retrograde_rotation_decreases_orbit_increases :
  forall (config : PlanetConfig) (f : Frame) (p : PlanetState),
    rotationSpeed config < 0 ->
    0 < speed config ->
    0 < delta f ->
    planetRotationY (PlanetMesh_useFrame config f p)
    = planetRotationY p + rotationSpeed config * delta f
    /\ planetRotationY (PlanetMesh_useFrame config f p) < planetRotationY p
    /\ (forall fs : list Frame,
          Forall (fun g => 0 < delta g) fs ->
          fs <> [] ->
          planetRotationY (PlanetMesh_run config fs p) < planetRotationY p)
    /\ planetPosition (PlanetMesh_useFrame config f p)
       = Vector3.mk (cos (planetAngle config (elapsedTime f)) * distance config)
                    (Vector3.y (planetPosition p))
                    (sin (planetAngle config (elapsedTime f)) * distance config)
    /\ (forall t : R,
          planetAngle config (t + delta f)
          = planetAngle config t + speed config * delta f
          /\ planetAngle config t < planetAngle config (t + delta f)).
Proof.
  intros config f p Hrot Hspeed Hdelta.
  split; [apply PlanetMesh_rotation_step |].
  split; [rewrite PlanetMesh_rotation_step; nra |].
  split.
  { intros fs Hfs Hne.
    apply (PlanetMesh_run_rotation_decreases config fs Hrot Hfs p). exact Hne. }
  split; [reflexivity |].
  intros t. unfold planetAngle. split; [ring | nra].
Qed.

Lemma retrograde_planets :
  (rotationSpeed Venus < 0 /\ 0 < speed Venus)
  /\ (rotationSpeed Uranus < 0 /\ 0 < speed Uranus).
Proof.
  unfold Venus, Uranus, BASE_ROTATION_SPEED, BASE_ORBIT_SPEED; simpl.
  repeat split; lra.
Qed.

Lemma retrograde_rotation_decreases_orbit_increases_witness :
  rotationSpeed Venus < 0
  /\ 0 < speed Venus
  /\ 0 < delta (mkFrame 3 0.016)
  /\ planetRotationY (PlanetMesh_useFrame Venus (mkFrame 3 0.016) planetInit)
     < planetRotationY planetInit
  /\ planetAngle Venus 3 < planetAngle Venus (3 + delta (mkFrame 3 0.016)).
Proof.
  destruct retrograde_planets as [[Hrot Hspeed] _].
  assert (Hdelta : 0 < delta (mkFrame 3 0.016)) by (simpl; lra).
  pose proof (retrograde_rotation_decreases_orbit_increases
                Venus (mkFrame 3 0.016) planetInit Hrot Hspeed Hdelta) as T.
  split; [exact Hrot |]. split; [exact Hspeed |]. split; [exact Hdelta |].
  split; [exact (proj1 (proj2 T)) |].
  exact (proj2 (proj2 (proj2 (proj2 (proj2 T))) 3)).
Defined.

(* ================================================================== *)
(** * KaamosViewer: sunlight hours *)
(* ================================================================== *)

Lemma getSunlightHours_range (lat monthIndex : R) :
  0 <= getSunlightHours lat monthIndex <= 24.
Proof.
  unfold getSunlightHours.
  destruct (Rgt_dec _ 24) as [Hhi | Hhi];
    destruct (Rlt_dec _ 0) as [Hlo | Hlo]; lra.
Qed.

Lemma isKaamos_spec (hours : R) : isKaamos hours = true <-> hours = 0.
Proof.
  unfold isKaamos. destruct (Req_dec_T hours 0); split; congruence.
Qed.

Lemma isMidnightSun_spec (hours : R) : isMidnightSun hours = true <-> hours = 24.
Proof.
  unfold isMidnightSun. destruct (Req_dec_T hours 24); split; congruence.
Qed.

(** C10.  For every latitude and every month index (the indices 0 to 11
    among them) the sunlight hours lie in [0, 24]; the status line shows
    KAAMOS (Polar Night) exactly when they are 0 and MIDNIGHT SUN exactly
    when they are 24. *)
Theorem sunlight_hours_clamped_and_status :
  forall lat monthIndex : R,
    0 <= getSunlightHours lat monthIndex <= 24
    /\ (In "KAAMOS (Polar Night)"%string (statusText lat monthIndex)
        <-> getSunlightHours lat monthIndex = 0)
    /\ (In "MIDNIGHT SUN"%string (statusText lat monthIndex)
        <-> getSunlightHours lat monthIndex = 24).
Proof.
  intros lat monthIndex.
  split; [apply getSunlightHours_range |].
  unfold statusText.
  pose proof (isKaamos_spec (getSunlightHours lat monthIndex)) as HK.
  pose proof (isMidnightSun_spec (getSunlightHours lat monthIndex)) as HM.
  destruct (isKaamos (getSunlightHours lat monthIndex));
    destruct (isMidnightSun (getSunlightHours lat monthIndex)); simpl;
    split; split; intros H;
    try (apply HK; reflexivity); try (apply HM; reflexivity);
    try (left; reflexivity); try (right; left; reflexivity);
    repeat match goal with
           | H : _ \/ _ |- _ => destruct H
           | H : False |- _ => contradiction
           | H : _ = _ :> string |- _ => discriminate H
           end;
    try (apply HK in H; discriminate); try (apply HM in H; discriminate).
Qed.

(** Utsjoki (latitude 70): polar night in December, midnight sun in June. *)
Lemma utsjoki_december_and_june :
  statusText 70 11 = ["KAAMOS (Polar Night)"%string]
  /\ statusText 70 5 = ["MIDNIGHT SUN"%string].
Proof.
  assert (Hdec : getSunlightHours 70 11 = 0).
  { unfold getSunlightHours.
    replace ((11 - 5) / 12 * 2 * PI) with PI by field. rewrite cos_PI.
    destruct (Rgt_dec _ 24) as [Hhi | Hhi]; destruct (Rlt_dec _ 0) as [Hlo | Hlo]; lra. }
  assert (Hjun : getSunlightHours 70 5 = 24).
  { unfold getSunlightHours.
    replace ((5 - 5) / 12 * 2 * PI) with 0 by field. rewrite cos_0.
    destruct (Rgt_dec _ 24) as [Hhi | Hhi]; destruct (Rlt_dec _ 0) as [Hlo | Hlo]; lra. }
  unfold statusText. rewrite Hdec, Hjun. unfold isKaamos, isMidnightSun.
  split.
  - destruct (Req_dec_T 0 0) as [_ | N]; [| contradiction N; reflexivity].
    destruct (Req_dec_T 0 24) as [E | _]; [lra | reflexivity].
  - destruct (Req_dec_T 24 0) as [E | _]; [lra |].
    destruct (Req_dec_T 24 24) as [_ | N]; [reflexivity | contradiction N; reflexivity].
Qed.

(* ================================================================== *)
(** * The quiz service *)
(* ================================================================== *)

Section QuizLookup.

Local Open Scope string_scope.

Variable t : string.

(** The loop of [generateQuizQuestions] on the five keys, by the first key
    the lower-cased topic contains. *)
Lemma findTopic_cases :
  findTopic t (keysOf TOPIC_MAP) (getProperty TOPIC_MAP "default")
  = if includes t "kaamos" then Some KAAMOS_QUESTIONS
    else if includes t "polar" then Some KAAMOS_QUESTIONS
    else if includes t "shadow" then Some SHADOW_QUESTIONS
    else if includes t "incidence" then Some SHADOW_QUESTIONS
    else Some DEFAULT_QUESTIONS.
Proof.
  cbn [keysOf TOPIC_MAP map fst findTopic].
  destruct (includes t "kaamos"); [reflexivity |].
  destruct (includes t "polar"); [reflexivity |].
  destruct (includes t "shadow"); [reflexivity |].
  destruct (includes t "incidence"); [reflexivity |].
  destruct (includes t "default"); reflexivity.
Qed.

End QuizLookup.

Lemma question_sets_nonempty :
  KAAMOS_QUESTIONS <> [] /\ SHADOW_QUESTIONS <> [] /\ DEFAULT_QUESTIONS <> [].
Proof. repeat split; discriminate. Qed.

(** The service, by the first key the lower-cased topic contains. *)
Lemma generateQuizQuestionsWith_cases (lower : string -> string) (topic : string)
    (count : nat) :
  generateQuizQuestionsWith lower topic count
  = Resolved
      (if includes (lower topic) "kaamos" then Some KAAMOS_QUESTIONS
       else if includes (lower topic) "polar" then Some KAAMOS_QUESTIONS
       else if includes (lower topic) "shadow" then Some SHADOW_QUESTIONS
       else if includes (lower topic) "incidence" then Some SHADOW_QUESTIONS
       else Some DEFAULT_QUESTIONS).
Proof.
  unfold generateQuizQuestionsWith. rewrite findTopic_cases. reflexivity.
Qed.

(** On a topic written in ASCII the lower-casing of ASCII is all that
    matters. *)
Lemma generateQuizQuestionsWith_ascii (lower : string -> string) (topic : string)
    (count : nat) :
  lowersAscii lower ->
  isAscii topic = true ->
  generateQuizQuestionsWith lower topic count = generateQuizQuestions topic count.
Proof.
  intros Hlower Hascii. unfold generateQuizQuestionsWith, generateQuizQuestions.
  rewrite (Hlower topic Hascii). reflexivity.
Qed.

Lemma toLowerCase_lowersAscii : lowersAscii toLowerCase.
Proof. intros s _. reflexivity. Qed.

(** C7.  Whatever function on strings [toLowerCase] is, [generateQuizQuestions]
    resolves for every topic string and every count, never rejects, and the
    resolved value is one of the three question sets, none of which is
    empty.  A topic whose lower-case form contains kaamos or polar gets the
    Kaamos set; a topic whose lower-case form contains none of kaamos, polar,
    shadow and incidence (the fifth key, default, maps to the default set
    itself) gets the default set.  With a [toLowerCase] that lower-cases
    ASCII as JavaScript's does, the sample topic with kaamos and polar in it
    gets the Kaamos set and the unrelated one the default set. *)
Theorem generateQuizQuestions_total_nonempty :
  forall (lower : string -> string) (topic : string) (count : nat),
    (exists qs : list QuizQuestion,
        generateQuizQuestionsWith lower topic count = Resolved (Some qs)
        /\ qs <> []
        /\ (qs = KAAMOS_QUESTIONS \/ qs = SHADOW_QUESTIONS \/ qs = DEFAULT_QUESTIONS))
    /\ (includes (lower topic) "kaamos" = true
        \/ includes (lower topic) "polar" = true ->
        generateQuizQuestionsWith lower topic count = Resolved (Some KAAMOS_QUESTIONS))
    /\ (includes (lower topic) "kaamos" = false ->
        includes (lower topic) "polar" = false ->
        includes (lower topic) "shadow" = false ->
        includes (lower topic) "incidence" = false ->
        generateQuizQuestionsWith lower topic count
        = Resolved (Some DEFAULT_QUESTIONS))
    /\ (lowersAscii lower ->
        generateQuizQuestionsWith lower "kaamos polar night" count
        = Resolved (Some KAAMOS_QUESTIONS)
        /\ generateQuizQuestionsWith lower "unrelated xyz" count
           = Resolved (Some DEFAULT_QUESTIONS)).
Proof.
  intros lower topic count.
  destruct question_sets_nonempty as (HK & HS & HD).
  split; [| split; [| split]].
  - rewrite generateQuizQuestionsWith_cases.
    destruct (includes (lower topic) "kaamos"); [eauto 6 |].
    destruct (includes (lower topic) "polar"); [eauto 6 |].
    destruct (includes (lower topic) "shadow"); [eauto 6 |].
    destruct (includes (lower topic) "incidence"); eauto 6.
  - rewrite generateQuizQuestionsWith_cases. intros [H | H].
    + rewrite H. reflexivity.
    + rewrite H. destruct (includes (lower topic) "kaamos"); reflexivity.
  - rewrite generateQuizQuestionsWith_cases. intros H1 H2 H3 H4.
    rewrite H1, H2, H3, H4. reflexivity.
  - intros Hlower.
    rewrite !(generateQuizQuestionsWith_ascii lower _ count Hlower) by reflexivity.
    unfold generateQuizQuestions. rewrite !findTopic_cases. split; reflexivity.
Qed.

Lemma generateQuizQuestions_total_nonempty_witness :
  let topic := "The phenomenon of Kaamos and polar night in Finland"%string in
  let other := "The phenomenon of Midnight Sun in Finland"%string in
  (includes (toLowerCase topic) "kaamos" = true
   \/ includes (toLowerCase topic) "polar" = true)
  /\ generateQuizQuestionsWith toLowerCase topic 3 = Resolved (Some KAAMOS_QUESTIONS)
  /\ includes (toLowerCase other) "kaamos" = false
  /\ includes (toLowerCase other) "polar" = false
  /\ includes (toLowerCase other) "shadow" = false
  /\ includes (toLowerCase other) "incidence" = false
  /\ generateQuizQuestionsWith toLowerCase other 3 = Resolved (Some DEFAULT_QUESTIONS)
  /\ lowersAscii toLowerCase
  /\ generateQuizQuestionsWith toLowerCase "kaamos polar night" 3
     = Resolved (Some KAAMOS_QUESTIONS)
  /\ generateQuizQuestionsWith toLowerCase "unrelated xyz" 3
     = Resolved (Some DEFAULT_QUESTIONS).
Proof.
  intros topic other.
  assert (Hk : includes (toLowerCase topic) "kaamos" = true
               \/ includes (toLowerCase topic) "polar" = true)
    by (left; vm_compute; reflexivity).
  assert (H1 : includes (toLowerCase other) "kaamos" = false) by (vm_compute; reflexivity).
  assert (H2 : includes (toLowerCase other) "polar" = false) by (vm_compute; reflexivity).
  assert (H3 : includes (toLowerCase other) "shadow" = false) by (vm_compute; reflexivity).
  assert (H4 : includes (toLowerCase other) "incidence" = false)
    by (vm_compute; reflexivity).
  split; [exact Hk |].
  split; [exact (proj1 (proj2 (generateQuizQuestions_total_nonempty
                                 toLowerCase topic 3)) Hk) |].
  split; [exact H1 |]. split; [exact H2 |]. split; [exact H3 |]. split; [exact H4 |].
  split; [exact (proj1 (proj2 (proj2 (generateQuizQuestions_total_nonempty
                                        toLowerCase other 3)))
                   H1 H2 H3 H4) |].
  split; [exact toLowerCase_lowersAscii |].
  exact (proj2 (proj2 (proj2 (generateQuizQuestions_total_nonempty
                                toLowerCase topic 3)))
           toLowerCase_lowersAscii).
Defined.

(* ================================================================== *)
(** * Further properties of the kinematics *)
(* ================================================================== *)

Lemma earthPosition_dot (angle : R) :
  Vector3.dot (earthPosition angle) (earthPosition angle)
  = 52625 - 40000 * cos angle + 16275 * (cos angle * cos angle).
Proof.
  unfold Vector3.dot, earthPosition, FOCAL_OFFSET, SEMI_MAJOR_AXIS, SEMI_MINOR_AXIS.
  cbn [Vector3.x Vector3.y Vector3.z].
  pose proof (sin2_cos2 angle) as H. unfold Rsqr in H.
  apply Rminus_diag_uniq.
  match goal with
  | |- ?l - ?r = 0 =>
      replace (l - r)
        with (46225 * (sin angle * sin angle + cos angle * cos angle - 1)) by ring
  end.
  rewrite H. ring.
Qed.

Lemma earthPosition_distance_bounds (angle : R) :
  170 <= Vector3.length (earthPosition angle) <= 330.
Proof.
  apply Vector3_length_bounds; try lra.
  rewrite earthPosition_dot. pose proof (COS_bound angle) as [Hlo Hhi]. nra.
Qed.

(** X1.  Earth's distance from the Sun (the origin) is between 170 and 330
    at every orbit angle; 170 is reached at angle 0 and 330 at angle pi. *)
Theorem earth_sun_distance_range :
  forall angle : R,
    170 <= Vector3.length (earthPosition angle) <= 330
    /\ Vector3.length (earthPosition 0) = 170
    /\ Vector3.length (earthPosition PI) = 330.
Proof.
  intros angle.
  split; [apply earthPosition_distance_bounds |].
  split.
  - assert (E : Vector3.dot (earthPosition 0) (earthPosition 0) = 170 * 170)
      by (rewrite earthPosition_dot, cos_0; lra).
    unfold Vector3.length. unfold Vector3.dot in E. rewrite E.
    apply sqrt_square. lra.
  - assert (E : Vector3.dot (earthPosition PI) (earthPosition PI) = 330 * 330)
      by (rewrite earthPosition_dot, cos_PI; lra).
    unfold Vector3.length. unfold Vector3.dot in E. rewrite E.
    apply sqrt_square. lra.
Qed.

(** X2.  After any frames, a planet sits on the circle of radius [distance]
    around the Sun, in the plane y = 0 it was mounted in. *)
Theorem planet_stays_on_its_circle :
  forall (config : PlanetConfig) (earlier : list Frame) (f : Frame),
    0 <= distance config ->
    let p := PlanetMesh_useFrame config f (PlanetMesh_run config earlier planetInit) in
    Vector3.length (planetPosition p) = distance config
    /\ Vector3.y (planetPosition p) = 0.
Proof.
  intros config earlier f Hd p. subst p.
  assert (Hy : Vector3.y (planetPosition
                 (PlanetMesh_useFrame config f
                    (PlanetMesh_run config earlier planetInit))) = 0).
  { rewrite PlanetMesh_useFrame_y, PlanetMesh_run_y. reflexivity. }
  split; [| exact Hy].
  unfold Vector3.length. rewrite Hy.
  unfold PlanetMesh_useFrame. cbn [planetPosition Vector3.x Vector3.z].
  set (a := startAngle config + elapsedTime f * speed config).
  pose proof (sin2_cos2 a) as H. unfold Rsqr in H.
  replace (cos a * distance config * (cos a * distance config) + 0 * 0
           + sin a * distance config * (sin a * distance config))
    with (distance config * distance config * (sin a * sin a + cos a * cos a))
    by ring.
  rewrite H, Rmult_1_r.
  apply sqrt_square. exact Hd.
Qed.

Lemma planet_stays_on_its_circle_witness :
  0 <= distance Mars
  /\ Vector3.length
       (planetPosition
          (PlanetMesh_useFrame Mars (mkFrame 7 0.016)
             (PlanetMesh_run Mars [mkFrame 6.984 0.016] planetInit)))
     = distance Mars.
Proof.
  assert (H : 0 <= distance Mars) by (simpl; lra).
  split; [exact H |].
  exact (proj1 (planet_stays_on_its_circle Mars [mkFrame 6.984 0.016]
                  (mkFrame 7 0.016) H)).
Defined.

(* ================================================================== *)
(** * Further properties of the scene *)
(* ================================================================== *)

Lemma useFrame_prevEarthPos (viewMode : ViewMode) (focusedPlanet : option string)
    (f : Frame) (s : SystemState) :
  prevEarthPos (HeliocentricSystem_useFrame viewMode focusedPlanet f s)
  = earthContainerPosition (HeliocentricSystem_useFrame viewMode focusedPlanet f s).
Proof. frame_field. Qed.

Lemma transitionTimeout_motion (viewMode : ViewMode) (focusedPlanet : option string)
    (s : SystemState) :
  orbitAngle (transitionTimeout viewMode focusedPlanet s) = orbitAngle s
  /\ earthRotationY (transitionTimeout viewMode focusedPlanet s) = earthRotationY s
  /\ cloudsRotationY (transitionTimeout viewMode focusedPlanet s) = cloudsRotationY s
  /\ earthContainerPosition (transitionTimeout viewMode focusedPlanet s)
     = earthContainerPosition s
  /\ prevEarthPos (transitionTimeout viewMode focusedPlanet s) = prevEarthPos s.
Proof.
  unfold transitionTimeout.
  destruct (controls s); [| repeat split].
  destruct (ViewMode_eqb viewMode EARTH_FREE); [repeat split |].
  destruct (ViewMode_eqb viewMode SOLAR_SYSTEM && negb (truthy focusedPlanet));
    repeat split.
Qed.

Lemma remountCamera_motion (old new : ViewMode) (s : SystemState) :
  orbitAngle (remountCamera old new s) = orbitAngle s
  /\ earthRotationY (remountCamera old new s) = earthRotationY s
  /\ cloudsRotationY (remountCamera old new s) = cloudsRotationY s
  /\ earthContainerPosition (remountCamera old new s) = earthContainerPosition s
  /\ prevEarthPos (remountCamera old new s) = prevEarthPos s.
Proof.
  unfold remountCamera.
  destruct (Bool.eqb _ _); [repeat split |].
  destruct (controlsMounted new); repeat split.
Qed.

Lemma step_lockStep (w : Scene) (e : Event) : lockStep w -> lockStep (step w e).
Proof.
  unfold lockStep, cloudsSceneRotationY. intros (Hm & Hr & Hc & Hs & Hp & Hprev).
  destruct e as [vm fp | | f | cam target]; cbn [step].
  - destruct (ViewMode_eqb vm (sceneViewMode w) && option_string_eqb fp (sceneFocus w));
      [repeat split; assumption |].
    cbn [sceneSystem sceneMoon HeliocentricSystem_useEffect orbitAngle earthRotationY
         cloudsRotationY earthContainerPosition prevEarthPos].
    destruct (remountCamera_motion (sceneViewMode w) vm (sceneSystem w))
      as (E1 & E2 & E3 & E4 & E5).
    rewrite E1, E2, E3, E4, E5. repeat split; assumption.
  - destruct (pendingTimeout (sceneSystem w)); [| repeat split; assumption].
    cbn [sceneSystem sceneMoon].
    destruct (transitionTimeout_motion (sceneViewMode w) (sceneFocus w) (sceneSystem w))
      as (E1 & E2 & E3 & E4 & E5).
    rewrite E1, E2, E3, E4, E5. repeat split; assumption.
  - unfold renderFrame. cbn [sceneSystem sceneMoon].
    rewrite useFrame_prevEarthPos, useFrame_earthPosition, useFrame_orbitAngle,
      useFrame_earthRotationY, useFrame_cloudsRotationY, MoonMesh_useFrame_rotation.
    destruct (OrbitControls_useFrame_motion (sceneViewMode w) (sceneFocus w)
                (sceneSystem w)) as (-> & _ & _ & _ & -> & -> & _).
    rewrite Hm, Hr, Hc.
    unfold MOON_ORBIT_SPEED, EARTH_ROTATION_SPEED, EARTH_YEAR_SPEED,
      BASE_ROTATION_SPEED, BASE_ORBIT_SPEED.
    repeat split; try reflexivity; lra.
  - cbn [sceneSystem sceneMoon withCamera orbitAngle earthRotationY cloudsRotationY
         earthContainerPosition prevEarthPos].
    repeat split; assumption.
Qed.

(** X3.  In every scene the events can reach from the mounted component -
    view changes, timers, frames with any deltas and camera moves - the
    integrated angles are in fixed proportion: the Moon's orbit rotation is
    13.03571428571429 times Earth's orbit angle and the rotation of the Earth
    group 3.75 times the orbit angle.  The [rotation.y] of the cloud mesh is
    1.0625 times that of the Earth group; the mesh being a child of that
    group, the clouds are turned in the scene by the sum of the two, which
    is 2.0625 times the angle Earth is turned by and 7.734375 times the
    orbit angle.  The Earth container sits on the orbit at the current
    angle, with the tracker of the previous position equal to it. *)
Theorem reachable_scene_in_lock_step :
  forall es : list Event,
    let w := run sceneInit es in
    let s := sceneSystem w in
    lockStep w
    /\ cloudsSceneRotationY s = earthRotationY s + cloudsRotationY s
    /\ cloudsSceneRotationY s = 7.734375 * orbitAngle s.
Proof.
  intros es w s.
  assert (Hw : lockStep w).
  { subst w. unfold run.
    assert (H0 : lockStep sceneInit).
    { unfold lockStep, cloudsSceneRotationY, sceneInit. cbn.
      unfold earthPosition, SEMI_MAJOR_AXIS, FOCAL_OFFSET.
      rewrite cos_0, sin_0.
      repeat split; try lra; f_equal; lra. }
    revert H0. generalize sceneInit.
    induction es as [| e es IH]; intros w Hw; simpl.
    - exact Hw.
    - apply IH, step_lockStep, Hw. }
  split; [exact Hw |].
  destruct Hw as (_ & Hr & _ & Hs & _). fold s in Hr, Hs.
  split; [reflexivity |].
  rewrite Hs, Hr. lra.
Qed.

(* ================================================================== *)
(** * Further properties of the camera controller *)
(* ================================================================== *)

Lemma distanceTo_of_equal_offsets (a b c d : Vec3) :
  Vector3.sub a b = Vector3.sub c d ->
  Vector3.distanceTo a b = Vector3.distanceTo c d.
Proof.
  intros E. rewrite !distanceTo_as_length, E. reflexivity.
Qed.

(** One unlocked EARTH_FREE frame that starts within the drift bound, with
    the position tracker on Earth, moves camera and target along with Earth. *)
Lemma useFrame_earth_free_rides (focusedPlanet : option string) (f : Frame)
    (s : SystemState) (target : Vec3) :
  isTransitioning s = false ->
  controls s = Some target ->
  prevEarthPos s = earthContainerPosition s ->
  Vector3.distanceTo (camPosition (camera s)) (earthContainerPosition s)
  <= DRIFT_BOUND ->
  let s1 := HeliocentricSystem_useFrame EARTH_FREE focusedPlanet f s in
  Vector3.sub (camPosition (camera s1)) (earthContainerPosition s1)
  = Vector3.sub (camPosition (camera s)) (earthContainerPosition s)
  /\ (exists target1,
         controls s1 = Some target1
         /\ Vector3.sub (camPosition (camera s1)) target1
            = Vector3.sub (camPosition (camera s)) target
         /\ Vector3.sub target1 (earthContainerPosition s1)
            = Vector3.sub target (earthContainerPosition s)).
Proof.
  intros Hlock Hctl Hprev Hnear s1.
  destruct (useFrame_earth_free focusedPlanet f s target Hlock Hctl) as [Hcam Htg].
  fold s1 in Hcam, Htg.
  set (earth1 := earthContainerPosition s1) in *.
  set (posDelta := Vector3.sub earth1 (prevEarthPos s)) in *.
  assert (Hoff : Vector3.sub (Vector3.add (camPosition (camera s)) posDelta) earth1
                 = Vector3.sub (camPosition (camera s)) (earthContainerPosition s)).
  { unfold posDelta. rewrite Hprev.
    destruct (camPosition (camera s)) as [cx cy cz], earth1 as [ex ey ez],
      (earthContainerPosition s) as [px py pz].
    apply Vector3_ext; simpl; ring. }
  assert (Hd : Vector3.distanceTo (Vector3.add (camPosition (camera s)) posDelta) earth1
               <= DRIFT_BOUND).
  { rewrite (distanceTo_of_equal_offsets _ _ _ _ Hoff). exact Hnear. }
  rewrite (followEarth_follow _ _ _ _ Hd) in Hcam, Htg.
  cbn [fst snd] in Hcam, Htg. rewrite Hcam. cbn [camPosition].
  split; [exact Hoff |].
  exists (Vector3.add target posDelta). split; [exact Htg |].
  unfold posDelta. rewrite Hprev.
  destruct (camPosition (camera s)) as [cx cy cz], earth1 as [ex ey ez],
    (earthContainerPosition s) as [px py pz], target as [tx ty tz].
  split; apply Vector3_ext; simpl; ring.
Qed.

(** X4.  In EARTH_FREE outside a transition, with the controls mounted, the
    position tracker on Earth and the camera within the drift bound, any
    number of frames leaves the camera's offset from Earth, and its offset
    from the controls target, exactly as they were: the camera rides with
    Earth and the drift guard never re-snaps it. *)
Theorem earth_free_camera_rides_with_earth :
  forall (focusedPlanet : option string) (fs : list Frame) (s : SystemState)
         (target : Vec3),
    isTransitioning s = false ->
    controls s = Some target ->
    prevEarthPos s = earthContainerPosition s ->
    Vector3.distanceTo (camPosition (camera s)) (earthContainerPosition s)
    <= DRIFT_BOUND ->
    let s1 := HeliocentricSystem_run EARTH_FREE focusedPlanet fs s in
    Vector3.sub (camPosition (camera s1)) (earthContainerPosition s1)
    = Vector3.sub (camPosition (camera s)) (earthContainerPosition s)
    /\ (exists target1,
           controls s1 = Some target1
           /\ Vector3.sub (camPosition (camera s1)) target1
              = Vector3.sub (camPosition (camera s)) target).
Proof.
  intros focusedPlanet fs. unfold HeliocentricSystem_run.
  induction fs as [| f fs IH]; intros s target Hlock Hctl Hprev Hnear; simpl.
  - split; [reflexivity | exists target; split; [exact Hctl | reflexivity]].
  - destruct (useFrame_earth_free_rides focusedPlanet f s target Hlock Hctl Hprev Hnear)
      as (Hoff & target1 & Hctl1 & Htg1 & _).
    set (s1 := HeliocentricSystem_useFrame EARTH_FREE focusedPlanet f s) in *.
    assert (Hlock1 : isTransitioning s1 = false).
    { destruct (useFrame_lock EARTH_FREE focusedPlanet f s) as [E _].
      fold s1 in E. rewrite E. exact Hlock. }
    assert (Hprev1 : prevEarthPos s1 = earthContainerPosition s1)
      by apply useFrame_prevEarthPos.
    assert (Hnear1 : Vector3.distanceTo (camPosition (camera s1))
                       (earthContainerPosition s1) <= DRIFT_BOUND).
    { rewrite (distanceTo_of_equal_offsets _ _ _ _ Hoff). exact Hnear. }
    destruct (IH s1 target1 Hlock1 Hctl1 Hprev1 Hnear1) as (IHoff & target2 & IHctl & IHtg).
    split; [rewrite IHoff; exact Hoff |].
    exists target2. split; [exact IHctl | rewrite IHtg; exact Htg1].
Qed.

Lemma earth_free_camera_rides_with_earth_witness :
  let s := transitionTimeout EARTH_FREE None (sceneSystem sceneInit) in
  let fs := [mkFrame 0.016 0.016; mkFrame 0.5 2] in
  isTransitioning s = false
  /\ controls s = Some (earthContainerPosition (sceneSystem sceneInit))
  /\ prevEarthPos s = earthContainerPosition s
  /\ Vector3.distanceTo (camPosition (camera s)) (earthContainerPosition s)
     <= DRIFT_BOUND
  /\ Vector3.sub (camPosition (camera (HeliocentricSystem_run EARTH_FREE None fs s)))
       (earthContainerPosition (HeliocentricSystem_run EARTH_FREE None fs s))
     = Vector3.sub (camPosition (camera s)) (earthContainerPosition s).
Proof.
  intros s fs.
  assert (Hinit : controls (sceneSystem sceneInit) = Some Vector3.zero) by reflexivity.
  pose proof (transitionTimeout_earth_free None (sceneSystem sceneInit) Vector3.zero Hinit)
    as E.
  fold s in E.
  assert (Hlock : isTransitioning s = false) by (rewrite E; reflexivity).
  assert (Hctl : controls s = Some (earthContainerPosition (sceneSystem sceneInit)))
    by (rewrite E; reflexivity).
  assert (Hprev : prevEarthPos s = earthContainerPosition s) by (rewrite E; reflexivity).
  assert (Hnear : Vector3.distanceTo (camPosition (camera s)) (earthContainerPosition s)
                  <= DRIFT_BOUND).
  { rewrite E. cbn [camera camPosition earthContainerPosition].
    rewrite distanceTo_as_length.
    apply (Vector3_length_bounds _ 0 DRIFT_BOUND); unfold DRIFT_BOUND; try lra.
    unfold Vector3.dot. cbn. nra. }
  split; [exact Hlock |]. split; [exact Hctl |]. split; [exact Hprev |].
  split; [exact Hnear |].
  exact (proj1 (earth_free_camera_rides_with_earth None fs s _ Hlock Hctl Hprev Hnear)).
Defined.

Lemma lerp_offset (a v : Vec3) (alpha : R) :
  Vector3.sub (Vector3.lerp a v alpha) v
  = Vector3.multiplyScalar (Vector3.sub a v) (1 - alpha).
Proof.
  destruct a as [ax ay az], v as [vx vy vz].
  apply Vector3_ext; simpl; ring.
Qed.

Lemma length_multiplyScalar (a : Vec3) (k : R) :
  0 <= k ->
  Vector3.length (Vector3.multiplyScalar a k) = k * Vector3.length a.
Proof.
  intros Hk. unfold Vector3.length, Vector3.multiplyScalar.
  cbn [Vector3.x Vector3.y Vector3.z].
  replace (Vector3.x a * k * (Vector3.x a * k) + Vector3.y a * k * (Vector3.y a * k)
           + Vector3.z a * k * (Vector3.z a * k))
    with (k * k * (Vector3.x a * Vector3.x a + Vector3.y a * Vector3.y a
                   + Vector3.z a * Vector3.z a)) by ring.
  rewrite sqrt_mult_alt by nra.
  rewrite sqrt_square by exact Hk. reflexivity.
Qed.

(** Easing by [alpha] shrinks the distance to the goal by [1 - alpha]. *)
Lemma lerp_distance (a v : Vec3) (alpha : R) :
  alpha <= 1 ->
  Vector3.distanceTo (Vector3.lerp a v alpha) v
  = (1 - alpha) * Vector3.distanceTo a v.
Proof.
  intros H. rewrite !distanceTo_as_length, lerp_offset.
  apply length_multiplyScalar. lra.
Qed.

Lemma useFrame_system_top (focusedPlanet : option string) (f : Frame)
    (s : SystemState) :
  camera (HeliocentricSystem_useFrame SYSTEM_TOP focusedPlanet f s)
  = mkCamera (Vector3.lerp (camPosition (camera s))
                           (Vector3.mk (- FOCAL_OFFSET) 600 0) 0.05)
             (Vector3.mk 0 0 (-1))
             (Some (Vector3.mk (- FOCAL_OFFSET) 0 0)).
Proof. reflexivity. Qed.

(** X5.  In SYSTEM_TOP every frame, lock or no lock, moves the camera 5% of
    the way to (-80, 600, 0): after n frames its offset from that point is
    0.95^n times the offset it started with, and so is its distance; from the
    first frame on it looks at (-80, 0, 0) with up vector (0, 0, -1). *)
Theorem system_top_eases_to_overhead :
  forall (focusedPlanet : option string) (fs : list Frame) (s : SystemState),
    let top := Vector3.mk (- FOCAL_OFFSET) 600 0 in
    let s1 := HeliocentricSystem_run SYSTEM_TOP focusedPlanet fs s in
    Vector3.sub (camPosition (camera s1)) top
    = Vector3.multiplyScalar (Vector3.sub (camPosition (camera s)) top)
                             (0.95 ^ length fs)
    /\ Vector3.distanceTo (camPosition (camera s1)) top
       = 0.95 ^ length fs * Vector3.distanceTo (camPosition (camera s)) top
    /\ (fs <> [] ->
        camUp (camera s1) = Vector3.mk 0 0 (-1)
        /\ camLookAt (camera s1) = Some (Vector3.mk (- FOCAL_OFFSET) 0 0)).
Proof.
  intros focusedPlanet fs s top s1.
  assert (Hoff : Vector3.sub (camPosition (camera s1)) top
                 = Vector3.multiplyScalar (Vector3.sub (camPosition (camera s)) top)
                                          (0.95 ^ length fs)).
  { subst s1 top. unfold HeliocentricSystem_run. revert s.
    induction fs as [| f fs IH]; intros s.
    - cbn [fold_left length pow]. destruct (camPosition (camera s)) as [cx cy cz].
      apply Vector3_ext; cbn [Vector3.sub Vector3.multiplyScalar Vector3.x Vector3.y
                              Vector3.z]; ring.
    - cbn [fold_left length pow]. rewrite IH, useFrame_system_top. cbn [camPosition].
      rewrite lerp_offset.
      generalize (0.95 ^ length fs). intros k.
      destruct (camPosition (camera s)) as [cx cy cz].
      apply Vector3_ext; cbn [Vector3.sub Vector3.multiplyScalar Vector3.x Vector3.y
                              Vector3.z];
        replace (1 - 0.05) with 0.95 by lra; generalize 0.95; intros q; ring. }
  split; [exact Hoff |]. split.
  - rewrite !distanceTo_as_length, Hoff.
    apply length_multiplyScalar. apply pow_le. lra.
  - intros Hne. subst s1. unfold HeliocentricSystem_run.
    destruct fs as [| f fs] using rev_ind; [congruence |].
    rewrite fold_left_app. cbn [fold_left].
    rewrite useFrame_system_top. split; reflexivity.
Qed.

Lemma system_top_eases_to_overhead_witness :
  let fs := [mkFrame 0.016 0.016; mkFrame 0.032 0.016] in
  let s := sceneSystem (step sceneInit (SetView SYSTEM_TOP None)) in
  fs <> []
  /\ camUp (camera (HeliocentricSystem_run SYSTEM_TOP None fs s)) = Vector3.mk 0 0 (-1).
Proof.
  intros fs s.
  assert (H : fs <> []) by discriminate.
  split; [exact H |].
  exact (proj1 (proj2 (proj2 (system_top_eases_to_overhead None fs s)) H)).
Defined.

Lemma lerp_between (a v lo hi alpha : R) :
  0 <= alpha <= 1 -> lo <= a <= hi -> lo <= v <= hi ->
  lo <= a + (v - a) * alpha <= hi.
Proof. intros Ha Hx Hv. split; nra. Qed.

Lemma useFrame_system_auto (focusedPlanet : option string) (f : Frame)
    (s : SystemState) :
  camPosition (camera (HeliocentricSystem_useFrame SYSTEM_AUTO focusedPlanet f s))
  = Vector3.lerp (camPosition (camera s))
      (Vector3.mk (- FOCAL_OFFSET + 350 * cos (elapsedTime f * 0.1))
                  (100 + 40 * sin (elapsedTime f * 0.1))
                  (350 * sin (2 * (elapsedTime f * 0.1))))
      0.05.
Proof. reflexivity. Qed.

(** X6.  The point the cinematic sweep steers to lies in the box
    [-430, 270] x [60, 140] x [-350, 350] at every elapsed time, and a
    camera inside that box is still inside it after any number of
    SYSTEM_AUTO frames. *)
Theorem system_auto_stays_in_sweep_box :
  forall (focusedPlanet : option string) (fs : list Frame) (s : SystemState),
    inSweepBox (camPosition (camera s)) ->
    inSweepBox
      (camPosition (camera (HeliocentricSystem_run SYSTEM_AUTO focusedPlanet fs s))).
Proof.
  intros focusedPlanet fs. unfold HeliocentricSystem_run.
  induction fs as [| f fs IH]; intros s Hbox; simpl; [exact Hbox |].
  apply IH. rewrite useFrame_system_auto.
  unfold inSweepBox, FOCAL_OFFSET in *. destruct Hbox as (Hx & Hy & Hz).
  unfold Vector3.lerp. cbn [Vector3.x Vector3.y Vector3.z].
  pose proof (COS_bound (elapsedTime f * 0.1)) as Hc.
  pose proof (SIN_bound (elapsedTime f * 0.1)) as Hs.
  pose proof (SIN_bound (2 * (elapsedTime f * 0.1))) as Hs2.
  split; [| split]; apply lerp_between; lra.
Qed.

Lemma system_auto_stays_in_sweep_box_witness :
  let s := systemInit (mkCamera (Vector3.mk 0 100 100) (Vector3.mk 0 1 0) None) None in
  inSweepBox (camPosition (camera s))
  /\ inSweepBox
       (camPosition
          (camera (HeliocentricSystem_run SYSTEM_AUTO None
                     [mkFrame 1 0.016; mkFrame 1.016 0.016] s))).
Proof.
  intros s.
  assert (H : inSweepBox (camPosition (camera s))).
  { unfold inSweepBox, FOCAL_OFFSET. cbn. lra. }
  split; [exact H |].
  exact (system_auto_stays_in_sweep_box None _ s H).
Defined.

Lemma length_opposite (a : Vec3) :
  Vector3.length (Vector3.sub (Vector3.mk 0 0 0) a) = Vector3.length a.
Proof.
  unfold Vector3.length, Vector3.sub. cbn [Vector3.x Vector3.y Vector3.z].
  f_equal. ring.
Qed.

Lemma length_square (a : Vec3) :
  Vector3.length a * Vector3.length a = Vector3.dot a a.
Proof.
  unfold Vector3.length, Vector3.dot. apply sqrt_sqrt. nra.
Qed.

(** X7.  In the day and night views every frame, lock or no lock, puts the
    camera on the line through the Sun and Earth, 35 units from Earth's
    axis and 5 units above the orbital plane: on the Sun's side of Earth in
    EARTH_DAY, on the far side in EARTH_NIGHT.  Either way it is sqrt(1250)
    from Earth's centre, looks at Earth and has the up vector (0, 1, 0). *)
Theorem chase_cameras_flank_earth :
  forall (focusedPlanet : option string) (f : Frame) (s : SystemState),
    let day := HeliocentricSystem_useFrame EARTH_DAY focusedPlanet f s in
    let night := HeliocentricSystem_useFrame EARTH_NIGHT focusedPlanet f s in
    let earth := earthContainerPosition day in
    let d := Vector3.length earth in
    earthContainerPosition night = earth
    /\ 0 < 1 - 35 / d < 1
    /\ camPosition (camera day)
       = Vector3.add (Vector3.multiplyScalar earth (1 - 35 / d)) (Vector3.mk 0 5 0)
    /\ camPosition (camera night)
       = Vector3.add (Vector3.multiplyScalar earth (1 + 35 / d)) (Vector3.mk 0 5 0)
    /\ Vector3.distanceTo (camPosition (camera day)) earth = sqrt 1250
    /\ Vector3.distanceTo (camPosition (camera night)) earth = sqrt 1250
    /\ camLookAt (camera day) = Some earth
    /\ camLookAt (camera night) = Some earth
    /\ camUp (camera day) = Vector3.mk 0 1 0
    /\ camUp (camera night) = Vector3.mk 0 1 0.
Proof.
  intros focusedPlanet f s day night earth d.
  assert (Eday : earth = earthPosition (orbitAngle s + Rmin (delta f) MAX_STEP
                                                       * EARTH_YEAR_SPEED))
    by apply useFrame_earthPosition.
  assert (Enight : earthContainerPosition night = earth).
  { unfold night. rewrite useFrame_earthPosition. symmetry. exact Eday. }
  set (a := orbitAngle s + Rmin (delta f) MAX_STEP * EARTH_YEAR_SPEED) in *.
  destruct (earthPosition_distance_bounds a) as [Hlo Hhi].
  rewrite <- Eday in Hlo, Hhi. fold d in Hlo, Hhi.
  assert (Hd : d <> 0) by lra.
  assert (Hy : Vector3.y earth = 0) by (rewrite Eday; reflexivity).
  assert (Hsq : Vector3.x earth * Vector3.x earth + Vector3.z earth * Vector3.z earth
                = d * d).
  { unfold d. rewrite length_square. unfold Vector3.dot. rewrite Hy. ring. }
  assert (Hfrac : 0 < 35 / d < 1).
  { split.
    - apply Rdiv_lt_0_compat; lra.
    - apply Rmult_lt_reg_r with d; [lra |].
      unfold Rdiv. rewrite Rmult_assoc, Rinv_l by exact Hd. lra. }
  assert (Hday : camPosition (camera day)
                 = Vector3.add (Vector3.multiplyScalar earth (1 - 35 / d))
                               (Vector3.mk 0 5 0)).
  { unfold day, HeliocentricSystem_useFrame.
    cbn [ViewMode_eqb andb camera placeCamera camPosition].
    fold a. rewrite <- Eday.
    unfold Vector3.normalize. rewrite length_opposite. fold d.
    destruct (Req_dec_T d 0) as [E | _]; [contradiction |].
    destruct earth as [ex ey ez]. simpl in Hy. subst ey.
    apply Vector3_ext; simpl; field; exact Hd. }
  assert (Hnight : camPosition (camera night)
                   = Vector3.add (Vector3.multiplyScalar earth (1 + 35 / d))
                                 (Vector3.mk 0 5 0)).
  { unfold night, HeliocentricSystem_useFrame.
    cbn [ViewMode_eqb andb camera placeCamera camPosition].
    fold a. rewrite <- Eday.
    unfold Vector3.normalize. rewrite length_opposite. fold d.
    destruct (Req_dec_T d 0) as [E | _]; [contradiction |].
    destruct earth as [ex ey ez]. simpl in Hy. subst ey.
    apply Vector3_ext; simpl; field; exact Hd. }
  assert (Hdist : forall k : R,
             k * k = (35 / d) * (35 / d) ->
             Vector3.distanceTo
               (Vector3.add (Vector3.multiplyScalar earth (1 + k)) (Vector3.mk 0 5 0))
               earth
             = sqrt 1250).
  { intros k Hk. unfold Vector3.distanceTo. f_equal.
    unfold Vector3.distanceToSquared, Vector3.add, Vector3.multiplyScalar.
    cbn [Vector3.x Vector3.y Vector3.z]. rewrite Hy.
    replace ((Vector3.x earth * (1 + k) + 0 - Vector3.x earth)
             * (Vector3.x earth * (1 + k) + 0 - Vector3.x earth)
             + (0 * (1 + k) + 5 - 0) * (0 * (1 + k) + 5 - 0)
             + (Vector3.z earth * (1 + k) + 0 - Vector3.z earth)
               * (Vector3.z earth * (1 + k) + 0 - Vector3.z earth))
      with (k * k * (Vector3.x earth * Vector3.x earth
                     + Vector3.z earth * Vector3.z earth) + 25) by ring.
    rewrite Hsq, Hk. field. exact Hd. }
  split; [exact Enight |].
  split; [lra |].
  split; [exact Hday |].
  split; [exact Hnight |].
  split.
  { rewrite Hday. replace (1 - 35 / d) with (1 + - (35 / d)) by ring.
    apply Hdist. ring. }
  split; [rewrite Hnight; apply Hdist; ring |].
  unfold day, night, HeliocentricSystem_useFrame.
  cbn [ViewMode_eqb andb camera placeCamera camLookAt camUp].
  fold a. rewrite <- Eday.
  repeat split.
Qed.

Lemma selector_names_resolve (n : string) (currentEarthPos : Vec3) (t : R) :
  In n PLANET_SELECTOR ->
  exists targetPos targetRadius,
    focusTarget n currentEarthPos t = Some (targetPos, targetRadius).
Proof.
  unfold PLANET_SELECTOR. simpl.
  intros [<- | [<- | [<- | [<- | [<- | [<- | [<- | [<- | []]]]]]]]];
    unfold focusTarget; simpl; eauto.
Qed.

Lemma find_unknown_planet (n : string) :
  (forall p, In p PLANETS -> String.eqb (name p) n = false) ->
  find (fun p => String.eqb (name p) n) PLANETS = None.
Proof.
  intros H. induction PLANETS as [| p ps IH]; simpl; [reflexivity |].
  rewrite (H p) by (left; reflexivity).
  apply IH. intros q Hq. apply H. right. exact Hq.
Qed.

(** X8.  Every name of the Planetary Focus panel resolves to a target.  A
    focus name that is neither Earth nor the name of an entry of PLANETS
    resolves to none, and then the SOLAR_SYSTEM frame leaves the camera and
    the controls exactly as they were. *)
Theorem focus_names_resolve_or_leave_camera :
  (forall (n : string) (currentEarthPos : Vec3) (t : R),
      In n PLANET_SELECTOR ->
      exists targetPos targetRadius,
        focusTarget n currentEarthPos t = Some (targetPos, targetRadius))
  /\ (forall (n : string) (f : Frame) (s : SystemState),
        String.eqb n "Earth" = false ->
        (forall p, In p PLANETS -> String.eqb (name p) n = false) ->
        let s1 := HeliocentricSystem_useFrame SOLAR_SYSTEM (Some n) f s in
        camera s1 = camera s /\ controls s1 = controls s).
Proof.
  split; [exact selector_names_resolve |].
  intros n f s Hearth Hplanets s1. subst s1.
  assert (Hnone : forall earth t, focusTarget n earth t = None).
  { intros earth t. unfold focusTarget.
    rewrite Hearth, (find_unknown_planet n Hplanets). reflexivity. }
  unfold HeliocentricSystem_useFrame.
  cbn [ViewMode_eqb andb].
  destruct (truthy (Some n)); [| split; reflexivity].
  destruct (controls s) as [target |]; [| split; reflexivity].
  rewrite Hnone. split; reflexivity.
Qed.

Lemma focus_names_resolve_or_leave_camera_witness :
  In "Saturn"%string PLANET_SELECTOR
  /\ (exists targetPos targetRadius,
        focusTarget "Saturn" (earthPosition 0) 3 = Some (targetPos, targetRadius))
  /\ String.eqb "Pluto" "Earth" = false
  /\ camera (HeliocentricSystem_useFrame SOLAR_SYSTEM (Some "Pluto"%string)
               (mkFrame 3 0.016) (sceneSystem sceneInit))
     = camera (sceneSystem sceneInit).
Proof.
  destruct focus_names_resolve_or_leave_camera as [Tres Tnone].
  assert (Hin : In "Saturn"%string PLANET_SELECTOR) by (simpl; auto 10).
  assert (He : String.eqb "Pluto" "Earth" = false) by reflexivity.
  assert (Hp : forall p, In p PLANETS -> String.eqb (name p) "Pluto" = false).
  { unfold PLANETS. simpl.
    intros p [<- | [<- | [<- | [<- | [<- | [<- | [<- | []]]]]]]]; reflexivity. }
  split; [exact Hin |].
  split; [exact (Tres "Saturn"%string (earthPosition 0) 3 Hin) |].
  split; [exact He |].
  exact (proj1 (Tnone "Pluto"%string (mkFrame 3 0.016) (sceneSystem sceneInit) He Hp)).
Defined.

(** X9.  In SOLAR_SYSTEM with a focus from the panel and the controls
    mounted, a frame moves the controls target one tenth of the way to the
    focused body: its distance from the body's position in that frame
    becomes 0.9 times what it was, and the camera is turned to the new
    target. *)
Theorem planet_focus_eases_target :
  forall (n : string) (f : Frame) (s : SystemState) (target : Vec3),
    In n PLANET_SELECTOR ->
    controls s = Some target ->
    let s1 := HeliocentricSystem_useFrame SOLAR_SYSTEM (Some n) f s in
    exists targetPos targetRadius,
      focusTarget n (earthContainerPosition s1) (elapsedTime f)
      = Some (targetPos, targetRadius)
      /\ controls s1 = Some (Vector3.lerp target targetPos 0.1)
      /\ Vector3.distanceTo (Vector3.lerp target targetPos 0.1) targetPos
         = 0.9 * Vector3.distanceTo target targetPos
      /\ camLookAt (camera s1) = Some (Vector3.lerp target targetPos 0.1).
Proof.
  intros n f s target Hin Hctl s1.
  destruct (selector_names_resolve n (earthContainerPosition s1) (elapsedTime f) Hin)
    as (targetPos & targetRadius & Hres).
  exists targetPos, targetRadius.
  split; [exact Hres |].
  assert (Htruthy : truthy (Some n) = true).
  { unfold PLANET_SELECTOR in Hin. simpl in Hin.
    destruct Hin as [<- | [<- | [<- | [<- | [<- | [<- | [<- | [<- | []]]]]]]]];
      reflexivity. }
  subst s1. rewrite useFrame_earthPosition in Hres.
  unfold HeliocentricSystem_useFrame.
  cbn [ViewMode_eqb andb]. rewrite Htruthy, Hctl.
  unfold earthPosition in Hres |- *.
  rewrite Hres. unfold trackFocus, OrbitControls_update.
  cbn [camera controls placeCamera camLookAt].
  split; [reflexivity |].
  split; [| reflexivity].
  rewrite lerp_distance by lra. lra.
Qed.

Lemma planet_focus_eases_target_witness :
  let s := sceneSystem (step sceneInit (SetView SOLAR_SYSTEM (Some "Mars"%string))) in
  In "Mars"%string PLANET_SELECTOR
  /\ controls s = Some Vector3.zero
  /\ exists targetPos targetRadius,
       focusTarget "Mars"
         (earthContainerPosition
            (HeliocentricSystem_useFrame SOLAR_SYSTEM (Some "Mars"%string)
               (mkFrame 2 0.016) s)) 2
       = Some (targetPos, targetRadius)
       /\ controls (HeliocentricSystem_useFrame SOLAR_SYSTEM (Some "Mars"%string)
                      (mkFrame 2 0.016) s)
          = Some (Vector3.lerp Vector3.zero targetPos 0.1).
Proof.
  intros s.
  assert (Hin : In "Mars"%string PLANET_SELECTOR) by (simpl; auto 10).
  assert (Hctl : controls s = Some Vector3.zero) by reflexivity.
  split; [exact Hin |]. split; [exact Hctl |].
  destruct (planet_focus_eases_target "Mars"%string (mkFrame 2 0.016) s Vector3.zero
              Hin Hctl) as (P & r & H1 & H2 & _).
  exists P, r. split; [exact H1 | exact H2].
Defined.

(* ================================================================== *)
(** * The control overlay *)
(* ================================================================== *)

Lemma step_keeps_props (w : Scene) (e : Event) :
  match e with
  | SetView _ _ => True
  | _ => sceneViewMode (step w e) = sceneViewMode w
         /\ sceneFocus (step w e) = sceneFocus w
  end.
Proof.
  destruct e as [vm fp | | f | cam target]; cbn [step]; [exact I | | |].
  - destruct (pendingTimeout (sceneSystem w)); split; reflexivity.
  - split; reflexivity.
  - split; reflexivity.
Qed.

Lemma step_SetView_props (w : Scene) (vm : ViewMode) (fp : option string) :
  (sceneViewMode (step w (SetView vm fp)) = vm
   /\ sceneFocus (step w (SetView vm fp)) = fp)
  \/ step w (SetView vm fp) = w.
Proof.
  cbn [step].
  destruct (ViewMode_eqb vm (sceneViewMode w) && option_string_eqb fp (sceneFocus w));
    [right; reflexivity | left; split; reflexivity].
Qed.

Lemma ViewMode_eqb_eq (a b : ViewMode) : ViewMode_eqb a b = true -> a = b.
Proof. destruct a, b; simpl; congruence. Qed.

Lemma existsb_selector (p : string) :
  existsb (String.eqb p) PLANET_SELECTOR = true -> In p PLANET_SELECTOR.
Proof.
  intros H. apply existsb_exists in H. destruct H as (q & Hq & E).
  apply String.eqb_eq in E. subst q. exact Hq.
Qed.

Lemma react_focusInvariant (w : Scene) (i : Input) :
  focusInvariant w -> focusInvariant (react w i).
Proof.
  intros Hinv. destruct i as [b | | f]; cbn [react].
  - destruct (rendered w b) eqn:Hr; [| exact Hinv].
    destruct (step_SetView_props w
                (match onClick w b with SetView vm _ => vm | _ => EARTH_FREE end)
                (match onClick w b with SetView _ fp => fp | _ => None end))
      as [[Hvm Hfp] | Hsame];
      destruct b; cbn [onClick] in *;
      try (rewrite Hsame; exact Hinv);
      unfold focusInvariant; rewrite Hvm, Hfp;
      try (split; [reflexivity | left; reflexivity]).
    + cbn [rendered] in Hr. apply andb_prop in Hr. destruct Hr as [Hmode Hsel].
      apply ViewMode_eqb_eq in Hmode. apply existsb_selector in Hsel.
      split; [rewrite Hmode; reflexivity |].
      right. split; [exact Hmode |]. exists p. split; [reflexivity | exact Hsel].
    + split; [exact (proj1 Hinv) | left; reflexivity].
  - pose proof (step_keeps_props w TimeoutFires) as [Hvm Hfp].
    unfold focusInvariant. rewrite Hvm, Hfp. exact Hinv.
  - pose proof (step_keeps_props w (RenderFrame f)) as [Hvm Hfp].
    unfold focusInvariant. rewrite Hvm, Hfp. exact Hinv.
Qed.

Lemma react_controlsInvariant (w : Scene) (i : Input) :
  controlsInvariant w -> controlsInvariant (react w i).
Proof.
  intros Hinv. destruct i as [b | | f]; cbn [react].
  - destruct (rendered w b); [apply step_controlsInvariant |]; exact Hinv.
  - apply step_controlsInvariant, Hinv.
  - apply step_controlsInvariant, Hinv.
Qed.

(** X10.  Whatever buttons are clicked, timers fire and frames render after
    the component mounts, the view mode is one of EARTH_FREE, SOLAR_SYSTEM,
    EARTH_DAY and EARTH_NIGHT - the overlay has no way into SYSTEM_TOP or
    SYSTEM_AUTO - and a planet is focused only in SOLAR_SYSTEM and only under
    a name of the focus panel, which resolves to a target; the orbit controls
    are mounted exactly in EARTH_FREE and SOLAR_SYSTEM. *)
Theorem overlay_reaches_four_modes :
  forall inputs : list Input,
    let w := session inputs in
    sceneViewMode w <> SYSTEM_TOP
    /\ sceneViewMode w <> SYSTEM_AUTO
    /\ (forall p,
          sceneFocus w = Some p ->
          sceneViewMode w = SOLAR_SYSTEM
          /\ In p PLANET_SELECTOR
          /\ forall currentEarthPos t, focusTarget p currentEarthPos t <> None)
    /\ controlsPresent (sceneSystem w) = controlsMounted (sceneViewMode w).
Proof.
  intros inputs w.
  assert (Hinv : focusInvariant w /\ controlsInvariant w).
  { subst w. unfold session.
    assert (H0 : focusInvariant sceneInit /\ controlsInvariant sceneInit).
    { split; [| exact sceneInit_controlsInvariant].
      split; [reflexivity | left; reflexivity]. }
    revert H0. generalize sceneInit.
    induction inputs as [| i inputs IH]; intros w0 [Hf Hc]; simpl.
    - split; assumption.
    - apply IH. split; [apply react_focusInvariant | apply react_controlsInvariant];
        assumption. }
  destruct Hinv as [[Hsel Hfocus] Hctl].
  split; [intros E; rewrite E in Hsel; discriminate |].
  split; [intros E; rewrite E in Hsel; discriminate |].
  split; [| exact Hctl].
  intros p Hp.
  destruct Hfocus as [Hnone | (Hmode & q & Hq & Hin)]; [congruence |].
  assert (q = p) by congruence. subst q.
  split; [exact Hmode |]. split; [exact Hin |].
  intros earth t Hnone.
  destruct (selector_names_resolve p earth t Hin) as (P & r & Hres).
  congruence.
Qed.

Lemma overlay_reaches_four_modes_witness :
  let w := session [Click SolarSystemButton; Click (PlanetButton "Jupiter");
                    Render (mkFrame 0.016 0.016)] in
  sceneFocus w = Some "Jupiter"%string
  /\ sceneViewMode w = SOLAR_SYSTEM
  /\ In "Jupiter"%string PLANET_SELECTOR.
Proof.
  intros w.
  assert (H : sceneFocus w = Some "Jupiter"%string) by reflexivity.
  split; [exact H |].
  destruct (overlay_reaches_four_modes
              [Click SolarSystemButton; Click (PlanetButton "Jupiter");
               Render (mkFrame 0.016 0.016)]) as (_ & _ & T & _).
  destruct (T "Jupiter"%string H) as (Hm & Hi & _).
  split; [exact Hm | exact Hi].
Defined.

(* ================================================================== *)
(** * Shading *)
(* ================================================================== *)

Lemma smoothstep_range (edge0 edge1 d : R) :
  0 <= Glsl.smoothstep edge0 edge1 d <= 1.
Proof.
  rewrite smoothstep_unfold.
  pose proof (clamp01_range (bandRatio edge0 edge1 d)) as [H0 H1].
  set (t := Glsl.clamp (bandRatio edge0 edge1 d) 0 1) in *.
  unfold hermite. split.
  - apply Rmult_le_pos; [apply Rmult_le_pos |]; lra.
  - assert (E : 1 - t * t * (3 - 2 * t) = (1 - t) * (1 - t) * (1 + 2 * t)) by ring.
    assert (0 <= (1 - t) * (1 - t) * (1 + 2 * t))
      by (apply Rmult_le_pos; [apply Rmult_le_pos |]; lra).
    lra.
Qed.

(** One colour channel of the Moon shader. *)
Lemma moon_channel (tex d : R) :
  GlslVec.mix1 (tex * 0.02) (tex * (Rmax d 0.0 + 0.1)) (moonDayFactor d)
  = tex * (0.02 + (Rmax d 0.0 + 0.08) * moonDayFactor d).
Proof.
  unfold GlslVec.mix1.
  replace 0.1 with (0.02 + 0.08) by lra.
  generalize 0.02 0.08 (Rmax d 0.0) (moonDayFactor d). intros a b m k. ring.
Qed.

Lemma moon_gain_monotone (d1 d2 : R) :
  d1 <= d2 ->
  (Rmax d1 0.0 + 0.08) * moonDayFactor d1 <= (Rmax d2 0.0 + 0.08) * moonDayFactor d2.
Proof.
  intros H.
  pose proof (smoothstep_range (-0.02) 0.02 d1) as [Hs1 _].
  pose proof (smoothstep_monotone (-0.02) 0.02 moon_band d1 d2 H) as Hs.
  fold (moonDayFactor d1) in Hs, Hs1. fold (moonDayFactor d2) in Hs.
  assert (Hm : Rmax d1 0.0 <= Rmax d2 0.0).
  { unfold Rmax. repeat destruct Rle_dec; lra. }
  assert (H0 : 0 <= Rmax d1 0.0) by (unfold Rmax; destruct Rle_dec; lra).
  apply Rmult_le_compat; lra.
Qed.

(** X11.  For a texel with no negative channel the Moon shader is never
    darker than the earthshine floor of 0.02 times the texel; at dot products
    of -0.02 and below it is exactly that floor, at 0.02 and above it is the
    texel times (dot + 0.1); and every channel grows, or stays, as the dot
    product grows. *)
Theorem moon_shading_floor_and_monotone :
  forall texColor : Vec3,
    GlslVec.le (Vector3.mk 0 0 0) texColor ->
    (forall d : R,
        GlslVec.le (GlslVec.scale texColor 0.02) (moonFragmentShader texColor d))
    /\ (forall d : R,
          d <= -0.02 -> moonFragmentShader texColor d = GlslVec.scale texColor 0.02)
    /\ (forall d : R,
          0.02 <= d ->
          moonFragmentShader texColor d = GlslVec.scale texColor (d + 0.1))
    /\ (forall d1 d2 : R,
          d1 <= d2 ->
          GlslVec.le (moonFragmentShader texColor d1) (moonFragmentShader texColor d2)).
Proof.
  intros [tx ty tz] (Hx & Hy & Hz). cbn [Vector3.x Vector3.y Vector3.z] in *.
  assert (Hshape : forall d,
             moonFragmentShader (Vector3.mk tx ty tz) d
             = Vector3.mk (tx * (0.02 + (Rmax d 0.0 + 0.08) * moonDayFactor d))
                          (ty * (0.02 + (Rmax d 0.0 + 0.08) * moonDayFactor d))
                          (tz * (0.02 + (Rmax d 0.0 + 0.08) * moonDayFactor d))).
  { intros d. unfold moonFragmentShader, GlslVec.mix, GlslVec.scale,
      Vector3.multiplyScalar. cbn [Vector3.x Vector3.y Vector3.z].
    fold (moonDayFactor d). rewrite !moon_channel. reflexivity. }
  assert (Hgain0 : forall d, 0 <= (Rmax d 0.0 + 0.08) * moonDayFactor d).
  { intros d. pose proof (smoothstep_range (-0.02) 0.02 d) as [Hs _].
    fold (moonDayFactor d) in Hs.
    assert (0 <= Rmax d 0.0) by (unfold Rmax; destruct Rle_dec; lra).
    apply Rmult_le_pos; lra. }
  split; [| split; [| split]].
  - intros d. rewrite Hshape. pose proof (Hgain0 d).
    unfold GlslVec.le, GlslVec.scale, Vector3.multiplyScalar.
    cbn [Vector3.x Vector3.y Vector3.z]. repeat split; nra.
  - intros d Hd. rewrite Hshape.
    unfold moonDayFactor. rewrite (smoothstep_below _ _ moon_band d Hd).
    unfold GlslVec.scale, Vector3.multiplyScalar. cbn [Vector3.x Vector3.y Vector3.z].
    f_equal; nra.
  - intros d Hd. rewrite Hshape.
    unfold moonDayFactor. rewrite (smoothstep_above _ _ moon_band d Hd).
    rewrite Rmax_left by lra.
    unfold GlslVec.scale, Vector3.multiplyScalar. cbn [Vector3.x Vector3.y Vector3.z].
    f_equal; nra.
  - intros d1 d2 Hd. rewrite !Hshape. pose proof (moon_gain_monotone d1 d2 Hd).
    unfold GlslVec.le. cbn [Vector3.x Vector3.y Vector3.z]. repeat split; nra.
Qed.

Lemma moon_shading_floor_and_monotone_witness :
  GlslVec.le (Vector3.mk 0 0 0) (Vector3.mk 0.5 0.5 0.4)
  /\ moonFragmentShader (Vector3.mk 0.5 0.5 0.4) (-0.3)
     = GlslVec.scale (Vector3.mk 0.5 0.5 0.4) 0.02
  /\ GlslVec.le (moonFragmentShader (Vector3.mk 0.5 0.5 0.4) (-0.3))
                (moonFragmentShader (Vector3.mk 0.5 0.5 0.4) 0.7).
Proof.
  assert (H : GlslVec.le (Vector3.mk 0 0 0) (Vector3.mk 0.5 0.5 0.4)).
  { unfold GlslVec.le. cbn. lra. }
  destruct (moon_shading_floor_and_monotone (Vector3.mk 0.5 0.5 0.4) H)
    as (_ & Tnight & _ & Tmono).
  split; [exact H |].
  split; [apply Tnight; lra | apply Tmono; lra].
Defined.

Lemma sunset_band : 0.0 < 0.25.
Proof. lra. Qed.

Lemma earthSunsetColor_outside (specularStrength d : R) :
  0.25 <= Rabs d -> earthSunsetColor specularStrength d = Vector3.mk 0 0 0.
Proof.
  intros H. unfold earthSunsetColor.
  rewrite (smoothstep_above _ _ sunset_band _ H).
  unfold GlslVec.scale, Vector3.multiplyScalar. cbn [Vector3.x Vector3.y Vector3.z].
  f_equal; lra.
Qed.

Lemma add_zero_r (a : Vec3) : Vector3.add a (Vector3.mk 0 0 0) = a.
Proof. destruct a. apply Vector3_ext; simpl; ring. Qed.

Lemma mix_at_0 (x y : Vec3) : GlslVec.mix x y 0 = x.
Proof. destruct x, y. apply Vector3_ext; unfold GlslVec.mix, GlslVec.mix1; simpl; ring. Qed.

Lemma mix_at_1 (x y : Vec3) : GlslVec.mix x y 1 = y.
Proof. destruct x, y. apply Vector3_ext; unfold GlslVec.mix, GlslVec.mix1; simpl; ring. Qed.

(** X12.  The Earth shader on the two sides of the twilight zone.  At dot
    products of -0.25 and below the colour is the night texel alone, each
    channel cut by 0.2, floored at 0 and scaled by (6, 4.5, 3): no day
    texel, no specular glint, no sunset, and a night texel with no channel
    above 0.2 gives black.  At 0.25 and above the colour is the day texel
    times (dot + 0.1) plus the specular colour: the night texel does not
    enter. *)
Theorem earth_shading_night_and_day_sides :
  forall (dayColor nightColorSample : Vec3) (specularStrength d normalDotHalf : R),
    (d <= -0.25 ->
     earthFragmentShader dayColor nightColorSample specularStrength d normalDotHalf
     = GlslVec.mul (GlslVec.maxScalar (GlslVec.subScalar nightColorSample 0.2) 0.0)
                   (Vector3.mk 6.0 4.5 3.0))
    /\ (d <= -0.25 ->
        GlslVec.le nightColorSample (Vector3.mk 0.2 0.2 0.2) ->
        earthFragmentShader dayColor nightColorSample specularStrength d normalDotHalf
        = Vector3.mk 0 0 0)
    /\ (0.25 <= d ->
        earthFragmentShader dayColor nightColorSample specularStrength d normalDotHalf
        = Vector3.add
            (GlslVec.scale dayColor (d + 0.1))
            (GlslVec.scale
               (GlslVec.scale (Vector3.mk 1.0 0.95 0.8)
                  (Rmax normalDotHalf 0.0 ^ 80 * specularStrength))
               0.8)).
Proof.
  intros dayColor night spec d ndh.
  assert (Hnight : d <= -0.25 ->
            earthFragmentShader dayColor night spec d ndh
            = GlslVec.mul (GlslVec.maxScalar (GlslVec.subScalar night 0.2) 0.0)
                          (Vector3.mk 6.0 4.5 3.0)).
  { intros Hd. unfold earthFragmentShader.
    rewrite earthSunsetColor_outside
      by (unfold Rabs; destruct (Rcase_abs d); lra).
    rewrite (smoothstep_below _ _ earth_band d) by lra.
    rewrite mix_at_0, add_zero_r. reflexivity. }
  split; [exact Hnight |]. split.
  - intros Hd (Hx & Hy & Hz). rewrite (Hnight Hd).
    cbn [Vector3.x Vector3.y Vector3.z] in *.
    unfold GlslVec.mul, GlslVec.maxScalar, GlslVec.subScalar.
    cbn [Vector3.x Vector3.y Vector3.z].
    rewrite !Rmax_right by lra.
    f_equal; lra.
  - intros Hd. unfold earthFragmentShader.
    rewrite earthSunsetColor_outside
      by (unfold Rabs; destruct (Rcase_abs d); lra).
    rewrite (smoothstep_above _ _ earth_band d) by lra.
    rewrite mix_at_1, add_zero_r.
    rewrite (Rmax_left d) by lra. reflexivity.
Qed.

Lemma earth_shading_night_and_day_sides_witness :
  -0.5 <= -0.25
  /\ GlslVec.le (Vector3.mk 0.1 0.2 0.05) (Vector3.mk 0.2 0.2 0.2)
  /\ earthFragmentShader (Vector3.mk 0.3 0.5 0.7) (Vector3.mk 0.1 0.2 0.05) 1 (-0.5) 0.9
     = Vector3.mk 0 0 0.
Proof.
  assert (Hd : -0.5 <= -0.25) by lra.
  assert (Hn : GlslVec.le (Vector3.mk 0.1 0.2 0.05) (Vector3.mk 0.2 0.2 0.2)).
  { unfold GlslVec.le. cbn. lra. }
  split; [exact Hd |]. split; [exact Hn |].
  exact (proj1 (proj2 (earth_shading_night_and_day_sides
                         (Vector3.mk 0.3 0.5 0.7) (Vector3.mk 0.1 0.2 0.05)
                         1 (-0.5) 0.9)) Hd Hn).
Defined.

(** X13.  The sunset colour the Earth shader adds is an even function of the
    dot product, is (0.9, 0.4, 0.1) times 0.6 (1 - specularStrength) on the
    terminator itself, never more than that in any channel for a specular
    strength in [0, 1], and nothing at all where the dot product is 0.25 or
    more in size or where the specular strength is 1. *)
Theorem earth_sunset_band :
  forall specularStrength d : R,
    earthSunsetColor specularStrength (- d) = earthSunsetColor specularStrength d
    /\ earthSunsetColor specularStrength 0
       = GlslVec.scale (Vector3.mk 0.9 0.4 0.1) (0.6 * (1 - specularStrength))
    /\ (0.25 <= Rabs d -> earthSunsetColor specularStrength d = Vector3.mk 0 0 0)
    /\ earthSunsetColor 1 d = Vector3.mk 0 0 0
    /\ (0 <= specularStrength <= 1 ->
        GlslVec.le (Vector3.mk 0 0 0) (earthSunsetColor specularStrength d)
        /\ GlslVec.le (earthSunsetColor specularStrength d)
                      (earthSunsetColor specularStrength 0)).
Proof.
  intros spec d.
  assert (H0 : Glsl.smoothstep 0.0 0.25 (Rabs 0) = 0).
  { rewrite Rabs_R0. apply (smoothstep_below _ _ sunset_band). lra. }
  assert (Hshape : forall e,
             earthSunsetColor spec e
             = GlslVec.scale (Vector3.mk 0.9 0.4 0.1)
                 ((1 - Glsl.smoothstep 0.0 0.25 (Rabs e)) * (0.6 * (1 - spec)))).
  { intros e. unfold earthSunsetColor, GlslVec.scale, Vector3.multiplyScalar.
    cbn [Vector3.x Vector3.y Vector3.z].
    generalize (Glsl.smoothstep 0.0 0.25 (Rabs e)). intros k.
    f_equal; lra. }
  split; [unfold earthSunsetColor; rewrite Rabs_Ropp; reflexivity |].
  split.
  { rewrite Hshape, H0. f_equal. lra. }
  split; [apply earthSunsetColor_outside |].
  split.
  { unfold earthSunsetColor, GlslVec.scale, Vector3.multiplyScalar.
    cbn [Vector3.x Vector3.y Vector3.z].
    generalize (Glsl.smoothstep 0.0 0.25 (Rabs d)). intros k.
    f_equal; lra. }
  intros [Hs0 Hs1]. rewrite !Hshape, H0.
  pose proof (smoothstep_range 0.0 0.25 (Rabs d)) as [Hk0 Hk1].
  set (k := Glsl.smoothstep 0.0 0.25 (Rabs d)) in *.
  unfold GlslVec.le, GlslVec.scale, Vector3.multiplyScalar.
  cbn [Vector3.x Vector3.y Vector3.z].
  assert (0 <= (1 - k) * (0.6 * (1 - spec))) by (apply Rmult_le_pos; nra).
  assert ((1 - k) * (0.6 * (1 - spec)) <= (1 - 0) * (0.6 * (1 - spec))) by nra.
  repeat split; nra.
Qed.

Lemma earth_sunset_band_witness :
  0.25 <= Rabs 0.4
  /\ earthSunsetColor 0.3 0.4 = Vector3.mk 0 0 0
  /\ 0 <= 0.3 <= 1
  /\ GlslVec.le (earthSunsetColor 0.3 0.1) (earthSunsetColor 0.3 0).
Proof.
  assert (Ha : 0.25 <= Rabs 0.4) by (rewrite Rabs_right; lra).
  assert (Hs : 0 <= 0.3 <= 1) by lra.
  split; [exact Ha |].
  split; [exact (proj1 (proj2 (proj2 (earth_sunset_band 0.3 0.4))) Ha) |].
  split; [exact Hs |].
  exact (proj2 (proj2 (proj2 (proj2 (proj2 (earth_sunset_band 0.3 0.1)))) Hs)).
Defined.

(** X14.  The atmosphere shell shader gives every channel a value between 0
    and 0.15 times the channel of (0.3, 0.6, 1.0, 1.0); all four channels are
    0 where the normal's view-space z is -1 or less and reach that maximum
    where it is 0 or more. *)
Theorem atmosphere_glow_bounded :
  forall vNormal : Vec3,
    let c := atmosphereFragmentShader vNormal in
    (0 <= red c <= 0.3 * 0.15 /\ 0 <= green c <= 0.6 * 0.15
     /\ 0 <= blue c <= 0.15 /\ 0 <= alpha c <= 0.15)
    /\ (Vector3.z vNormal <= -1 -> c = mkVec4 0 0 0 0)
    /\ (0 <= Vector3.z vNormal -> c = mkVec4 (0.3 * 0.15) (0.6 * 0.15) 0.15 0.15).
Proof.
  intros vNormal c. subst c. unfold atmosphereFragmentShader.
  assert (Hdot : Vector3.dot vNormal (Vector3.mk 0 0 1.0) = Vector3.z vNormal).
  { unfold Vector3.dot. cbn [Vector3.x Vector3.y Vector3.z]. lra. }
  rewrite Hdot.
  replace 0.0 with 0 by lra. replace 1.0 with 1 by lra.
  pose proof (clamp01_range (1 + Vector3.z vNormal)) as [H0 H1].
  set (t := Glsl.clamp (1 + Vector3.z vNormal) 0 1) in *.
  assert (Hp0 : 0 <= t ^ 4) by (apply pow_le; exact H0).
  assert (Hp1 : t ^ 4 <= 1).
  { replace 1 with (1 ^ 4) by ring. apply pow_incr. split; assumption. }
  cbn [red green blue alpha].
  split; [repeat split; nra |].
  split; intros Hz.
  - assert (E : t = 0) by (unfold t; apply clamp01_below; lra).
    rewrite E. f_equal; lra.
  - assert (E : t = 1) by (unfold t; apply clamp01_above; lra).
    rewrite E. f_equal; lra.
Qed.

Lemma atmosphere_glow_bounded_witness :
  Vector3.z (Vector3.mk 0 0 (-1)) <= -1
  /\ atmosphereFragmentShader (Vector3.mk 0 0 (-1)) = mkVec4 0 0 0 0.
Proof.
  assert (H : Vector3.z (Vector3.mk 0 0 (-1)) <= -1) by (simpl; lra).
  split; [exact H |].
  exact (proj1 (proj2 (atmosphere_glow_bounded (Vector3.mk 0 0 (-1)))) H).
Defined.

(* ================================================================== *)
(** * The starfield and the Moon *)
(* ================================================================== *)

Lemma starPosition_dot (u1 u2 u3 : R) :
  Vector3.dot (starPosition u1 u2 u3) (starPosition u1 u2 u3)
  = (800 + u1 * 3700) * (800 + u1 * 3700).
Proof.
  unfold Vector3.dot, starPosition. cbn [Vector3.x Vector3.y Vector3.z].
  set (r := 800 + u1 * 3700). set (theta := 2 * PI * u2).
  set (phi := acos (2 * u3 - 1)).
  pose proof (sin2_cos2 theta) as Ht. pose proof (sin2_cos2 phi) as Hp.
  unfold Rsqr in Ht, Hp.
  replace (r * sin phi * cos theta * (r * sin phi * cos theta)
           + r * sin phi * sin theta * (r * sin phi * sin theta)
           + r * cos phi * (r * cos phi))
    with (r * r * (sin phi * sin phi * (sin theta * sin theta + cos theta * cos theta)
                   + cos phi * cos phi)) by ring.
  rewrite Ht, Rmult_1_r, Hp. ring.
Qed.

(** X15.  Whatever the two angular draws, a star whose radial draw is in
    [0, 1) is placed at distance 800 + 3700 u from the origin: at least
    800, less than 4500, and so inside the backdrop sphere of radius
    4800. *)
Theorem stars_fill_shell_inside_backdrop :
  forall u1 u2 u3 : R,
    0 <= u1 < 1 ->
    Vector3.length (starPosition u1 u2 u3) = 800 + u1 * 3700
    /\ 800 <= Vector3.length (starPosition u1 u2 u3) < 4500
    /\ Vector3.length (starPosition u1 u2 u3) < BACKDROP_RADIUS.
Proof.
  intros u1 u2 u3 [H0 H1].
  assert (E : Vector3.length (starPosition u1 u2 u3) = 800 + u1 * 3700).
  { pose proof (starPosition_dot u1 u2 u3) as Hd.
    unfold Vector3.length. unfold Vector3.dot in Hd. rewrite Hd.
    apply sqrt_square. lra. }
  rewrite E. unfold BACKDROP_RADIUS. repeat split; lra.
Qed.

Lemma stars_fill_shell_inside_backdrop_witness :
  0 <= 0.5 < 1 /\ Vector3.length (starPosition 0.5 0.25 0.75) = 800 + 0.5 * 3700.
Proof.
  assert (H : 0 <= 0.5 < 1) by lra.
  split; [exact H |].
  exact (proj1 (stars_fill_shell_inside_backdrop 0.5 0.25 0.75 H)).
Defined.

Lemma moon_offset (rotY : R) :
  applyEulerXYZ 0 rotY (5 * (PI / 180)) (Vector3.mk MOON_DISTANCE 0 0)
  = Vector3.mk (MOON_DISTANCE * (cos rotY * cos (5 * (PI / 180))))
               (MOON_DISTANCE * sin (5 * (PI / 180)))
               (- (MOON_DISTANCE * (cos (5 * (PI / 180)) * sin rotY))).
Proof.
  unfold applyEulerXYZ. cbn [Vector3.x Vector3.y Vector3.z].
  rewrite cos_0, sin_0. apply Vector3_ext; cbn [Vector3.x Vector3.y Vector3.z]; ring.
Qed.

(** X16.  Wherever Earth is and however far the orbit group has turned, the
    Moon's centre is exactly MOON_DISTANCE = 25 from Earth's, and always
    25 sin(5 degrees) above Earth's orbital plane: it runs on a level circle
    of radius 25 cos(5 degrees) over that plane and never crosses it. *)
Theorem moon_circles_above_orbital_plane :
  forall (earthContainerPos : Vec3) (m : MoonState),
    let moon := moonWorldPosition earthContainerPos m in
    Vector3.distanceTo moon earthContainerPos = MOON_DISTANCE
    /\ Vector3.y moon - Vector3.y earthContainerPos
       = MOON_DISTANCE * sin (5 * (PI / 180))
    /\ 0 < Vector3.y moon - Vector3.y earthContainerPos
    /\ (Vector3.x moon - Vector3.x earthContainerPos)
       * (Vector3.x moon - Vector3.x earthContainerPos)
       + (Vector3.z moon - Vector3.z earthContainerPos)
         * (Vector3.z moon - Vector3.z earthContainerPos)
       = (MOON_DISTANCE * cos (5 * (PI / 180))) * (MOON_DISTANCE * cos (5 * (PI / 180))).
Proof.
  intros earth m moon. subst moon. unfold moonWorldPosition.
  rewrite moon_offset.
  set (t := 5 * (PI / 180)). set (y := moonOrbitRotationY m).
  pose proof (sin2_cos2 t) as Ht. pose proof (sin2_cos2 y) as Hy.
  unfold Rsqr in Ht, Hy.
  destruct earth as [ex ey ez].
  unfold Vector3.add. cbn [Vector3.x Vector3.y Vector3.z].
  assert (Hsin : 0 < sin t).
  { pose proof PI_RGT_0. apply sin_gt_0; unfold t; lra. }
  split; [| split; [| split]].
  - unfold Vector3.distanceTo, Vector3.distanceToSquared.
    cbn [Vector3.x Vector3.y Vector3.z].
    match goal with
    | |- sqrt ?e = _ =>
        replace e
          with (MOON_DISTANCE * MOON_DISTANCE
                * (cos t * cos t * (sin y * sin y + cos y * cos y) + sin t * sin t))
          by ring
    end.
    rewrite Hy, Rmult_1_r.
    replace (cos t * cos t + sin t * sin t) with 1 by lra.
    rewrite Rmult_1_r. apply sqrt_square. unfold MOON_DISTANCE. lra.
  - ring.
  - unfold MOON_DISTANCE. nra.
  - match goal with
    | |- ?l = ?r =>
        replace l
          with (MOON_DISTANCE * MOON_DISTANCE * (cos t * cos t)
                * (sin y * sin y + cos y * cos y)) by ring
    end.
    rewrite Hy. ring.
Qed.

(* ================================================================== *)
(** * Further properties of ShadowLab and KaamosViewer *)
(* ================================================================== *)

(** X17.  Between 5 and 90 degrees a higher sun gives a strictly shorter
    shadow.  The slider's lowest position is the exception: at 5 degrees the
    length is 600, less than the length at 6 degrees. *)
Theorem shadow_shrinks_as_sun_climbs :
  (forall h1 h2 : R,
      5 < h1 -> h1 < h2 -> h2 < 90 -> shadowLength h2 < shadowLength h1)
  /\ shadowLength 5 < shadowLength 6.
Proof.
  split.
  - intros h1 h2 H5 H12 H90.
    destruct (shadowLength_open_range h1) as (_ & Ht1 & _); [lra |].
    destruct (shadowLength_open_range h2) as (_ & Ht2 & _); [lra |].
    destruct (altitude_angle_range h1) as [Ha0 Ha90]; [lra |].
    destruct (altitude_angle_range h2) as [Hb0 Hb90]; [lra |].
    pose proof PI_RGT_0 as Hpi.
    assert (Hinc : tan (h1 * PI / 180) < tan (h2 * PI / 180))
      by (apply tan_increasing; nra).
    rewrite !shadowLength_above_5 by lra.
    unfold Rdiv. apply Rmult_lt_compat_l; [lra |].
    apply Rinv_lt_contravar; [apply Rmult_lt_0_compat; assumption | exact Hinc].
  - rewrite (shadowLength_low 5) by lra. exact shadowLength_exceeds_600_at_6.
Qed.

Lemma shadow_shrinks_as_sun_climbs_witness :
  5 < 30 /\ 30 < 60 /\ 60 < 90 /\ shadowLength 60 < shadowLength 30.
Proof.
  assert (H1 : 5 < 30) by lra. assert (H2 : 30 < 60) by lra.
  assert (H3 : 60 < 90) by lra.
  split; [exact H1 |]. split; [exact H2 |]. split; [exact H3 |].
  exact (proj1 shadow_shrinks_as_sun_climbs 30 60 H1 H2 H3).
Defined.

Lemma getSunlightHours_unclamped (lat monthIndex : R) :
  0 <= 12 + cos ((monthIndex - 5) / 12 * 2 * PI) * 12 * ((lat - 50) / 20) <= 24 ->
  getSunlightHours lat monthIndex
  = 12 + cos ((monthIndex - 5) / 12 * 2 * PI) * 12 * ((lat - 50) / 20).
Proof.
  intros [H0 H24]. unfold getSunlightHours.
  destruct (Rgt_dec _ 24) as [Hhi | _]; [lra |].
  destruct (Rlt_dec _ 0) as [Hlo | _]; [lra | reflexivity].
Qed.

(** X18.  At every latitude strictly between 30 and 70 - Helsinki's 60 and
    Rovaniemi's 66.5 among them - the sunlight hours stay strictly between 0
    and 24 in every month, so the status line shows neither KAAMOS nor
    MIDNIGHT SUN. *)
Theorem no_polar_status_below_70 :
  forall lat monthIndex : R,
    30 < lat < 70 ->
    0 < getSunlightHours lat monthIndex < 24
    /\ statusText lat monthIndex = [].
Proof.
  intros lat monthIndex [Hlo Hhi].
  pose proof (COS_bound ((monthIndex - 5) / 12 * 2 * PI)) as [Hc0 Hc1].
  set (c := cos ((monthIndex - 5) / 12 * 2 * PI)) in *.
  set (l := (lat - 50) / 20).
  assert (Hl : -1 < l < 1) by (unfold l; lra).
  assert (Hcl : -1 < c * l < 1).
  { destruct (Rle_or_lt 0 l) as [Hpos | Hneg]; split; nra. }
  assert (Hin : 0 < 12 + c * 12 * l < 24) by (split; nra).
  assert (E : getSunlightHours lat monthIndex = 12 + c * 12 * l)
    by (apply getSunlightHours_unclamped; fold c l; lra).
  split; [rewrite E; exact Hin |].
  unfold statusText, isKaamos, isMidnightSun. rewrite E.
  destruct (Req_dec_T _ 0) as [E0 | _]; [lra |].
  destruct (Req_dec_T _ 24) as [E24 | _]; [lra | reflexivity].
Qed.

Lemma no_polar_status_below_70_witness :
  30 < 66.5 < 70 /\ statusText 66.5 11 = [].
Proof.
  assert (H : 30 < 66.5 < 70) by lra.
  split; [exact H | exact (proj2 (no_polar_status_below_70 66.5 11 H))].
Defined.

Lemma cos_above_minus_1 (x : R) : - PI < x < PI -> -1 < cos x.
Proof.
  intros [Hlo Hhi].
  replace x with (2 * (x / 2)) by field. rewrite cos_2a_cos.
  assert (0 < cos (x / 2)) by (apply cos_gt_0; lra).
  nra.
Qed.

Lemma cos_below_1 (x : R) : 0 < x < 2 * PI -> cos x < 1.
Proof.
  intros [Hlo Hhi].
  replace x with (2 * (x / 2)) by field. rewrite cos_2a_sin.
  assert (0 < sin (x / 2)) by (apply sin_gt_0; lra).
  nra.
Qed.

Lemma month_angle (m : nat) :
  (INR m - 5) / 12 * 2 * PI = (INR m - 5) * (PI / 6).
Proof. field. Qed.

(** X19.  At latitude 70 and above the viewer shows 24 hours in June (month
    index 5) and 0 hours in December (index 11).  At latitude 70 itself,
    Utsjoki's, these are the only months among the indices 0 to 11 with 24
    and with 0 hours. *)
Theorem polar_day_and_night_at_70 :
  (forall lat : R,
      70 <= lat ->
      getSunlightHours lat 5 = 24 /\ getSunlightHours lat 11 = 0)
  /\ (forall m : nat,
        (m <= 11)%nat ->
        (getSunlightHours 70 (INR m) = 0 <-> m = 11%nat)
        /\ (getSunlightHours 70 (INR m) = 24 <-> m = 5%nat)).
Proof.
  split.
  - intros lat Hlat. unfold getSunlightHours.
    replace ((5 - 5) / 12 * 2 * PI) with 0 by field.
    replace ((11 - 5) / 12 * 2 * PI) with PI by field.
    rewrite cos_0, cos_PI.
    split.
    + destruct (Rgt_dec _ 24) as [H | H]; destruct (Rlt_dec _ 0) as [H' | H']; lra.
    + destruct (Rgt_dec _ 24) as [H | H]; destruct (Rlt_dec _ 0) as [H' | H']; lra.
  - intros m Hm.
    pose proof (COS_bound ((INR m - 5) / 12 * 2 * PI)) as [Hc0 Hc1].
    assert (E : getSunlightHours 70 (INR m)
                = 12 + cos ((INR m - 5) / 12 * 2 * PI) * 12 * ((70 - 50) / 20)).
    { apply getSunlightHours_unclamped.
      set (c := cos ((INR m - 5) / 12 * 2 * PI)) in *. split; nra. }
    rewrite E, month_angle.
    pose proof PI_RGT_0 as Hpi.
    assert (Hm0 : 0 <= INR m) by apply pos_INR.
    assert (Hm11 : INR m <= 11).
    { replace 11 with (INR 11) by (simpl; lra). apply le_INR. exact Hm. }
    split; split.
    + intros H0.
      destruct (Nat.eq_dec m 11) as [Heq | Hne]; [exact Heq | exfalso].
      assert (Hle : (m <= 10)%nat) by lia.
      apply le_INR in Hle. replace (INR 10) with 10 in Hle by (simpl; lra).
      assert (-1 < cos ((INR m - 5) * (PI / 6))) by (apply cos_above_minus_1; split; nra).
      lra.
    + intros ->. replace ((INR 11 - 5) * (PI / 6)) with PI by (simpl; field).
      rewrite cos_PI. lra.
    + intros H24.
      destruct (Nat.eq_dec m 5) as [Heq | Hne]; [exact Heq | exfalso].
      destruct (Nat.lt_ge_cases m 5) as [Hlt | Hge].
      * assert (Hle : (m <= 4)%nat) by lia.
        apply le_INR in Hle. replace (INR 4) with 4 in Hle by (simpl; lra).
        assert (cos (- ((INR m - 5) * (PI / 6))) < 1) by (apply cos_below_1; split; nra).
        rewrite cos_neg in *. lra.
      * assert (Hle : (6 <= m)%nat) by lia.
        apply le_INR in Hle. replace (INR 6) with 6 in Hle by (simpl; lra).
        assert (cos ((INR m - 5) * (PI / 6)) < 1) by (apply cos_below_1; split; nra).
        lra.
    + intros ->. replace ((INR 5 - 5) * (PI / 6)) with 0 by (simpl; field).
      rewrite cos_0. lra.
Qed.

Lemma polar_day_and_night_at_70_witness :
  70 <= 78 /\ getSunlightHours 78 11 = 0
  /\ (7 <= 11)%nat /\ getSunlightHours 70 (INR 7) <> 0.
Proof.
  destruct polar_day_and_night_at_70 as [Tlat Tmonth].
  assert (H78 : 70 <= 78) by lra.
  assert (H7 : (7 <= 11)%nat) by lia.
  split; [exact H78 |]. split; [exact (proj2 (Tlat 78 H78)) |].
  split; [exact H7 |].
  intros E. apply (proj1 (proj1 (Tmonth 7%nat H7))) in E. discriminate E.
Defined.

(* ================================================================== *)
(** * Further properties of the quiz service and its users *)
(* ================================================================== *)

Lemma generateQuizQuestions_cases (topic : string) (count : nat) :
  generateQuizQuestions topic count
  = Resolved
      (if includes (toLowerCase topic) "kaamos" then Some KAAMOS_QUESTIONS
       else if includes (toLowerCase topic) "polar" then Some KAAMOS_QUESTIONS
       else if includes (toLowerCase topic) "shadow" then Some SHADOW_QUESTIONS
       else if includes (toLowerCase topic) "incidence" then Some SHADOW_QUESTIONS
       else Some DEFAULT_QUESTIONS).
Proof.
  unfold generateQuizQuestions. rewrite findTopic_cases. reflexivity.
Qed.

(** A resolved quiz is one of the three sets. *)
Lemma generateQuizQuestions_sets (topic : string) (count : nat) :
  generateQuizQuestions topic count = Resolved (Some KAAMOS_QUESTIONS)
  \/ generateQuizQuestions topic count = Resolved (Some SHADOW_QUESTIONS)
  \/ generateQuizQuestions topic count = Resolved (Some DEFAULT_QUESTIONS).
Proof.
  rewrite generateQuizQuestions_cases.
  destruct (includes (toLowerCase topic) "kaamos"); [auto |].
  destruct (includes (toLowerCase topic) "polar"); [auto |].
  destruct (includes (toLowerCase topic) "shadow"); [auto |].
  destruct (includes (toLowerCase topic) "incidence"); auto.
Qed.

Lemma question_sets_wellFormed :
  let ok (q : QuizQuestion) :=
    length (options q) = 4%nat /\ (correctAnswerIndex q < length (options q))%nat in
  Forall ok KAAMOS_QUESTIONS /\ Forall ok SHADOW_QUESTIONS /\ Forall ok DEFAULT_QUESTIONS.
Proof.
  cbv zeta. repeat split; repeat constructor.
Qed.

(** X20.  Whatever the topic and the count, the quiz that is handed back has
    exactly three questions, each with four options and a correct-answer
    index that points at one of them. *)
Theorem every_quiz_is_well_formed :
  forall (topic : string) (count : nat) (qs : list QuizQuestion),
    generateQuizQuestions topic count = Resolved (Some qs) ->
    length qs = 3%nat
    /\ Forall (fun q => length (options q) = 4%nat
                        /\ (correctAnswerIndex q < length (options q))%nat) qs.
Proof.
  intros topic count qs H.
  pose proof question_sets_wellFormed as HW. cbv zeta in HW.
  destruct HW as (HK & HS & HD).
  destruct (generateQuizQuestions_sets topic count) as [E | [E | E]];
    rewrite E in H; injection H as <-; split; (reflexivity || assumption).
Qed.

Lemma every_quiz_is_well_formed_witness :
  generateQuizQuestions "Sun shadows and angle of incidence physics" 3
  = Resolved (Some SHADOW_QUESTIONS)
  /\ length SHADOW_QUESTIONS = 3%nat.
Proof.
  assert (H : generateQuizQuestions "Sun shadows and angle of incidence physics" 3
              = Resolved (Some SHADOW_QUESTIONS)) by (vm_compute; reflexivity).
  split; [exact H |].
  exact (proj1 (every_quiz_is_well_formed _ 3 SHADOW_QUESTIONS H)).
Defined.

(** X21.  Whatever function on strings [toLowerCase] is, the shadow set is
    served exactly to the topics whose lower-case form contains shadow or
    incidence and neither kaamos nor polar: the kaamos and polar keys come
    first in the loop and win. *)
Theorem shadow_set_after_kaamos_keys :
  forall (lower : string -> string) (topic : string) (count : nat),
    generateQuizQuestionsWith lower topic count = Resolved (Some SHADOW_QUESTIONS)
    <-> (includes (lower topic) "kaamos" = false
         /\ includes (lower topic) "polar" = false
         /\ (includes (lower topic) "shadow" = true
             \/ includes (lower topic) "incidence" = true)).
Proof.
  intros lower topic count. rewrite generateQuizQuestionsWith_cases.
  destruct (includes (lower topic) "kaamos");
    destruct (includes (lower topic) "polar");
    destruct (includes (lower topic) "shadow");
    destruct (includes (lower topic) "incidence");
    split; intros H;
    try discriminate H;
    try (destruct H as (H1 & H2 & [H3 | H3]); discriminate);
    try reflexivity;
    auto.
Qed.

(** X22.  KaamosViewer's quiz follows its status: the Kaamos questions are
    shown exactly when the sunlight hours are 0, and in every other state,
    midnight sun included, the default questions are. *)
Theorem kaamos_viewer_quiz_follows_status :
  forall (lat monthIndex : R) (count : nat),
    (getSunlightHours lat monthIndex = 0 ->
     generateQuizQuestions (kaamosQuizTopic lat monthIndex) count
     = Resolved (Some KAAMOS_QUESTIONS))
    /\ (getSunlightHours lat monthIndex <> 0 ->
        generateQuizQuestions (kaamosQuizTopic lat monthIndex) count
        = Resolved (Some DEFAULT_QUESTIONS)).
Proof.
  intros lat monthIndex count. unfold kaamosQuizTopic.
  pose proof (isKaamos_spec (getSunlightHours lat monthIndex)) as HK.
  destruct (isKaamos (getSunlightHours lat monthIndex)); split; intros H.
  - vm_compute. reflexivity.
  - exfalso. apply H, HK. reflexivity.
  - apply HK in H. discriminate H.
  - vm_compute. reflexivity.
Qed.

Lemma kaamos_viewer_quiz_follows_status_witness :
  getSunlightHours 70 11 = 0
  /\ generateQuizQuestions (kaamosQuizTopic 70 11) 3 = Resolved (Some KAAMOS_QUESTIONS)
  /\ getSunlightHours 70 5 <> 0
  /\ generateQuizQuestions (kaamosQuizTopic 70 5) 3 = Resolved (Some DEFAULT_QUESTIONS).
Proof.
  assert (Hdec : getSunlightHours 70 11 = 0).
  { unfold getSunlightHours.
    replace ((11 - 5) / 12 * 2 * PI) with PI by field. rewrite cos_PI.
    destruct (Rgt_dec _ 24) as [H | H]; destruct (Rlt_dec _ 0) as [H' | H']; lra. }
  assert (Hjun : getSunlightHours 70 5 <> 0).
  { unfold getSunlightHours.
    replace ((5 - 5) / 12 * 2 * PI) with 0 by field. rewrite cos_0.
    destruct (Rgt_dec _ 24) as [H | H]; destruct (Rlt_dec _ 0) as [H' | H']; lra. }
  split; [exact Hdec |].
  split; [exact (proj1 (kaamos_viewer_quiz_follows_status 70 11 3) Hdec) |].
  split; [exact Hjun |].
  exact (proj2 (kaamos_viewer_quiz_follows_status 70 5 3) Hjun).
Defined.

(* ================================================================== *)
(** * QuizModule *)
(* ================================================================== *)

Lemma receive_quiz (topic : string) (s : QuizModule.State) :
  exists qs,
    QuizModule.receive (generateQuizQuestions topic 3) s
    = Some (QuizModule.mkState qs (QuizModule.currentIndex s)
              (QuizModule.selectedOption s) (QuizModule.isAnswered s) false
              (QuizModule.score s))
    /\ length qs = 3%nat.
Proof.
  destruct (generateQuizQuestions_sets topic 3) as [E | [E | E]]; rewrite E;
    eexists; split; reflexivity.
Qed.

Lemma wellFormed_render (s : QuizModule.State) :
  QuizModule.wellFormed s ->
  exists currentQ,
    nth_error (QuizModule.questions s) (QuizModule.currentIndex s) = Some currentQ
    /\ QuizModule.render s = Some (QuizModule.Challenge currentQ).
Proof.
  intros (Hload & Hlen & Hidx & _).
  destruct (nth_error (QuizModule.questions s) (QuizModule.currentIndex s))
    as [q |] eqn:E.
  - exists q. split; [reflexivity |].
    unfold QuizModule.render. rewrite Hload, Hlen, E. reflexivity.
  - apply nth_error_None in E. lia.
Qed.

Lemma act_wellFormed (topic : string) (s : QuizModule.State) (a : QuizModule.Action) :
  QuizModule.wellFormed s ->
  exists topic1 s1,
    QuizModule.act (topic, s) a = Some (topic1, s1) /\ QuizModule.wellFormed s1.
Proof.
  intros Hwf.
  destruct (wellFormed_render s Hwf) as (q & Hq & Hrender).
  pose proof Hwf as (Hload & Hlen & Hidx & Hscore).
  destruct a as [idx | | topic1]; cbn [QuizModule.act].
  - unfold QuizModule.optionEnabled. rewrite Hrender.
    destruct ((idx <? length (options q))%nat && negb (QuizModule.isAnswered s)) eqn:Hen;
      [| exists topic, s; split; [reflexivity | exact Hwf]].
    apply andb_prop in Hen. destruct Hen as [_ Hna].
    apply negb_true_iff in Hna.
    unfold QuizModule.handleOptionClick. rewrite Hna, Hq. cbn [option_map].
    eexists _, _. split; [reflexivity |].
    unfold QuizModule.wellFormed. cbn. rewrite Hna in Hscore.
    repeat split; try assumption.
    destruct (Nat.eqb idx (correctAnswerIndex q)); lia.
  - unfold QuizModule.nextShown. rewrite Hrender.
    destruct (QuizModule.isAnswered s) eqn:Hans;
      [| exists topic, s; split; [reflexivity | exact Hwf]].
    unfold QuizModule.nextQuestion. rewrite Hlen.
    destruct (QuizModule.currentIndex s + 1 <? 3)%nat eqn:Hlast.
    + apply Nat.ltb_lt in Hlast. cbn [option_map].
      eexists _, _. split; [reflexivity |].
      unfold QuizModule.wellFormed. cbn. repeat split; try assumption; lia.
    + destruct (receive_quiz topic
                  (QuizModule.mkState (QuizModule.questions s) 0 None false true 0))
        as (qs & Hrec & Hqs).
      rewrite Hrec. cbn [option_map].
      eexists _, _. split; [reflexivity |].
      unfold QuizModule.wellFormed. cbn. repeat split; try assumption; lia.
  - unfold QuizModule.fetchQuestions.
    destruct (receive_quiz topic1
                (QuizModule.mkState (QuizModule.questions s) (QuizModule.currentIndex s)
                   (QuizModule.selectedOption s) (QuizModule.isAnswered s) true
                   (QuizModule.score s)))
      as (qs & Hrec & Hqs).
    rewrite Hrec. cbn [option_map].
    eexists _, _. split; [reflexivity |].
    unfold QuizModule.wellFormed. cbn. repeat split; try assumption.
Qed.

Lemma play_wellFormed (actions : list QuizModule.Action) :
  forall topic s,
    QuizModule.wellFormed s ->
    exists topic1 s1,
      QuizModule.play (topic, s) actions = Some (topic1, s1)
      /\ QuizModule.wellFormed s1.
Proof.
  induction actions as [| a actions IH]; intros topic s Hwf; cbn [QuizModule.play].
  - exists topic, s. split; [reflexivity | exact Hwf].
  - destruct (act_wellFormed topic s a Hwf) as (topic1 & s1 & Hact & Hwf1).
    rewrite Hact. apply IH. exact Hwf1.
Qed.

Lemma mount_wellFormed (topic : string) :
  exists s, QuizModule.mount topic = Some (topic, s) /\ QuizModule.wellFormed s.
Proof.
  unfold QuizModule.mount, QuizModule.fetchQuestions.
  destruct (receive_quiz topic
              (QuizModule.mkState (QuizModule.questions QuizModule.initial)
                 (QuizModule.currentIndex QuizModule.initial)
                 (QuizModule.selectedOption QuizModule.initial)
                 (QuizModule.isAnswered QuizModule.initial) true
                 (QuizModule.score QuizModule.initial)))
    as (qs & Hrec & Hqs).
  rewrite Hrec. cbn [option_map]. eexists. split; [reflexivity |].
  unfold QuizModule.wellFormed. cbn. repeat split; try assumption; lia.
Qed.

(** X23.  Mounted with any topic and put through any presses of option
    buttons and of Next and any changes of topic, QuizModule never throws and
    never shows the spinner or the failure line between actions: it shows a
    question that exists, of a quiz of three, and the score is never more
    than the number of questions answered in the current round - so never
    more than 3. *)
Theorem quiz_module_always_shows_a_question :
  forall (topic : string) (actions : list QuizModule.Action),
    exists mounted topic1 s,
      QuizModule.mount topic = Some mounted
      /\ QuizModule.play mounted actions = Some (topic1, s)
      /\ (exists currentQ, QuizModule.render s = Some (QuizModule.Challenge currentQ))
      /\ (QuizModule.score s
          <= QuizModule.currentIndex s + (if QuizModule.isAnswered s then 1 else 0))%nat
      /\ (QuizModule.score s <= 3)%nat.
Proof.
  intros topic actions.
  destruct (mount_wellFormed topic) as (s0 & Hmount & Hwf0).
  destruct (play_wellFormed actions topic s0 Hwf0) as (topic1 & s & Hplay & Hwf).
  exists (topic, s0), topic1, s.
  split; [exact Hmount |]. split; [exact Hplay |].
  destruct (wellFormed_render s Hwf) as (q & _ & Hrender).
  split; [exists q; exact Hrender |].
  destruct Hwf as (_ & _ & Hidx & Hscore).
  split; [exact Hscore |].
  destruct (QuizModule.isAnswered s); lia.
Qed.

(** Pressing an option on a question that is shown and not yet answered. *)
Lemma act_PressOption (topic : string) (s : QuizModule.State) (q : QuizQuestion)
    (idx : nat) :
  QuizModule.loading s = false ->
  nth_error (QuizModule.questions s) (QuizModule.currentIndex s) = Some q ->
  QuizModule.isAnswered s = false ->
  (idx < length (options q))%nat ->
  QuizModule.act (topic, s) (QuizModule.PressOption idx)
  = Some (topic,
          QuizModule.mkState (QuizModule.questions s) (QuizModule.currentIndex s)
            (Some idx) true false
            (if Nat.eqb idx (correctAnswerIndex q)
             then QuizModule.score s + 1 else QuizModule.score s)%nat).
Proof.
  intros Hload Hq Hna Hidx.
  assert (Hrender : QuizModule.render s = Some (QuizModule.Challenge q)).
  { unfold QuizModule.render. rewrite Hload, Hq.
    destruct (QuizModule.questions s) as [| q0 qs0] eqn:E.
    - destruct (QuizModule.currentIndex s); discriminate Hq.
    - reflexivity. }
  cbn [QuizModule.act]. unfold QuizModule.optionEnabled. rewrite Hrender, Hna.
  apply Nat.ltb_lt in Hidx. rewrite Hidx. cbn [andb negb].
  unfold QuizModule.handleOptionClick. rewrite Hna, Hq, Hload. reflexivity.
Qed.

(** Pressing an option on an answered question. *)
Lemma act_PressOption_answered (topic : string) (s : QuizModule.State) (idx : nat) :
  QuizModule.isAnswered s = true ->
  QuizModule.act (topic, s) (QuizModule.PressOption idx) = Some (topic, s).
Proof.
  intros Hans. cbn [QuizModule.act]. unfold QuizModule.optionEnabled.
  destruct (QuizModule.render s) as [[| | currentQ] |]; try reflexivity.
  rewrite Hans, andb_false_r. reflexivity.
Qed.

(** X24.  For every topic, answering each of the three questions with its
    correct option brings the score to 3 on the last question, and the Next
    press that follows puts the component back exactly where it was when it
    mounted, the score at 0.  On any question that is shown and not yet
    answered, whatever the quiz, the position in it and the score so far,
    pressing an option marks the question answered with that option
    selected; the correct option adds 1 to the score and every other option
    leaves the score where it was; and any press of an option after that
    changes nothing. *)
Theorem quiz_round_scores_and_restarts :
  forall topic : string,
    (exists (qs : list QuizQuestion) (s0 s3 : QuizModule.State),
        QuizModule.mount topic = Some (topic, s0)
        /\ QuizModule.questions s0 = qs
        /\ QuizModule.play (topic, s0) (QuizModule.answerAll qs) = Some (topic, s3)
        /\ QuizModule.score s3 = 3%nat
        /\ QuizModule.currentIndex s3 = 2%nat
        /\ QuizModule.act (topic, s3) QuizModule.PressNext = Some (topic, s0))
    /\ (forall (s : QuizModule.State) (q : QuizQuestion) (idx : nat),
          QuizModule.loading s = false ->
          nth_error (QuizModule.questions s) (QuizModule.currentIndex s) = Some q ->
          QuizModule.isAnswered s = false ->
          (idx < length (options q))%nat ->
          exists s1,
            QuizModule.act (topic, s) (QuizModule.PressOption idx) = Some (topic, s1)
            /\ QuizModule.isAnswered s1 = true
            /\ QuizModule.selectedOption s1 = Some idx
            /\ QuizModule.questions s1 = QuizModule.questions s
            /\ QuizModule.currentIndex s1 = QuizModule.currentIndex s
            /\ (idx = correctAnswerIndex q ->
                QuizModule.score s1 = (QuizModule.score s + 1)%nat)
            /\ (idx <> correctAnswerIndex q ->
                QuizModule.score s1 = QuizModule.score s)
            /\ (forall idx2 : nat,
                  QuizModule.act (topic, s1) (QuizModule.PressOption idx2)
                  = Some (topic, s1))).
Proof.
  intros topic. split.
  - assert (Hcase :
      exists qs,
        generateQuizQuestions topic 3 = Resolved (Some qs)
        /\ (qs = KAAMOS_QUESTIONS \/ qs = SHADOW_QUESTIONS \/ qs = DEFAULT_QUESTIONS)).
    { destruct (generateQuizQuestions_sets topic 3) as [E | [E | E]]; eauto 6. }
    destruct Hcase as (qs & Hgen & Hqs).
    exists qs, (QuizModule.mkState qs 0 None false false 0),
      (QuizModule.mkState qs 2 (Some (match nth_error qs 2 with
                                     | Some q => correctAnswerIndex q
                                     | None => 0%nat
                                     end)) true false 3).
    assert (Hmount : QuizModule.mount topic
                     = Some (topic, QuizModule.mkState qs 0 None false false 0)).
    { unfold QuizModule.mount, QuizModule.fetchQuestions. rewrite Hgen. reflexivity. }
    split; [exact Hmount |]. split; [reflexivity |].
    assert (Hnext : forall s,
               QuizModule.nextQuestion topic s
               = if (QuizModule.currentIndex s + 1 <? length (QuizModule.questions s))%nat
                 then Some (QuizModule.mkState (QuizModule.questions s)
                              (QuizModule.currentIndex s + 1) None false
                              (QuizModule.loading s) (QuizModule.score s))
                 else Some (QuizModule.mkState qs 0 None false false 0)).
    { intros s. unfold QuizModule.nextQuestion. rewrite Hgen. reflexivity. }
    destruct Hqs as [-> | [-> | ->]].
    all: split; [reflexivity |].
    all: split; [reflexivity |].
    all: split; [reflexivity |].
    all: cbn [QuizModule.act]; unfold QuizModule.nextShown;
      cbn -[QuizModule.nextQuestion]; rewrite Hnext; reflexivity.
  - intros s q idx Hload Hq Hna Hidx.
    eexists. split; [exact (act_PressOption topic s q idx Hload Hq Hna Hidx) |].
    cbn [QuizModule.isAnswered QuizModule.selectedOption QuizModule.questions
         QuizModule.currentIndex QuizModule.score].
    split; [reflexivity |]. split; [reflexivity |]. split; [reflexivity |].
    split; [reflexivity |].
    split; [intros ->; rewrite Nat.eqb_refl; reflexivity |].
    split.
    + intros Hne. apply Nat.eqb_neq in Hne. rewrite Hne. reflexivity.
    + intros idx2. apply act_PressOption_answered. reflexivity.
Qed.

Lemma quiz_round_scores_and_restarts_witness :
  let topic := "Earth seasons axial tilt and solstices"%string in
  let s := QuizModule.mkState DEFAULT_QUESTIONS 1 None false false 1 in
  let q := mkQuestion "Approximately how long does it take for Earth to complete one revolution around the Sun?"
             ["24 hours"; "30 days"; "365.25 days"; "10 years"]%string 2
             "One revolution equals one year, which is approximately 365.25 days." in
  QuizModule.loading s = false
  /\ nth_error (QuizModule.questions s) (QuizModule.currentIndex s) = Some q
  /\ QuizModule.isAnswered s = false
  /\ (3 < length (options q))%nat
  /\ 3%nat <> correctAnswerIndex q
  /\ (2 < length (options q))%nat
  /\ 2%nat = correctAnswerIndex q
  /\ (exists s1,
        QuizModule.act (topic, s) (QuizModule.PressOption 3) = Some (topic, s1)
        /\ QuizModule.score s1 = 1%nat
        /\ QuizModule.act (topic, s1) (QuizModule.PressOption 2) = Some (topic, s1))
  /\ (exists s1,
        QuizModule.act (topic, s) (QuizModule.PressOption 2) = Some (topic, s1)
        /\ QuizModule.score s1 = 2%nat).
Proof.
  intros topic s q.
  assert (Hload : QuizModule.loading s = false) by reflexivity.
  assert (Hq : nth_error (QuizModule.questions s) (QuizModule.currentIndex s) = Some q)
    by reflexivity.
  assert (Hna : QuizModule.isAnswered s = false) by reflexivity.
  assert (H3 : (3 < length (options q))%nat) by (cbn; lia).
  assert (Hwrong : 3%nat <> correctAnswerIndex q) by (cbn; lia).
  assert (H1 : (2 < length (options q))%nat) by (cbn; lia).
  assert (Hright : 2%nat = correctAnswerIndex q) by reflexivity.
  split; [exact Hload |]. split; [exact Hq |]. split; [exact Hna |].
  split; [exact H3 |]. split; [exact Hwrong |]. split; [exact H1 |].
  split; [exact Hright |].
  split.
  - destruct (proj2 (quiz_round_scores_and_restarts topic) s q 3%nat Hload Hq Hna H3)
      as (s1 & Hact & _ & _ & _ & _ & _ & Hsame & Hagain).
    exists s1. split; [exact Hact |].
    split; [exact (Hsame Hwrong) | exact (Hagain 2%nat)].
  - destruct (proj2 (quiz_round_scores_and_restarts topic) s q 2%nat Hload Hq Hna H1)
      as (s1 & Hact & _ & _ & _ & _ & Hplus & _).
    exists s1. split; [exact Hact | exact (Hplus Hright)].
Defined.

(* ================================================================== *)
(** * OrbitCommand and App *)
(* ================================================================== *)

Lemma nextOrder_loaded (i : nat) :
  OrbitCommand.nextOrder (OrbitCommand.mkState COMMAND_DATA false i)
  = OrbitCommand.mkState COMMAND_DATA false ((i + 1) mod 4).
Proof. reflexivity. Qed.

Lemma nextOrder_iterated (n : nat) :
  forall i,
    Nat.iter n OrbitCommand.nextOrder (OrbitCommand.mkState COMMAND_DATA false i)
    = OrbitCommand.mkState COMMAND_DATA false
        (Nat.iter n (fun k => (k + 1) mod 4) i).
Proof.
  induction n as [| n IH]; intros i; [reflexivity |].
  rewrite !Nat.iter_succ, IH. apply nextOrder_loaded.
Qed.

Lemma iter_succ_mod (n : nat) :
  forall i, (i < 4)%nat -> Nat.iter n (fun k => (k + 1) mod 4) i = (i + n) mod 4.
Proof.
  induction n as [| n IH]; intros i Hi.
  - cbn [Nat.iter nat_rect]. rewrite Nat.add_0_r. symmetry.
    apply Nat.mod_small. exact Hi.
  - rewrite Nat.iter_succ, IH by exact Hi.
    rewrite Nat.Div0.add_mod_idemp_l. f_equal. lia.
Qed.

(** X25.  In GROUP mode the mounted component holds the four commands and
    shows the first; after n presses of Next Order it shows command number
    n mod 4, an index that always points at a command, and every fourth
    press is back at the first.  In SOLO mode no commands are fetched and the
    button changes nothing. *)
Theorem next_order_cycles_through_commands :
  forall n : nat,
    exists s0,
      OrbitCommand.mount GROUP = Some s0
      /\ OrbitCommand.commands s0 = COMMAND_DATA
      /\ OrbitCommand.currentIndex s0 = 0%nat
      /\ OrbitCommand.currentIndex (Nat.iter n OrbitCommand.nextOrder s0) = (n mod 4)%nat
      /\ (exists c,
            nth_error (OrbitCommand.commands (Nat.iter n OrbitCommand.nextOrder s0))
                      (OrbitCommand.currentIndex (Nat.iter n OrbitCommand.nextOrder s0))
            = Some c)
      /\ Nat.iter (4 * n) OrbitCommand.nextOrder s0 = s0
      /\ OrbitCommand.mount SOLO = Some OrbitCommand.initial
      /\ Nat.iter n OrbitCommand.nextOrder OrbitCommand.initial = OrbitCommand.initial.
Proof.
  intros n. exists (OrbitCommand.mkState COMMAND_DATA false 0).
  split; [reflexivity |]. split; [reflexivity |]. split; [reflexivity |].
  assert (Hiter : forall k,
             Nat.iter k OrbitCommand.nextOrder (OrbitCommand.mkState COMMAND_DATA false 0)
             = OrbitCommand.mkState COMMAND_DATA false (k mod 4)).
  { intros k. rewrite nextOrder_iterated, iter_succ_mod by lia. reflexivity. }
  rewrite !Hiter. cbn [OrbitCommand.currentIndex OrbitCommand.commands].
  split; [reflexivity |].
  split.
  { assert (Hlt : (n mod 4 < length COMMAND_DATA)%nat)
      by (apply Nat.mod_upper_bound; discriminate).
    destruct (nth_error COMMAND_DATA (n mod 4)) as [c |] eqn:E; [eauto |].
    apply nth_error_None in E. lia. }
  split.
  { f_equal. rewrite Nat.mul_comm. apply Nat.Div0.mod_mul. }
  split; [reflexivity |].
  induction n as [| n IH]; [reflexivity |].
  rewrite Nat.iter_succ, IH. reflexivity.
Qed.

Lemma press_invariant (s : App.State) (p : App.Press) :
  (App.currentView s = DASHBOARD /\ App.activeActivityId s = None
   /\ App.gameMode s = None)
  \/ (App.currentView s = ACTIVITY /\ exists id, App.activeActivityId s = Some id) ->
  (App.currentView (App.press s p) = DASHBOARD
   /\ App.activeActivityId (App.press s p) = None
   /\ App.gameMode (App.press s p) = None)
  \/ (App.currentView (App.press s p) = ACTIVITY
      /\ exists id, App.activeActivityId (App.press s p) = Some id).
Proof.
  intros [(Hv & Ha & Hg) | (Hv & id & Ha)];
    destruct s as [v a g]; cbn in *; subst.
  - destruct p as [id' | | m]; cbn.
    + destruct id'; cbn; right; eauto.
    + left. auto.
    + left. auto.
  - destruct p as [id' | | m]; destruct g as [m' |]; destruct id; cbn; eauto.
Qed.

(** X26.  However the cards, the back arrow and the protocol buttons are
    pressed, the app is either on the dashboard with no activity and no mode
    chosen, or in an activity with one of the five activities active; it
    never shows Module Under Construction; and once a protocol is chosen the
    activity it was chosen for stays on screen, in that mode, until Back is
    pressed. *)
Theorem app_navigation_invariant :
  forall ps : list App.Press,
    let s := App.navigate ps in
    ((App.currentView s = DASHBOARD /\ App.activeActivityId s = None
      /\ App.gameMode s = None)
     \/ (App.currentView s = ACTIVITY /\ exists id, App.activeActivityId s = Some id))
    /\ App.render s <> App.UnderConstruction
    /\ (forall (m : GameMode) (p : App.Press),
          App.gameMode s = Some m ->
          p <> App.Back ->
          App.press s p = s).
Proof.
  intros ps s.
  assert (Hinv : (App.currentView s = DASHBOARD /\ App.activeActivityId s = None
                  /\ App.gameMode s = None)
                 \/ (App.currentView s = ACTIVITY
                     /\ exists id, App.activeActivityId s = Some id)).
  { subst s. unfold App.navigate.
    assert (H0 : (App.currentView App.initial = DASHBOARD
                  /\ App.activeActivityId App.initial = None
                  /\ App.gameMode App.initial = None)
                 \/ (App.currentView App.initial = ACTIVITY
                     /\ exists id, App.activeActivityId App.initial = Some id))
      by (left; repeat split).
    revert H0. generalize App.initial.
    induction ps as [| p ps IH]; intros s0 H0; simpl; [exact H0 |].
    apply IH, press_invariant, H0. }
  split; [exact Hinv |].
  destruct s as [v a g]; cbn in *.
  destruct Hinv as [(Hv & Ha & Hg) | (Hv & id & Ha)]; subst.
  - split; [discriminate |]. intros m p Hm. discriminate Hm.
  - split.
    + destruct g as [m |]; destruct id; discriminate.
    + intros m p Hm Hp. subst g.
      destruct p as [id' | | m']; [| congruence |]; destruct id; reflexivity.
Qed.

Lemma app_navigation_invariant_witness :
  let s := App.navigate [App.Card SHADOWS; App.Protocol SOLO] in
  App.gameMode s = Some SOLO
  /\ App.Card SEASONS <> App.Back
  /\ App.press s (App.Card SEASONS) = s
  /\ App.render s = App.ShadowLabScreen SOLO.
Proof.
  intros s.
  assert (Hm : App.gameMode s = Some SOLO) by reflexivity.
  assert (Hp : App.Card SEASONS <> App.Back) by discriminate.
  split; [exact Hm |]. split; [exact Hp |].
  split; [| reflexivity].
  exact (proj2 (proj2 (app_navigation_invariant
                         [App.Card SHADOWS; App.Protocol SOLO]))
           SOLO (App.Card SEASONS) Hm Hp).
Defined.

(** X27.  The quiz each activity screen carries, by the topic it passes:
    the solo orbit screen and the seasons screen get the default questions,
    the shadow lab and the sunlight-intensity screen get the shadow
    questions, and no screen with a fixed topic gets the Kaamos ones. *)
Theorem activity_screens_quiz_sets :
  forall (c : App.Content) (topic : string),
    App.quizTopic c = Some topic ->
    generateQuizQuestions topic 3
    = Resolved
        (Some (match c with
               | App.ShadowLabScreen _ | App.SunlightIntensityScreen => SHADOW_QUESTIONS
               | _ => DEFAULT_QUESTIONS
               end)).
Proof.
  intros c topic H.
  destruct c as [| | [|] | m | m | m | |]; cbn in H; try discriminate H;
    injection H as <-; vm_compute; reflexivity.
Qed.

Lemma activity_screens_quiz_sets_witness :
  App.quizTopic App.SunlightIntensityScreen
  = Some "Sunlight intensity and angle of incidence"%string
  /\ generateQuizQuestions "Sunlight intensity and angle of incidence" 3
     = Resolved (Some SHADOW_QUESTIONS).
Proof.
  assert (H : App.quizTopic App.SunlightIntensityScreen
              = Some "Sunlight intensity and angle of incidence"%string)
    by reflexivity.
  split; [exact H |].
  exact (activity_screens_quiz_sets App.SunlightIntensityScreen _ H).
Defined.
